(** * Quantus: the batched metric base class

    A shallow embedding of [quantus/metrics/base_batched.py]: the batch
    planner ([get_number_of_batches] and the range arithmetic of
    [generate_batches]), the partition of the dataset into single-value and
    batched keyword arguments, the batch generator, the resolution of the
    evaluator-specific keyword arguments in [__init__], and the evaluation
    driver [__call__] with its two result attributes.

    Python integers are [Z].  The true division [n_instances / batch_size]
    is the correctly rounded binary64 quotient, taken from the IEEE 754
    specification of the standard library ([SpecFloat.SFdiv] with
    precision 53 and maximal exponent 1024).  Dictionaries that the code
    iterates over are the lists of their items, in insertion order;
    dictionaries that the code builds are finite maps.  The list objects
    behind [last_results] and [all_results] live in a store and are named
    by references, so that sharing between the two attributes is visible. *)

From Stdlib Require Import ZArith Lia SpecFloat Ascii String.
From stdpp Require Import gmap strings list.

Local Open Scope Z_scope.
Set Warnings "-register-all".

(** ** Python values and exceptions *)

(** The containers that [isinstance(value, (Sequence, np.ndarray))] accepts
    and that can be sliced along their first axis. *)
Inductive seq_kind := KList | KTuple | KArray.

Inductive value :=
| VNone
| VInt (z : Z)
| VFloat (x : spec_float)
| VStr (s : string)
| VSeq (kind : seq_kind) (items : list value)
    (* list, tuple, or an ndarray of dimension at least one (its rows) *)
| VArray0 (z : Z)
    (* a zero-dimensional ndarray: an ndarray without a length *)
| VSet (items : list value)
    (* a sized, iterable container that is not a Sequence (set, dict) *)
| VObject (id : positive).
    (* any other object: a model, a callable, ... *)

Inductive exn :=
| ZeroDivisionError
| OverflowError
| ValueError_nan
| KeyError (key : string)
| TypeError_no_len
| TypeError_not_iterable
| TypeError_multiple_values
| ValueError_incorrect_length (key : string) (expected actual : Z)
| Raised (code : Z).
    (* an exception raised by code outside this module *)

(** A computation either raises ([inl]) or returns ([inr]). *)
Abbreviation result := (sum exn).

(** Whether a computation returns, and what it returns. *)
Definition is_ok {A} (r : result A) : bool :=
  match r with
  | inr _ => true
  | inl _ => false
  end.

Definition returned {A} (d : A) (r : result A) : A :=
  match r with
  | inr a => a
  | inl _ => d
  end.

(** A dictionary as the list of its items, in insertion order. *)
Abbreviation dict_items := (list (string * value)).

(** A dictionary built by the code. *)
Abbreviation dict := (gmap string value).

(** ** Builtins *)

Definition isinstance_Sequence_or_ndarray (v : value) : bool :=
  match v with
  | VStr _ | VSeq _ _ | VArray0 _ => true
  | _ => false
  end.

Definition isinstance_str (v : value) : bool :=
  match v with
  | VStr _ => true
  | _ => false
  end.

Definition py_len (v : value) : result Z :=
  match v with
  | VStr s => inr (Z.of_nat (String.length s))
  | VSeq _ xs => inr (Z.of_nat (length xs))
  | VSet xs => inr (Z.of_nat (length xs))
  | _ => inl TypeError_no_len
  end.

(** Iteration, as [list.extend] performs it on its argument. *)
Definition py_iter (v : value) : result (list value) :=
  match v with
  | VSeq _ xs => inr xs
  | VSet xs => inr xs
  | VStr s => inr ((fun c => VStr (String c EmptyString)) <$> String.list_ascii_of_string s)
  | _ => inl TypeError_not_iterable
  end.

(** A slice bound is clipped to the length; a negative one counts from the
    end. *)
Definition slice_index (len i : Z) : Z :=
  if i <? 0 then Z.max (i + len) 0 else Z.min i len.

Definition list_slice {A} (xs : list A) (start stop : Z) : list A :=
  let len := Z.of_nat (length xs) in
  let lo := slice_index len start in
  let hi := slice_index len stop in
  take (Z.to_nat (hi - lo)) (drop (Z.to_nat lo) xs).

(** [value[start:stop]].  Only sequences are ever sliced by
    [generate_batches] (lemma [partition_kwargs_batched]); the last case is
    not reached. *)
Definition py_getslice (v : value) (start stop : Z) : value :=
  match v with
  | VSeq k xs => VSeq k (list_slice xs start stop)
  | VStr s =>
      VStr (String.string_of_list_ascii
              (list_slice (String.list_ascii_of_string s) start stop))
  | _ => v
  end.

(** ** True division of integers and [math.ceil] *)

Definition float_operand (z : Z) : spec_float :=
  match z with
  | Z0 => S754_zero false
  | Zpos p => S754_finite false p 0
  | Zneg p => S754_finite true p 0
  end.

(** [a / b] on integers: the quotient rounded to the nearest binary64
    number, ties to even; a quotient too large for a float raises. *)
Definition int_true_divide (a b : Z) : result spec_float :=
  if b =? 0 then inl ZeroDivisionError
  else
    match SFdiv 53 1024 (float_operand a) (float_operand b) with
    | S754_infinity _ => inl OverflowError
    | q => inr q
    end.

(** The least integer not below [m * 2 ^ e]. *)
Definition ceil_scaled (m e : Z) : Z :=
  if e <? 0 then - ((- m) / 2 ^ (- e)) else m * 2 ^ e.

Definition math_ceil (x : spec_float) : result Z :=
  match x with
  | S754_zero _ => inr 0
  | S754_finite s m e => inr (ceil_scaled (if s then Zneg m else Zpos m) e)
  | S754_infinity _ => inl OverflowError
  | S754_nan => inl ValueError_nan
  end.

(** ** The batch planner *)

(** [return math.ceil(n_instances / batch_size)] *)
Definition get_number_of_batches (n_instances batch_size : Z) : result Z :=
  match int_true_divide n_instances batch_size with
  | inl e => inl e
  | inr q => math_ceil q
  end.

(** [batch_start = batch_size * batch_idx] *)
Definition batch_start (batch_size batch_idx : Z) : Z :=
  batch_size * batch_idx.

(** [batch_end = min(batch_size * (batch_idx + 1), n_instances)] *)
Definition batch_end (batch_size batch_idx n_instances : Z) : Z :=
  Z.min (batch_size * (batch_idx + 1)) n_instances.

(** The index [j] lies in the range of batch [i]. *)
Definition in_batch (batch_size n_instances i j : Z) : Prop :=
  batch_start batch_size i <= j < batch_end batch_size i n_instances.


(** ** [generate_batches] *)

(** The loop over [list(data.items())] that fills [single_value_kwargs] and
    [batched_value_kwargs]. *)
Fixpoint partition_kwargs (n_instances : Z) (data : dict_items)
    (single_value_kwargs batched_value_kwargs : dict)
    : result (dict * dict) :=
  match data with
  | [] => inr (single_value_kwargs, batched_value_kwargs)
  | (key, value) :: data' =>
      if negb (isinstance_Sequence_or_ndarray value) || isinstance_str value
      then partition_kwargs n_instances data'
             (<[key := value]> single_value_kwargs) batched_value_kwargs
      else
        match py_len value with
        | inl e => inl e
        | inr len =>
            if negb (len =? n_instances)
            then inl (ValueError_incorrect_length key n_instances len)
            else partition_kwargs n_instances data'
                   single_value_kwargs (<[key := value]> batched_value_kwargs)
        end
  end.

(** The test of the first branch of that loop: the value is handed to
    every batch as it is. *)
Definition broadcast (v : value) : bool :=
  negb (isinstance_Sequence_or_ndarray v) || isinstance_str v.

(** The entries that the loop accepts for an instance count. *)
Definition accepted (n_instances : Z) (v : value) : Prop :=
  broadcast v = true \/ py_len v = inr n_instances.

(** The body of the loop over the batch indices: the dictionary that is
    yielded.  In [{**batch, **single_value_kwargs}] the single values come
    last and win. *)
Definition make_batch (batch_size n_instances : Z)
    (single_value_kwargs batched_value_kwargs : dict) (batch_idx : Z) : dict :=
  let start := batch_start batch_size batch_idx in
  let stop := batch_end batch_size batch_idx n_instances in
  let batch := (fun v => py_getslice v start stop) <$> batched_value_kwargs in
  single_value_kwargs ∪ batch.

(** The generator, as the sequence of the dictionaries it yields.  Nothing
    of its body runs before the first [next()]: an exception of the part
    before the loop is raised there.  The progress bar only displays.
    The keys of a dictionary are distinct, so that [data['x_batch']] is
    the value of the only item with this key. *)
Definition generate_batches (data : dict_items) (batch_size : Z)
    (display_progressbar : bool) : result (list dict) :=
  match (list_to_map data : dict) !! "x_batch"%string with
  | None => inl (KeyError "x_batch")
  | Some x_batch =>
      match py_len x_batch with
      | inl e => inl e
      | inr n_instances =>
          match partition_kwargs n_instances data ∅ ∅ with
          | inl e => inl e
          | inr (single_value_kwargs, batched_value_kwargs) =>
              match get_number_of_batches n_instances batch_size with
              | inl e => inl e
              | inr n_batches =>
                  inr (make_batch batch_size n_instances
                         single_value_kwargs batched_value_kwargs
                         <$> seqZ 0 n_batches)
              end
          end
      end
  end.

(** The [x_batch] entries of a sequence of batches, one after the other. *)
Definition x_slices (batches : list dict) : list value :=
  batches ≫= (fun batch =>
    match batch !! "x_batch"%string with
    | Some (VSeq _ xs) => xs
    | _ => []
    end).

(** ** [__init__]: the evaluator-specific keyword arguments *)

(** [re.sub('_batch', '', key)]: every occurrence of [_batch] is deleted,
    from left to right. *)
Fixpoint re_sub_batch (key : string) : string :=
  match key with
  | String "_"%char (String "b"%char (String "a"%char
      (String "t"%char (String "c"%char (String "h"%char rest))))) =>
      re_sub_batch rest
  | String c rest => String c (re_sub_batch rest)
  | EmptyString => EmptyString
  end.

(** The loop over [list(kwargs.items())]: a matching item is copied to
    [custom_evaluate_kwargs] and deleted from [kwargs]. *)
Fixpoint resolve_evaluate_kwargs (evaluate_kwarg_names : list string)
    (kwargs_items : dict_items) (custom_evaluate_kwargs kwargs : dict)
    : dict * dict :=
  match kwargs_items with
  | [] => (custom_evaluate_kwargs, kwargs)
  | (key, value) :: rest =>
      if bool_decide (key ∈ evaluate_kwarg_names)
         || bool_decide (re_sub_batch key ∈ evaluate_kwarg_names)
      then resolve_evaluate_kwargs evaluate_kwarg_names rest
             (<[key := value]> custom_evaluate_kwargs) (delete key kwargs)
      else resolve_evaluate_kwargs evaluate_kwarg_names rest
             custom_evaluate_kwargs kwargs
  end.

(** A name is moved to [custom_evaluate_kwargs] when it is a parameter of
    the evaluator, or is one once every [_batch] is deleted from it. *)
Definition moved (names : list string) (key : string) : Prop :=
  key ∈ names \/ re_sub_batch key ∈ names.

(** Lines 70 to 76: the pair of [custom_evaluate_kwargs] and of the
    keyword arguments left for [super().__init__]. *)
Definition split_init_kwargs (evaluate_kwarg_names : list string)
    (kwargs_items : dict_items) : dict * dict :=
  match kwargs_items with
  | [] => (∅, ∅)
  | _ => resolve_evaluate_kwargs evaluate_kwarg_names kwargs_items
           ∅ (list_to_map kwargs_items)
  end.

(** The reading of the specification: the literal suffix [_batch] is
    stripped from the end of the name, once. *)
Fixpoint strip_suffix_batch (key : string) : string :=
  match key with
  | EmptyString => EmptyString
  | String c rest =>
      if String.eqb key "_batch" then EmptyString
      else String c (strip_suffix_batch rest)
  end.

(** ** The metric object and the methods a concrete metric supplies *)

(** A reference to a list object of the store. *)
Abbreviation loc := nat.
Abbreviation store := (gmap nat (list value)).

Record BatchedMetric := {
  general_kwargs : dict;
    (* the keyword arguments handed on to [super().__init__] *)
  custom_evaluate_kwargs : dict;
  display_progressbar : bool;
  last_results : loc;
  all_results : list loc;
}.

(** The arguments of [__call__] that go to [general_preprocess]. *)
Record call_args := {
  model : value;
  x_batch : value;
  y_batch : value;
  a_batch : value;
  s_batch : value;
  channel_first : value;
  explain_func : value;
  explain_func_kwargs : value;
  model_predict_kwargs : value;
  softmax : value;
  device : value;
  custom_batch : value;
}.

(** The code this module calls and does not define: the abstract
    [evaluate_batch] with the names of its parameters, the hooks of the
    base class and the checks of [warn_func].  They return or raise; they
    do not touch [last_results] or [all_results]. *)
Record methods := {
  evaluate_batch_args : list string;
    (* [inspect.getfullargspec(self.evaluate_batch).args] *)
  evaluate_batch : dict -> result value;
  general_preprocess : call_args -> result dict_items;
  custom_postprocess : dict_items -> result unit;
  check_kwargs : dict_items -> result unit;
    (* [warn_func.deprecation_warnings] and [warn_func.check_kwargs] *)
}.

(** Modelled from the spec: the constructor of the base class [Metric],
    which is not part of this module.  It stores the configuration and
    starts with an empty result sequence and an empty history. *)
Definition Metric_init (config : dict) (progress : bool) (h : store)
    : BatchedMetric * store :=
  let l := fresh (dom h) in
  ({| general_kwargs := config;
      custom_evaluate_kwargs := ∅;
      display_progressbar := progress;
      last_results := l;
      all_results := [] |},
   <[l := []]> h).

(** [BatchedMetric.__init__].  The named options other than
    [display_progressbar] are handed on to the base class and play no part
    in this module. *)
Definition BatchedMetric_init (m : methods) (progress : bool)
    (kwargs_items : dict_items) (h : store) : BatchedMetric * store :=
  let '(custom, rest) := split_init_kwargs (evaluate_batch_args m) kwargs_items in
  let '(self, h') := Metric_init rest progress h in
  ({| general_kwargs := general_kwargs self;
      custom_evaluate_kwargs := custom;
      display_progressbar := display_progressbar self;
      last_results := last_results self;
      all_results := all_results self |},
   h').

(** ** [__call__] *)

(** What a call leaves behind: the object, the store, the keyword
    dictionaries that [evaluate_batch] was invoked with, in order (a ghost
    record, not a value of the program), and the returned reference or the
    exception. *)
Record outcome := {
  out_self : BatchedMetric;
  out_store : store;
  out_calls : list dict;
  out_result : result loc;
}.

(** The loop over the generator.  The call of [evaluate_batch] unpacks
    [data_batch] and [self.custom_evaluate_kwargs] into one keyword
    dictionary and raises, before the method is entered, when a name
    occurs in both; [extend] appends the scores to the list object [l]. *)
Fixpoint evaluate_batches (m : methods) (custom : dict) (l : loc)
    (batches : list dict) (h : store) : store * list dict * result unit :=
  match batches with
  | [] => (h, [], inr tt)
  | data_batch :: rest =>
      if bool_decide (data_batch ##ₘ custom) then
        let kw := data_batch ∪ custom in
        match evaluate_batch m kw with
        | inl e => (h, [kw], inl e)
        | inr res =>
            match py_iter res with
            | inl e => (h, [kw], inl e)
            | inr scores =>
                let '(h', calls, r) :=
                  evaluate_batches m custom l rest
                    (alter (fun old => old ++ scores) l h) in
                (h', kw :: calls, r)
            end
        end
      else (h, [], inl TypeError_multiple_values)
  end.

(** One pass of the loop body: the scores that it appends to
    [last_results], or the exception that it raises. *)
Definition scores_of_batch (m : methods) (custom data_batch : dict)
    : result (list value) :=
  if bool_decide (data_batch ##ₘ custom) then
    match evaluate_batch m (data_batch ∪ custom) with
    | inl e => inl e
    | inr res => py_iter res
    end
  else inl TypeError_multiple_values.

(** The scores of all batches, when every pass of the loop returns. *)
Fixpoint all_scores (m : methods) (custom : dict) (batches : list dict)
    : result (list (list value)) :=
  match batches with
  | [] => inr []
  | data_batch :: rest =>
      match scores_of_batch m custom data_batch with
      | inl e => inl e
      | inr scores =>
          match all_scores m custom rest with
          | inl e => inl e
          | inr outs => inr (scores :: outs)
          end
      end
  end.

Definition set_last_results (self : BatchedMetric) (l : loc) : BatchedMetric :=
  {| general_kwargs := general_kwargs self;
     custom_evaluate_kwargs := custom_evaluate_kwargs self;
     display_progressbar := display_progressbar self;
     last_results := l;
     all_results := all_results self |}.

Definition append_all_results (self : BatchedMetric) (l : loc) : BatchedMetric :=
  {| general_kwargs := general_kwargs self;
     custom_evaluate_kwargs := custom_evaluate_kwargs self;
     display_progressbar := display_progressbar self;
     last_results := last_results self;
     all_results := all_results self ++ [l] |}.

(** [BatchedMetric.__call__] *)
Definition BatchedMetric_call (m : methods) (self : BatchedMetric) (h : store)
    (args : call_args) (batch_size : Z) (kw : dict_items) : outcome :=
  match check_kwargs m kw with
  | inl e => Build_outcome self h [] (inl e)
  | inr _ =>
      match general_preprocess m args with
      | inl e => Build_outcome self h [] (inl e)
      | inr data =>
          (* self.last_results = [] *)
          let l := fresh (dom h) in
          let h1 := <[l := []]> h in
          let self1 := set_last_results self l in
          (* for data_batch in batch_generator *)
          match generate_batches data batch_size (display_progressbar self) with
          | inl e => Build_outcome self1 h1 [] (inl e)
          | inr batches =>
              let '(h2, calls, r) :=
                evaluate_batches m (custom_evaluate_kwargs self) l batches h1 in
              match r with
              | inl e => Build_outcome self1 h2 calls (inl e)
              | inr _ =>
                  match custom_postprocess m data with
                  | inl e => Build_outcome self1 h2 calls (inl e)
                  | inr _ =>
                      (* self.all_results.append(self.last_results) *)
                      Build_outcome (append_all_results self1 l) h2 calls (inr l)
                  end
              end
          end
      end
  end.

(** Several calls on the same object, one after the other; a call that
    raises leaves the object to the next call as it is then. *)
Fixpoint call_sequence (m : methods) (self : BatchedMetric) (h : store)
    (calls : list (call_args * Z * dict_items)) : list outcome :=
  match calls with
  | [] => []
  | (args, batch_size, kw) :: rest =>
      let o := BatchedMetric_call m self h args batch_size kw in
      o :: call_sequence m (out_self o) (out_store o) rest
  end.

(** The contents of the list object behind a reference. *)
Definition deref (h : store) (l : loc) : list value := default [] (h !! l).

(** ** Concrete metrics and datasets

    The scenarios of the specification, used below to run the definitions
    on concrete inputs. *)

Definition int_array (zs : list Z) : value := VSeq KArray (VInt <$> zs).

(** The parameters of the abstract [evaluate_batch]. *)
Definition base_parameters : list string :=
  ["self"; "model"; "x_batch"; "y_batch"; "a_batch"; "s_batch"]%string.

(** A preprocessing hook that hands the arguments on as the dataset. *)
Definition flat_preprocess (a : call_args) : result dict_items :=
  inr [("model", model a); ("x_batch", x_batch a); ("y_batch", y_batch a);
       ("a_batch", a_batch a); ("s_batch", s_batch a)]%string.

(** An evaluator that returns [[1] * len(x_batch)]. *)
Definition ones_evaluate_batch (kw : dict) : result value :=
  match kw !! "x_batch"%string with
  | Some (VSeq _ xs) => inr (VSeq KList (replicate (length xs) (VInt 1)))
  | _ => inl (Raised 0)
  end.

Definition ones_metric : methods :=
  {| evaluate_batch_args := base_parameters;
     evaluate_batch := ones_evaluate_batch;
     general_preprocess := flat_preprocess;
     custom_postprocess := fun _ => inr tt;
     check_kwargs := fun _ => inr tt |}.

(** An evaluator that raises on the batch that starts with the instance
    [30], and returns ones otherwise. *)
Definition picky_evaluate_batch (kw : dict) : result value :=
  match kw !! "x_batch"%string with
  | Some (VSeq _ (VInt 30 :: _)) => inl (Raised 7)
  | _ => ones_evaluate_batch kw
  end.

Definition picky_metric : methods :=
  {| evaluate_batch_args := base_parameters;
     evaluate_batch := picky_evaluate_batch;
     general_preprocess := flat_preprocess;
     custom_postprocess := fun _ => inr tt;
     check_kwargs := fun _ => inr tt |}.

(** An evaluator with the additional parameter [threshold]. *)
Definition threshold_metric : methods :=
  {| evaluate_batch_args := base_parameters ++ ["threshold"%string];
     evaluate_batch := ones_evaluate_batch;
     general_preprocess := flat_preprocess;
     custom_postprocess := fun _ => inr tt;
     check_kwargs := fun _ => inr tt |}.

Definition call_with (x y a : value) : call_args :=
  {| model := VObject 1; x_batch := x; y_batch := y; a_batch := a;
     s_batch := VNone; channel_first := VNone; explain_func := VNone;
     explain_func_kwargs := VNone; model_predict_kwargs := VNone;
     softmax := VNone; device := VNone; custom_batch := VNone |}.

Definition five_instances : call_args :=
  call_with (int_array [10; 20; 30; 40; 50]) (int_array [0; 1; 0; 1; 0])
            (int_array [1; 2; 3; 4; 5]).

Definition five_dataset : dict_items :=
  [("model", VObject 1); ("x_batch", int_array [10; 20; 30; 40; 50]);
   ("y_batch", int_array [0; 1; 0; 1; 0]); ("a_batch", int_array [1; 2; 3; 4; 5]);
   ("s_batch", VNone)]%string.

(** The float [0.1]. *)
Definition one_tenth : value := VFloat (S754_finite false 7205759403792794 (-56)).

Definition ten : value := int_array [0; 1; 2; 3; 4; 5; 6; 7; 8; 9].

(** The rows of an array of shape [(2 ^ 53 + 1, 0)]: one instance more
    than binary64 counts exactly, each without elements. *)
Definition empty_rows : list value :=
  replicate (Z.to_nat (2 ^ 53 + 1)) (VSeq KArray []).

(** Scenario 4 of the specification, with and without the entry of
    length three. *)
Definition mixed_dataset : dict_items :=
  [("x", ten); ("label", VStr "foo"); ("weight", VInt 5); ("aux", ten)]%string.

Definition mismatched_dataset : dict_items :=
  mixed_dataset ++ [("other"%string, int_array [1; 2; 3])].

(** A fresh object of each metric, in an empty store. *)
Definition new_metric (m : methods) (kwargs_items : dict_items)
    : BatchedMetric * store :=
  BatchedMetric_init m false kwargs_items ∅.

(** ** Signs

    A float with its sign replaced. *)
Definition with_sign (s : bool) (x : spec_float) : spec_float :=
  match x with
  | S754_zero _ => S754_zero s
  | S754_finite _ m e => S754_finite s m e
  | S754_infinity _ => S754_infinity s
  | S754_nan => S754_nan
  end.

(** ** Entries other than [x_batch] *)

(** The entries of a sequence of batches under one key, one after the
    other; [x_slices] is the case of the key [x_batch]. *)
Definition key_slices (key : string) (batches : list dict) : list value :=
  batches ≫= (fun batch =>
    match batch !! key with
    | Some (VSeq _ xs) => xs
    | _ => []
    end).

(** ** [BatchedPerturbationMetric] *)

(** The parameters of its abstract [evaluate_batch]. *)
Definition perturbation_parameters : list string :=
  base_parameters ++ ["perturb_func"; "perturb_func_kwargs"]%string.

(** [BatchedPerturbationMetric.__init__]: a [perturb_func_kwargs] that is
    [None] becomes the empty dictionary, and the two options are handed to
    [BatchedMetric.__init__] by keyword, where they are the first items of
    its [kwargs]. *)
Definition BatchedPerturbationMetric_init (m : methods) (progress : bool)
    (perturb_func perturb_func_kwargs : value) (kwargs_items : dict_items)
    (h : store) : BatchedMetric * store :=
  let perturb_func_kwargs :=
    match perturb_func_kwargs with
    | VNone => VSet []
    | _ => perturb_func_kwargs
    end in
  BatchedMetric_init m progress
    (("perturb_func"%string, perturb_func)
       :: ("perturb_func_kwargs"%string, perturb_func_kwargs) :: kwargs_items) h.

(** The named arguments that [BatchedPerturbationMetric.__call__] hands to
    [super().__call__].  Its signature has no [custom_batch]: the base
    class takes it from the keyword arguments when it is there, and it is
    None otherwise; the field [custom_batch] of [args] is not read. *)
Definition forwarded_args (args : call_args) (kw : dict_items) : call_args :=
  {| model := model args; x_batch := x_batch args; y_batch := y_batch args;
     a_batch := a_batch args; s_batch := s_batch args;
     channel_first := channel_first args; explain_func := explain_func args;
     explain_func_kwargs := explain_func_kwargs args;
     model_predict_kwargs := model_predict_kwargs args;
     softmax := softmax args; device := device args;
     custom_batch := default VNone ((list_to_map kw : dict) !! "custom_batch"%string) |}.

(** [BatchedPerturbationMetric.__call__].  Its signature has [batch_size],
    but the call of [super().__call__] hands on the other named arguments
    and [**kwargs] only: the base class runs with its default,
    [batch_size = 64]. *)
Definition BatchedPerturbationMetric_call (m : methods) (self : BatchedMetric)
    (h : store) (args : call_args) (batch_size : Z) (kw : dict_items) : outcome :=
  BatchedMetric_call m self h (forwarded_args args kw) 64
    (filter (fun kv => kv.1 ≠ "custom_batch"%string) kw).

(** ** The instance count *)

(** [n_instances = len(data['x_batch'])], the first statement of
    [generate_batches]. *)
Definition instance_count (data : dict_items) : result Z :=
  match (list_to_map data : dict) !! "x_batch"%string with
  | None => inl (KeyError "x_batch")
  | Some x_batch => py_len x_batch
  end.

(** ** Further concrete metrics *)

(** An evaluator that returns one number for the whole batch, not a
    sequence of scores. *)
Definition scalar_metric : methods :=
  {| evaluate_batch_args := base_parameters;
     evaluate_batch := fun _ => inr (VInt 1);
     general_preprocess := flat_preprocess;
     custom_postprocess := fun _ => inr tt;
     check_kwargs := fun _ => inr tt |}.

(** ** Sequences of calls *)

(** The references that the calls of a sequence have returned, in the
    order of the calls; a call that raised returns none. *)
Definition returned_refs (outcomes : list outcome) : list loc :=
  outcomes ≫= (fun o =>
    match out_result o with
    | inr l => [l]
    | inl _ => []
    end).

(** A perturbation metric whose evaluator has the parameters of the
    abstract method. *)
Definition perturbation_metric : methods :=
  {| evaluate_batch_args := perturbation_parameters;
     evaluate_batch := ones_evaluate_batch;
     general_preprocess := flat_preprocess;
     custom_postprocess := fun _ => inr tt;
     check_kwargs := fun _ => inr tt |}.

(** ** The exceptions of [generate_batches] and of [__call__] *)

(** The exception that the loop over the entries raises at an entry that
    it does not accept (lines 245 and 246): the [TypeError] of [len] when
    the value has no length, and otherwise the validation error with the
    key, the instance count and the length of the value. *)
Definition rejection (n_instances : Z) (key : string) (v : value) : exn :=
  match py_len v with
  | inl e => e
  | inr len => ValueError_incorrect_length key n_instances len
  end.

(** The steps of [__call__] that can raise, in the order of the code.
    [raises_at m self args batch_size kw e calls partial]: the first step
    that raises raises [e]; [calls] are the keyword dictionaries of the
    invocations of [evaluate_batch] that were made until then, and
    [partial] the scores that were appended to the new list of
    [last_results] until then ([None] when the step precedes
    [self.last_results = []]).  The body of the generator runs from the
    first [next()] of the loop, after that assignment. *)
Inductive raises_at (m : methods) (self : BatchedMetric) (args : call_args)
    (batch_size : Z) (kw : dict_items)
    : exn -> list dict -> option (list value) -> Prop :=
| raises_in_check e :
    (* lines 171 and 172 *)
    check_kwargs m kw = inl e ->
    raises_at m self args batch_size kw e [] None
| raises_in_preprocess u e :
    (* lines 174 to 187 *)
    check_kwargs m kw = inr u ->
    general_preprocess m args = inl e ->
    raises_at m self args batch_size kw e [] None
| raises_in_generator u data e :
    (* lines 231 to 251, run by line 199 *)
    check_kwargs m kw = inr u ->
    general_preprocess m args = inr data ->
    generate_batches data batch_size (display_progressbar self) = inl e ->
    raises_at m self args batch_size kw e [] (Some [])
| raises_in_batch u data done bad rest outs e :
    (* lines 200 and 202, on the batch after those of [done] *)
    check_kwargs m kw = inr u ->
    general_preprocess m args = inr data ->
    generate_batches data batch_size (display_progressbar self)
    = inr (done ++ bad :: rest) ->
    Forall2 (fun batch scores =>
               scores_of_batch m (custom_evaluate_kwargs self) batch = inr scores)
      done outs ->
    scores_of_batch m (custom_evaluate_kwargs self) bad = inl e ->
    raises_at m self args batch_size kw e
      (((fun batch => batch ∪ custom_evaluate_kwargs self) <$> done)
         ++ (if bool_decide (bad ##ₘ custom_evaluate_kwargs self)
             then [bad ∪ custom_evaluate_kwargs self] else []))
      (Some (concat outs))
| raises_in_postprocess u data batches outs e :
    (* line 205 *)
    check_kwargs m kw = inr u ->
    general_preprocess m args = inr data ->
    generate_batches data batch_size (display_progressbar self) = inr batches ->
    Forall2 (fun batch scores =>
               scores_of_batch m (custom_evaluate_kwargs self) batch = inr scores)
      batches outs ->
    custom_postprocess m data = inl e ->
    raises_at m self args batch_size kw e
      ((fun batch => batch ∪ custom_evaluate_kwargs self) <$> batches)
      (Some (concat outs)).

(** A dataset in which a zero-dimensional array comes before an array of
    the wrong length. *)
Definition unsized_then_short : call_args :=
  call_with ten (VArray0 7) (int_array [1; 2; 3]).

(** * Properties *)

(** ** Binary64 division of two integers below [2 ^ 53]

    The quotient that [SFdiv] returns is a nearest number with at least 53
    significant bits.  The lemmas follow the steps of
    [SFdiv_core_binary] and [binary_round_aux]. *)

Module Binary64.

Lemma digits2_pos_size p : digits2_pos p = Pos.size p.
Proof. induction p; simpl; congruence. Qed.

Lemma Zdigits2_log2 p : Zdigits2 (Zpos p) = Z.log2 (Zpos p) + 1.
Proof.
  unfold Zdigits2. rewrite digits2_pos_size.
  destruct p; simpl; lia.
Qed.

Lemma Zdigits2_spec p :
  1 <= Zdigits2 (Zpos p) /\ 2 ^ (Zdigits2 (Zpos p) - 1) <= Zpos p < 2 ^ Zdigits2 (Zpos p).
Proof.
  rewrite Zdigits2_log2.
  pose proof (Z.log2_nonneg (Zpos p)).
  pose proof (Z.log2_spec (Zpos p) ltac:(lia)) as Hs.
  replace (Z.log2 (Z.pos p) + 1 - 1) with (Z.log2 (Z.pos p)) by lia.
  replace (Z.log2 (Z.pos p) + 1) with (Z.succ (Z.log2 (Z.pos p))) by lia.
  split; [lia | exact Hs].
Qed.

Lemma Zdigits2_unique m d :
  1 <= d -> 2 ^ (d - 1) <= m < 2 ^ d -> Zdigits2 m = d.
Proof.
  intros Hd Hm.
  assert (0 < 2 ^ (d - 1)) by (apply Z.pow_pos_nonneg; lia).
  destruct m as [|p|p]; try lia.
  rewrite Zdigits2_log2.
  rewrite (Z.log2_unique (Zpos p) (d - 1)); try lia.
  replace (Z.succ (d - 1)) with d by lia. exact Hm.
Qed.

Lemma shr_1_pos m r s :
  0 < m ->
  shr_1 (Build_shr_record m r s) = Build_shr_record (m / 2) (Z.odd m) (r || s).
Proof.
  intros Hm. rewrite <- Z.div2_div.
  destruct m as [|[p|p|]|]; try lia; reflexivity.
Qed.

Lemma new_location_spec b r :
  0 <= r < b ->
  new_location b r =
    if r =? 0 then loc_Exact else loc_Inexact (2 * r ?= b).
Proof.
  intros Hr. unfold new_location, new_location_even, new_location_odd.
  destruct (Z.even b) eqn:Hb; [reflexivity|].
  destruct (r =? 0); [reflexivity|].
  f_equal.
  assert (Z.odd b = true) as Ho by (rewrite <- Z.negb_even, Hb; reflexivity).
  apply Z.odd_spec in Ho as [k Hk].
  destruct (Z.compare_spec (2 * r + 1) b), (Z.compare_spec (2 * r) b); try reflexivity; lia.
Qed.

Lemma fexp_53 x : fexp 53 1024 x = Z.max (x - 53) (-1074).
Proof. reflexivity. Qed.

Lemma loc_of_shr_record_of_loc m l :
  loc_of_shr_record (shr_record_of_loc m l) = l /\ shr_m (shr_record_of_loc m l) = m.
Proof. destruct l as [|[]]; split; reflexivity. Qed.

Lemma round_finish sx M e :
  2 ^ 52 <= M <= 2 ^ 53 -> -1074 <= e <= 900 ->
  exists m e',
    (let '(mrs, e'') := shr_fexp 53 1024 M e loc_Exact in
     match shr_m mrs with
     | Z0 => S754_zero sx
     | Zpos m => if e'' <=? 1024 - 53 then S754_finite sx m e'' else S754_infinity sx
     | Zneg _ => S754_nan
     end) = S754_finite sx m e'
    /\ e <= e' <= e + 1 /\ Zpos m * 2 ^ (e' - e) = M.
Proof.
  intros HM He.
  destruct (Z.eq_dec M (2 ^ 53)) as [->|Hne].
  - exists (2 ^ 52)%positive, (e + 1).
    unfold shr_fexp. rewrite (Zdigits2_unique (2 ^ 53) 54) by lia.
    rewrite fexp_53.
    replace (Z.max (54 + e - 53) (-1074) - e) with 1 by lia.
    cbn [shr_record_of_loc shr SpecFloat.iter_pos].
    rewrite shr_1_pos by lia. cbn [shr_m].
    change (2 ^ 53 / 2) with (Z.pos (2 ^ 52)).
    replace (e + 1 <=? 1024 - 53) with true by lia.
    replace (e + 1 - e) with 1 by lia.
    split; [reflexivity|split; [lia|reflexivity]].
  - destruct M as [|m|m]; try lia.
    exists m, e.
    unfold shr_fexp. rewrite (Zdigits2_unique (Zpos m) 53) by lia.
    rewrite fexp_53.
    replace (Z.max (53 + e - 53) (-1074) - e) with 0 by lia.
    cbn [shr_record_of_loc shr shr_m].
    replace (e <=? 1024 - 53) with true by lia.
    rewrite Z.sub_diag, Z.pow_0_r.
    split; [reflexivity|split; lia].
Qed.

Lemma round_nearest_even_cases mx b r :
  0 <= r < b ->
  let M := round_nearest_even mx (if r =? 0 then loc_Exact else loc_Inexact (2 * r ?= b)) in
  mx <= M <= mx + 1 /\ 2 * Z.abs (M * b - (b * mx + r)) <= b.
Proof.
  intros Hr. cbv zeta.
  destruct (Z.eqb_spec r 0) as [->|Hr0]; cbn [round_nearest_even]; [lia|].
  destruct (Z.compare_spec (2 * r) b); cbn [round_nearest_even]; try lia.
  destruct (Z.even mx); lia.
Qed.

Lemma binary_round_aux_nearest mx ex b r :
  2 ^ 52 <= mx < 2 ^ 54 -> 0 <= r < b -> -1000 <= ex <= 800 ->
  exists m e M t',
    binary_round_aux 53 1024 false mx ex (new_location b r) = S754_finite false m e
    /\ 0 <= t' <= 1 /\ ex + t' <= e
    /\ Zpos m * 2 ^ (e - ex - t') = M
    /\ 2 ^ 52 <= M
    /\ 2 * Z.abs (M * b * 2 ^ t' - (b * mx + r)) <= b * 2 ^ t'.
Proof.
  intros Hmx Hr Hex.
  rewrite new_location_spec by exact Hr.
  unfold binary_round_aux.
  destruct (Z_lt_le_dec mx (2 ^ 53)) as [Hlt|Hge].
  - (* the quotient already has 53 bits: nothing is shifted out *)
    unfold shr_fexp at 1. rewrite (Zdigits2_unique mx 53) by lia.
    rewrite fexp_53.
    replace (Z.max (53 + ex - 53) (-1074) - ex) with 0 by lia.
    cbn [shr].
    destruct (loc_of_shr_record_of_loc mx
                (if r =? 0 then loc_Exact else loc_Inexact (2 * r ?= b))) as [-> ->].
    pose proof (round_nearest_even_cases mx b r Hr) as [HM Hnear].
    set (M := round_nearest_even mx _) in *.
    destruct (round_finish false M ex) as (m & e' & Heq & He' & Hval); [lia|lia|].
    exists m, e', M, 0. rewrite Heq.
    rewrite Z.sub_0_r, Z.pow_0_r.
    repeat split; first [lia | exact Hval].
  - (* 54 bits: one bit is shifted out into the round bit *)
    unfold shr_fexp at 1. rewrite (Zdigits2_unique mx 54) by lia.
    rewrite fexp_53.
    replace (Z.max (54 + ex - 53) (-1074) - ex) with 1 by lia.
    cbn [shr SpecFloat.iter_pos].
    pose proof (Zmod_odd mx) as Hodd.
    pose proof (Z.div_mod mx 2 ltac:(lia)) as Hdm.
    pose proof (Z.mod_pos_bound mx 2 ltac:(lia)) as Hmb.
    assert (HQ : 2 ^ 52 <= mx / 2 < 2 ^ 53) by lia.
    set (Q := mx / 2) in *.
    assert (HM : exists M,
      round_nearest_even
        (shr_m (shr_1 (shr_record_of_loc mx (if r =? 0 then loc_Exact else loc_Inexact (2 * r ?= b)))))
        (loc_of_shr_record (shr_1 (shr_record_of_loc mx (if r =? 0 then loc_Exact else loc_Inexact (2 * r ?= b))))) = M
      /\ Q <= M <= Q + 1 /\ 2 * Z.abs (M * b * 2 - (b * mx + r)) <= b * 2).
    { destruct (Z.eqb_spec r 0) as [->|Hr0].
      - cbn [shr_record_of_loc]. rewrite shr_1_pos by lia. fold Q.
        destruct (Z.odd mx); cbn [orb shr_m loc_of_shr_record round_nearest_even].
        + destruct (Z.even Q); eexists; (split; [reflexivity|]); rewrite Hdm; lia.
        + eexists; (split; [reflexivity|]); rewrite Hdm; lia.
      - assert (Hrec : exists rb sb,
                  shr_record_of_loc mx (loc_Inexact (2 * r ?= b)) = Build_shr_record mx rb sb
                  /\ (rb || sb)%bool = true).
        { destruct (2 * r ?= b); cbn; eauto. }
        destruct Hrec as (rb & sb & -> & Hsticky).
        rewrite shr_1_pos by lia. fold Q. rewrite Hsticky.
        destruct (Z.odd mx); cbn [shr_m loc_of_shr_record round_nearest_even];
          eexists; (split; [reflexivity|]); rewrite Hdm; lia. }
    destruct HM as (M & -> & HMQ & Hnear).
    destruct (round_finish false M (ex + 1)) as (m & e' & Heq & He' & Hval); [lia|lia|].
    exists m, e', M, 1. rewrite Heq.
    replace (e' - ex - 1) with (e' - (ex + 1)) by lia.
    change (2 ^ 1) with 2.
    repeat split; first [lia | exact Hval].
Qed.

Lemma SFdiv_core_small p q :
  Zpos p < 2 ^ 53 -> Zpos q < 2 ^ 53 ->
  let s := 53 + Zdigits2 (Zpos q) - Zdigits2 (Zpos p) in
  SFdiv_core_binary 53 1024 (Zpos p) 0 (Zpos q) 0 =
    ((Zpos p * 2 ^ s) / Zpos q, - s, new_location (Zpos q) ((Zpos p * 2 ^ s) mod Zpos q)).
Proof.
  intros Hp Hq s.
  destruct (Zdigits2_spec p) as [Hd1 Hb1], (Zdigits2_spec q) as [Hd2 Hb2].
  assert (Zdigits2 (Zpos p) <= 53).
  { destruct (Z_le_gt_dec (Zdigits2 (Zpos p)) 53) as [|Hgt]; [assumption|].
    assert (2 ^ 53 <= 2 ^ (Zdigits2 (Zpos p) - 1)) by (apply Z.pow_le_mono_r; lia). lia. }
  assert (Zdigits2 (Zpos q) <= 53).
  { destruct (Z_le_gt_dec (Zdigits2 (Zpos q)) 53) as [|Hgt]; [assumption|].
    assert (2 ^ 53 <= 2 ^ (Zdigits2 (Zpos q) - 1)) by (apply Z.pow_le_mono_r; lia). lia. }
  unfold SFdiv_core_binary. rewrite fexp_53.
  replace (Z.min (Z.max (Zdigits2 (Z.pos p) + 0 - (Zdigits2 (Z.pos q) + 0) - 53) (-1074)) (0 - 0))
    with (- s) by (subst s; lia).
  replace (0 - 0 - - s) with s by lia.
  assert (Hs : 1 <= s) by (subst s; lia).
  destruct s as [|s'|s'] eqn:Es; try lia.
  rewrite Z.shiftl_mul_pow2 by lia.
  unfold Z.div, Z.modulo.
  destruct (Z.div_eucl (Z.pos p * 2 ^ Z.pos s') (Z.pos q)). reflexivity.
Qed.

Lemma SFdiv_nearest p q :
  Zpos p < 2 ^ 53 -> Zpos q < 2 ^ 53 ->
  exists m e M t,
    SFdiv 53 1024 (S754_finite false p 0) (S754_finite false q 0) = S754_finite false m e
    /\ 0 <= t /\ - t <= e
    /\ Zpos m * 2 ^ (e + t) = M
    /\ 2 ^ 52 <= M
    /\ 2 * Z.abs (M * Zpos q - Zpos p * 2 ^ t) <= Zpos q.
Proof.
  intros Hp Hq.
  unfold SFdiv. rewrite SFdiv_core_small by assumption.
  destruct (Zdigits2_spec p) as [Hd1 Hb1], (Zdigits2_spec q) as [Hd2 Hb2].
  set (d1 := Zdigits2 (Zpos p)) in *. set (d2 := Zdigits2 (Zpos q)) in *.
  assert (Hd1' : d1 <= 53).
  { destruct (Z_le_gt_dec d1 53) as [|Hgt]; [assumption|].
    assert (2 ^ 53 <= 2 ^ (d1 - 1)) by (apply Z.pow_le_mono_r; lia). lia. }
  assert (Hd2' : d2 <= 53).
  { destruct (Z_le_gt_dec d2 53) as [|Hgt]; [assumption|].
    assert (2 ^ 53 <= 2 ^ (d2 - 1)) by (apply Z.pow_le_mono_r; lia). lia. }
  set (s := 53 + d2 - d1).
  assert (Hs : 1 <= s) by (subst s; lia).
  cbn [xorb].
  pose proof (Z.div_mod (Zpos p * 2 ^ s) (Zpos q) ltac:(lia)) as Hdm.
  pose proof (Z.mod_pos_bound (Zpos p * 2 ^ s) (Zpos q) ltac:(lia)) as Hmb.
  set (mx := (Zpos p * 2 ^ s) / Zpos q) in *.
  set (r := (Zpos p * 2 ^ s) mod Zpos q) in *.
  (* the shifted quotient has 53 or 54 bits *)
  assert (Hpow1 : 2 ^ (d1 - 1) * 2 ^ s = 2 ^ 52 * 2 ^ d2).
  { rewrite <- !Z.pow_add_r by lia. f_equal. subst s. lia. }
  assert (Hpow2 : 2 ^ d1 * 2 ^ s = 2 ^ 54 * 2 ^ (d2 - 1)).
  { rewrite <- !Z.pow_add_r by lia. f_equal. subst s. lia. }
  assert (Hs0 : 0 < 2 ^ s) by (apply Z.pow_pos_nonneg; lia).
  assert (Hmx : 2 ^ 52 <= mx < 2 ^ 54).
  { split.
    - apply Z.div_le_lower_bound; [lia|].
      transitivity (2 ^ 52 * 2 ^ d2); [nia|]. rewrite <- Hpow1. nia.
    - apply Z.div_lt_upper_bound; [lia|].
      apply Z.lt_le_trans with (2 ^ d1 * 2 ^ s); [nia|]. rewrite Hpow2. nia. }
  destruct (binary_round_aux_nearest mx (- s) (Zpos q) r)
    as (m & e & M & t' & Heq & Ht' & He & Hval & HM & Hnear); [assumption|assumption|subst s; lia|].
  exists m, e, M, (s - t'). rewrite Heq.
  replace (e + (s - t')) with (e - - s - t') by lia.
  repeat split; try first [lia | exact Hval].
  assert (Ht : t' = 0 \/ t' = 1) by lia.
  destruct Ht as [-> | ->].
  - rewrite Z.pow_0_r, Z.sub_0_r in *. lia.
  - change (2 ^ 1) with 2 in Hnear.
    assert (E : 2 ^ s = 2 * 2 ^ (s - 1)).
    { rewrite <- Z.pow_succ_r by lia. f_equal. lia. }
    rewrite E in Hdm. lia.
Qed.

Lemma ceil_of_nearest n b m e M t k :
  0 < n < 2 ^ 53 -> 0 < b ->
  0 <= t -> - t <= e -> Zpos m * 2 ^ (e + t) = M -> 2 ^ 52 <= M ->
  2 * Z.abs (M * b - n * 2 ^ t) <= b ->
  b * (k - 1) < n <= b * k ->
  ceil_scaled (Zpos m) e = k.
Proof.
  intros Hn Hb Ht He Hval HM Hnear Hk.
  assert (HP : 0 < 2 ^ t) by (apply Z.pow_pos_nonneg; lia).
  set (P := 2 ^ t) in *.
  assert (Hup : M <= k * P).
  { destruct (Z_le_gt_dec M (k * P)) as [|Hgt]; [assumption|exfalso].
    assert (b <= M * b - n * P) by nia. lia. }
  assert (Hlo : (k - 1) * P < M).
  { destruct (Z_lt_le_dec ((k - 1) * P) M) as [|Hle]; [assumption|exfalso].
    assert (1 <= k - 1) by nia.
    assert (P <= n * P - M * b) by nia.
    assert (2 ^ 52 * b <= (k - 1) * P * b) by nia.
    assert ((k - 1) * P * b < 2 ^ 53 * P) by nia.
    assert (2 ^ 53 = 2 * 2 ^ 52) by reflexivity.
    nia. }
  unfold ceil_scaled. destruct (Z.ltb_spec e 0) as [Hneg|Hnn].
  - assert (HT : 0 < 2 ^ (- e)) by (apply Z.pow_pos_nonneg; lia).
    assert (HPT : P = 2 ^ (e + t) * 2 ^ (- e)).
    { subst P. rewrite <- Z.pow_add_r by lia. f_equal. lia. }
    assert (HS : 0 < 2 ^ (e + t)) by (apply Z.pow_pos_nonneg; lia).
    set (T := 2 ^ (- e)) in *. set (S := 2 ^ (e + t)) in *.
    assert (Hm : (k - 1) * T < Zpos m <= k * T) by nia.
    apply Z.opp_inj. rewrite Z.opp_involutive.
    symmetry. apply (Z.div_unique _ _ _ (k * T - Zpos m)); lia.
  - rewrite Z.pow_add_r in Hval by lia. fold P in Hval.
    assert (0 < 2 ^ e) by (apply Z.pow_pos_nonneg; lia).
    set (E := 2 ^ e) in *. nia.
Qed.

End Binary64.

(** ** Reading results *)

Lemma returned_ok {A} (d : A) (r : result A) :
  is_ok r = true -> r = inr (returned d r).
Proof. destruct r; [discriminate|reflexivity]. Qed.

Lemma returned_pair_ok {A B} (d : A * B) (r : result (A * B)) :
  is_ok r = true -> r = inr ((returned d r).1, (returned d r).2).
Proof. destruct r as [e|[a b]]; [discriminate|reflexivity]. Qed.

(** Closes a membership in an explicit list. *)
Ltac entry :=
  first [ apply list_elem_of_here
        | apply list_elem_of_further; entry ].

(** Closes a decidable goal by evaluation. *)
Ltac by_computation := apply (bool_decide_unpack _); vm_compute; exact I.

(** ** The batch planner *)

Lemma ceil_quotient_bounds n b :
  0 < b -> b * ((n + b - 1) / b - 1) < n <= b * ((n + b - 1) / b).
Proof.
  intros Hb.
  pose proof (Z.div_mod (n + b - 1) b ltac:(lia)) as Hdm.
  pose proof (Z.mod_pos_bound (n + b - 1) b Hb) as Hmb.
  lia.
Qed.

Lemma ceil_unique n b c c' :
  0 < b -> b * (c - 1) < n <= b * c -> b * (c' - 1) < n <= b * c' -> c = c'.
Proof. intros Hb H1 H2. nia. Qed.

(** Below [2 ^ 53] the float computation of the batch count is the exact
    ceiling of the quotient. *)
Lemma get_number_of_batches_small n b :
  0 <= n < 2 ^ 53 -> 0 < b < 2 ^ 53 ->
  get_number_of_batches n b = inr ((n + b - 1) / b).
Proof.
  intros Hn Hb.
  unfold get_number_of_batches, int_true_divide.
  destruct (Z.eqb_spec b 0) as [->|_]; [lia|].
  destruct b as [|q|q]; try lia.
  destruct n as [|p|p]; try lia.
  - cbn. f_equal. symmetry. apply Z.div_small. lia.
  - destruct (Binary64.SFdiv_nearest p q) as (m & e & M & t & Heq & Ht & He & Hval & HM & Hnear);
      [lia|lia|].
    cbn [float_operand]. rewrite Heq. cbn [math_ceil]. f_equal.
    apply (Binary64.ceil_of_nearest (Zpos p) (Zpos q) m e M t); try lia; try assumption.
    apply ceil_quotient_bounds. lia.
Qed.

Lemma get_number_of_batches_zero b :
  0 < b -> get_number_of_batches 0 b = inr 0.
Proof.
  intros Hb. destruct b as [|q|q]; try lia. reflexivity.
Qed.




(** C1: the planner takes the ceiling of a float quotient, which is not
    the ceiling of the quotient for all integers.  For [2 ^ 53 + 1]
    instances and batches of one instance the quotient is rounded to
    [2 ^ 53]: the planner returns one batch too few, the last range ends
    before the last instance, and that instance is in no range.  For one
    instance and a batch size of [2 ^ 1100] the quotient is rounded to
    zero: the planner returns no batch, where the ceiling is one. *)
Lemma batch_planner_rounds :
  (get_number_of_batches (2 ^ 53 + 1) 1 = inr (2 ^ 53)
   /\ ~ (1 * (2 ^ 53 - 1) < 2 ^ 53 + 1 <= 1 * 2 ^ 53)
   /\ batch_end 1 (2 ^ 53 - 1) (2 ^ 53 + 1) <> 2 ^ 53 + 1
   /\ (forall i, 0 <= i < 2 ^ 53 -> ~ in_batch 1 (2 ^ 53 + 1) i (2 ^ 53)))
  /\ (0 < 2 ^ 1100
      /\ get_number_of_batches 1 (2 ^ 1100) = inr 0
      /\ ~ (2 ^ 1100 * (0 - 1) < 1 <= 2 ^ 1100 * 0)).
Proof.
  split.
  - split; [vm_compute; reflexivity|].
    split; [lia|]. split; [vm_compute; discriminate|].
    intros i Hi. unfold in_batch, batch_start, batch_end. lia.
  - split; [apply Z.pow_pos_nonneg; lia|].
    split; [vm_compute; reflexivity|lia].
Qed.

(** Scenario 2 of the specification: ten instances in batches of three. *)
Example ranges_10_3 :
  get_number_of_batches 10 3 = inr 4
  /\ (fun i => (batch_start 3 i, batch_end 3 i 10)) <$> seqZ 0 4
     = [(0, 3); (3, 6); (6, 9); (9, 10)].
Proof. split; vm_compute; reflexivity. Qed.

(** ** The partition of the dataset *)

Lemma partition_kwargs_inv n data : forall s0 b0 s b,
  partition_kwargs n data s0 b0 = inr (s, b) ->
  Forall (fun kv => accepted n kv.2) data
  /\ (forall k v, s !! k = Some v ->
        s0 !! k = Some v \/ ((k, v) ∈ data /\ broadcast v = true))
  /\ (forall k v, b !! k = Some v ->
        b0 !! k = Some v
        \/ ((k, v) ∈ data /\ broadcast v = false /\ py_len v = inr n))
  /\ dom s ∪ dom b =@{gset string} dom s0 ∪ dom b0 ∪ list_to_set data.*1.
Proof.
  induction data as [|[key v] data IH]; intros s0 b0 s b Hp; cbn [partition_kwargs] in Hp.
  - injection Hp as <- <-.
    split; [constructor|]. split; [auto|]. split; [auto|]. set_solver.
  - fold (broadcast v) in Hp.
    destruct (broadcast v) eqn:Hv.
    + apply IH in Hp as (Hacc & Hs & Hb & Hdom).
      split; [constructor; [left; exact Hv|exact Hacc]|].
      split; [|split].
      * intros k w Hk. destruct (Hs k w Hk) as [Hin|[Hin Hw]].
        -- destruct (decide (key = k)) as [->|Hne].
           ++ rewrite lookup_insert_eq in Hin. injection Hin as <-.
              right. split; [left|exact Hv].
           ++ rewrite lookup_insert_ne in Hin by exact Hne. left; exact Hin.
        -- right. split; [right; exact Hin|exact Hw].
      * intros k w Hk. destruct (Hb k w Hk) as [Hin|(Hin & Hw & Hl)].
        -- left; exact Hin.
        -- right. split; [right; exact Hin|split; assumption].
      * rewrite Hdom, dom_insert_L. cbn [fmap list_fmap fst list_to_set]. set_solver.
    + destruct (py_len v) as [e|len] eqn:Hlen; [discriminate|].
      destruct (Z.eqb_spec len n) as [->|Hne]; cbn [negb] in Hp; [|discriminate].
      apply IH in Hp as (Hacc & Hs & Hb & Hdom).
      split; [constructor; [right; exact Hlen|exact Hacc]|].
      split; [|split].
      * intros k w Hk. destruct (Hs k w Hk) as [Hin|[Hin Hw]].
        -- left; exact Hin.
        -- right. split; [right; exact Hin|exact Hw].
      * intros k w Hk. destruct (Hb k w Hk) as [Hin|(Hin & Hw & Hl)].
        -- destruct (decide (key = k)) as [->|Hne].
           ++ rewrite lookup_insert_eq in Hin. injection Hin as <-.
              right. split; [left|split; assumption].
           ++ rewrite lookup_insert_ne in Hin by exact Hne. left; exact Hin.
        -- right. split; [right; exact Hin|split; assumption].
      * rewrite Hdom, dom_insert_L. cbn [fmap list_fmap fst list_to_set]. set_solver.
Qed.

Lemma unique_value (data : dict_items) k v1 v2 :
  NoDup data.*1 -> (k, v1) ∈ data -> (k, v2) ∈ data -> v1 = v2.
Proof.
  intros Hnd H1 H2.
  apply (elem_of_list_to_map (M := gmap string)) in H1; [|exact Hnd].
  apply (elem_of_list_to_map (M := gmap string)) in H2; [|exact Hnd].
  congruence.
Qed.

(** With distinct keys every entry is found under its key, in the
    dictionary its kind selects and not in the other. *)
Lemma partition_kwargs_lookup n data s b k v :
  NoDup data.*1 ->
  partition_kwargs n data ∅ ∅ = inr (s, b) ->
  (k, v) ∈ data ->
  if broadcast v
  then s !! k = Some v /\ b !! k = None
  else b !! k = Some v /\ s !! k = None /\ py_len v = inr n.
Proof.
  intros Hnd Hp Hin.
  destruct (partition_kwargs_inv _ _ _ _ _ _ Hp) as (Hacc & Hs & Hb & Hdom).
  assert (Hk : k ∈ dom s ∪ dom b).
  { rewrite Hdom. apply elem_of_union_r, elem_of_list_to_set, list_elem_of_fmap.
    exists (k, v). split; [reflexivity|exact Hin]. }
  assert (Hs' : forall w, s !! k = Some w -> w = v /\ broadcast v = true).
  { intros w Hw. destruct (Hs k w Hw) as [Hemp|[Hin' Hbw]].
    - rewrite lookup_empty in Hemp. discriminate.
    - assert (w = v) as -> by (eapply unique_value; eassumption). auto. }
  assert (Hb' : forall w, b !! k = Some w ->
                          w = v /\ broadcast v = false /\ py_len v = inr n).
  { intros w Hw. destruct (Hb k w Hw) as [Hemp|(Hin' & Hbw & Hl)].
    - rewrite lookup_empty in Hemp. discriminate.
    - assert (w = v) as -> by (eapply unique_value; eassumption). auto. }
  destruct (s !! k) as [w1|] eqn:E1, (b !! k) as [w2|] eqn:E2.
  - destruct (Hs' w1 eq_refl) as [-> H1], (Hb' w2 eq_refl) as (-> & H2 & _). congruence.
  - destruct (Hs' w1 eq_refl) as [-> H1]. rewrite H1. auto.
  - destruct (Hb' w2 eq_refl) as (-> & H2 & Hl). rewrite H2. auto.
  - apply elem_of_union in Hk as [Hk|Hk]; apply elem_of_dom in Hk as [w Hw]; congruence.
Qed.

(** Every batched value is a sequence, so that the slice is defined. *)
Lemma partition_kwargs_batched n data s b k v :
  partition_kwargs n data ∅ ∅ = inr (s, b) ->
  b !! k = Some v -> exists kind xs, v = VSeq kind xs /\ Z.of_nat (length xs) = n.
Proof.
  intros Hp Hk.
  destruct (partition_kwargs_inv _ _ _ _ _ _ Hp) as (_ & _ & Hb & _).
  destruct (Hb k v Hk) as [Hemp|(_ & Hbv & Hl)].
  - rewrite lookup_empty in Hemp. discriminate.
  - destruct v; cbn in Hbv, Hl; try discriminate. eexists _, _. split; [reflexivity|congruence].
Qed.

Lemma partition_kwargs_app_accepted n before rest : forall s0 b0,
  Forall (fun kv => accepted n kv.2) before ->
  exists s1 b1,
    partition_kwargs n (before ++ rest) s0 b0 = partition_kwargs n rest s1 b1.
Proof.
  induction before as [|[k v] before IH]; intros s0 b0 Hacc.
  - eauto.
  - apply Forall_cons in Hacc as [Hv Hacc]. cbn [app partition_kwargs].
    fold (broadcast v). destruct (broadcast v) eqn:Hb.
    + apply IH, Hacc.
    + destruct Hv as [Hv|Hv]; [cbn in Hv; congruence|]. cbn in Hv. rewrite Hv.
      rewrite Z.eqb_refl. apply IH, Hacc.
Qed.

(** ** The first entry that is not accepted *)

Lemma accepted_dec n v : accepted n v \/ ~ accepted n v.
Proof.
  unfold accepted. destruct (broadcast v); [left; left; reflexivity|].
  destruct (py_len v) as [e|len].
  - right. intros [H|H]; discriminate.
  - destruct (Z.eq_dec len n) as [->|Hne]; [left; right; reflexivity|].
    right. intros [H|H]; [discriminate|]. injection H as ->. contradiction.
Qed.

Lemma not_accepted_inv n v :
  ~ accepted n v ->
  isinstance_Sequence_or_ndarray v = true /\ isinstance_str v = false
  /\ broadcast v = false /\ py_len v <> inr n.
Proof.
  unfold accepted, broadcast. intros Hno.
  destruct (isinstance_Sequence_or_ndarray v), (isinstance_str v); cbn in *;
    repeat split; try reflexivity; try (exfalso; apply Hno; left; reflexivity);
    intros Hl; apply Hno; right; exact Hl.
Qed.

(** The loop raises at the first entry that it does not accept. *)
Lemma partition_kwargs_rejection n (first : dict_items) key v
    (rest : dict_items) s0 b0 :
  Forall (fun kv => accepted n kv.2) first ->
  ~ accepted n v ->
  partition_kwargs n (first ++ (key, v) :: rest) s0 b0 = inl (rejection n key v).
Proof.
  intros Hacc Hno.
  destruct (partition_kwargs_app_accepted n first ((key, v) :: rest) s0 b0 Hacc)
    as (s1 & b1 & ->).
  destruct (not_accepted_inv n v Hno) as (_ & _ & Hb & Hl).
  cbn [partition_kwargs]. fold (broadcast v). rewrite Hb. unfold rejection.
  destruct (py_len v) as [e|len]; [reflexivity|].
  destruct (Z.eqb_spec len n) as [->|Hne]; [contradiction|reflexivity].
Qed.

(** Before an entry that is not accepted, there is a first one. *)
Lemma first_not_accepted n (before : dict_items) key v (after : dict_items) :
  ~ accepted n v ->
  exists (first : dict_items) key' v' (rest : dict_items),
    before ++ (key, v) :: after = first ++ (key', v') :: rest
    /\ (length first <= length before)%nat
    /\ Forall (fun kv => accepted n kv.2) first
    /\ ~ accepted n v'
    /\ (Forall (fun kv => accepted n kv.2) before ->
        first = before /\ key' = key /\ v' = v).
Proof.
  intros Hno. induction before as [|[k0 v0] before IH].
  - exists [], key, v, after. repeat split; auto.
  - destruct (accepted_dec n v0) as [H0|H0].
    + destruct IH as (first & key' & v' & rest & Heq & Hlen & Hacc & Hno' & Hall).
      exists ((k0, v0) :: first), key', v', rest. split; [|split; [|split; [|split]]].
      * cbn [app]. rewrite Heq. reflexivity.
      * cbn [length]. lia.
      * constructor; assumption.
      * exact Hno'.
      * intros Hb. apply Forall_cons in Hb as [_ Hb].
        destruct (Hall Hb) as (-> & -> & ->). auto.
    + exists [], k0, v0, (before ++ (key, v) :: after).
      split; [reflexivity|]. split; [cbn [length]; lia|]. split; [constructor|].
      split; [exact H0|]. intros Hb. apply Forall_cons in Hb as [Hb _]. contradiction.
Qed.

(** A dataset with an entry of the wrong length: the loop raises the
    exception of the first entry that it does not accept, which is this
    entry or one before it. *)
Lemma partition_kwargs_first_rejected n (before : dict_items) key v
    (after : dict_items) len s0 b0 :
  isinstance_Sequence_or_ndarray v = true -> isinstance_str v = false ->
  py_len v = inr len -> len <> n ->
  exists (first : dict_items) key' v' (rest : dict_items),
    before ++ (key, v) :: after = first ++ (key', v') :: rest
    /\ (length first <= length before)%nat
    /\ Forall (fun kv => accepted n kv.2) first
    /\ isinstance_Sequence_or_ndarray v' = true /\ isinstance_str v' = false
    /\ py_len v' <> inr n
    /\ partition_kwargs n (before ++ (key, v) :: after) s0 b0
       = inl (rejection n key' v')
    /\ (Forall (fun kv => accepted n kv.2) before ->
        rejection n key' v' = ValueError_incorrect_length key n len).
Proof.
  intros Hseq Hstr Hlen Hne.
  assert (Hno : ~ accepted n v).
  { unfold accepted, broadcast. rewrite Hseq, Hstr, Hlen. cbn.
    intros [H|H]; [discriminate|]. injection H as ->. contradiction. }
  destruct (first_not_accepted n before key v after Hno)
    as (first & key' & v' & rest & Heq & Hle & Hacc & Hno' & Hall).
  destruct (not_accepted_inv n v' Hno') as (Hseq' & Hstr' & _ & Hl').
  exists first, key', v', rest.
  split; [exact Heq|]. split; [exact Hle|]. split; [exact Hacc|].
  split; [exact Hseq'|]. split; [exact Hstr'|]. split; [exact Hl'|]. split.
  - rewrite Heq. apply partition_kwargs_rejection; assumption.
  - intros Hb. destruct (Hall Hb) as (_ & -> & ->).
    unfold rejection. rewrite Hlen. reflexivity.
Qed.

(** C4: when the partition succeeds on a dataset (a dictionary: its keys
    are distinct), every entry that is not sequence-like, or is a string,
    is in [single]; every sequence-like entry that is not a string has the
    length of the instance count and is in [batched]; no key is in both
    and the two key sets together are the keys of the dataset. *)
Theorem partition_splits_the_keys (data : dict_items) (n_instances : Z)
    (single batched : dict) :
  NoDup data.*1 ->
  partition_kwargs n_instances data ∅ ∅ = inr (single, batched) ->
  (forall k v, (k, v) ∈ data ->
     negb (isinstance_Sequence_or_ndarray v) || isinstance_str v = true ->
     single !! k = Some v /\ batched !! k = None)
  /\ (forall k v, (k, v) ∈ data ->
        isinstance_Sequence_or_ndarray v = true -> isinstance_str v = false ->
        py_len v = inr n_instances
        /\ batched !! k = Some v /\ single !! k = None)
  /\ dom single ∩ dom batched =@{gset string} ∅
  /\ dom single ∪ dom batched =@{gset string} list_to_set data.*1.
Proof.
  intros Hnd Hp.
  split; [|split; [|split]].
  - intros k v Hin Hv.
    pose proof (partition_kwargs_lookup _ _ _ _ _ _ Hnd Hp Hin) as H.
    unfold broadcast in H. rewrite Hv in H. exact H.
  - intros k v Hin Hseq Hstr.
    pose proof (partition_kwargs_lookup _ _ _ _ _ _ Hnd Hp Hin) as H.
    unfold broadcast in H. rewrite Hseq, Hstr in H. cbn in H. tauto.
  - apply set_eq. intros k. rewrite elem_of_intersection, !elem_of_dom.
    split; [|intros Hk; apply not_elem_of_empty in Hk as []].
    intros [[v1 H1] [v2 H2]].
    destruct (partition_kwargs_inv _ _ _ _ _ _ Hp) as (_ & Hs & Hb & _).
    destruct (Hs k v1 H1) as [Hemp|[Hin1 Hb1]];
      [rewrite lookup_empty in Hemp; discriminate|].
    destruct (Hb k v2 H2) as [Hemp|(Hin2 & Hb2 & _)];
      [rewrite lookup_empty in Hemp; discriminate|].
    assert (v1 = v2) by (eapply unique_value; eassumption). congruence.
  - destruct (partition_kwargs_inv _ _ _ _ _ _ Hp) as (_ & _ & _ & Hdom).
    rewrite Hdom. rewrite !dom_empty_L. set_solver.
Qed.

Lemma partition_splits_the_keys_witness :
  let single := (returned (∅, ∅) (partition_kwargs 10 mixed_dataset ∅ ∅)).1 in
  let batched := (returned (∅, ∅) (partition_kwargs 10 mixed_dataset ∅ ∅)).2 in
  (single !! "label"%string = Some (VStr "foo") /\ batched !! "label"%string = None)
  /\ (single !! "weight"%string = Some (VInt 5) /\ batched !! "weight"%string = None)
  /\ (batched !! "x"%string = Some ten /\ single !! "x"%string = None)
  /\ (batched !! "aux"%string = Some ten /\ single !! "aux"%string = None)
  /\ dom single ∩ dom batched =@{gset string} ∅
  /\ dom single ∪ dom batched =@{gset string} list_to_set mixed_dataset.*1.
Proof.
  intros single batched.
  assert (Hp : partition_kwargs 10 mixed_dataset ∅ ∅ = inr (single, batched))
    by (apply returned_pair_ok; vm_compute; reflexivity).
  assert (Hnd : NoDup mixed_dataset.*1) by by_computation.
  destruct (partition_splits_the_keys mixed_dataset 10 single batched Hnd Hp)
    as (Hs & Hb & Hdisj & Hdom).
  split; [apply Hs; [unfold mixed_dataset; entry|reflexivity]|].
  split; [apply Hs; [unfold mixed_dataset; entry|reflexivity]|].
  split; [apply (Hb "x"%string ten); [unfold mixed_dataset; entry|reflexivity..]|].
  split; [apply (Hb "aux"%string ten); [unfold mixed_dataset; entry|reflexivity..]|].
  split; assumption.
Defined.

(** C8, as amended: a sequence-like entry that is not a string and whose
    length differs from the instance count is never classified as single:
    the partition raises and classifies nothing.  The exception is that
    of the first entry in key order that the loop does not accept, which
    is this entry or one before it; it is the validation error with the
    key of this entry, the instance count and its length when all entries
    before it are accepted.  Whenever the partition succeeds, on any
    dataset, every value in [single] is one that is not sequence-like or
    is a string, and every sequence-like entry that is not a string has
    exactly the length of the instance count, as has every value in
    [batched]: the strict length check applies to every recognized
    sequence. *)
Theorem wrong_length_is_never_single (n_instances : Z)
    (before after : dict_items) (key : string) (v : value) (len : Z) :
  isinstance_Sequence_or_ndarray v = true -> isinstance_str v = false ->
  py_len v = inr len -> len <> n_instances ->
  let data := before ++ (key, v) :: after in
  (exists (first : dict_items) key' v' (rest : dict_items),
     data = first ++ (key', v') :: rest
     /\ (length first <= length before)%nat
     /\ Forall (fun kv => accepted n_instances kv.2) first
     /\ isinstance_Sequence_or_ndarray v' = true /\ isinstance_str v' = false
     /\ py_len v' <> inr n_instances
     /\ partition_kwargs n_instances data ∅ ∅ = inl (rejection n_instances key' v')
     /\ (Forall (fun kv => accepted n_instances kv.2) before ->
         partition_kwargs n_instances data ∅ ∅
         = inl (ValueError_incorrect_length key n_instances len)))
  /\ (forall single batched,
        partition_kwargs n_instances data ∅ ∅ <> inr (single, batched))
  /\ (forall (data' : dict_items) single batched,
        partition_kwargs n_instances data' ∅ ∅ = inr (single, batched) ->
        (forall k w, single !! k = Some w ->
           negb (isinstance_Sequence_or_ndarray w) || isinstance_str w = true)
        /\ (forall k w, (k, w) ∈ data' ->
              isinstance_Sequence_or_ndarray w = true -> isinstance_str w = false ->
              py_len w = inr n_instances)
        /\ (forall k w, batched !! k = Some w -> py_len w = inr n_instances)).
Proof.
  intros Hseq Hstr Hlen Hne data.
  destruct (partition_kwargs_first_rejected n_instances before key v after len ∅ ∅
              Hseq Hstr Hlen Hne)
    as (first & key' & v' & rest & Heq & Hle & Hacc & Hseq' & Hstr' & Hl' & Hp & Hall).
  fold data in Heq, Hp.
  split; [|split].
  - exists first, key', v', rest.
    split; [exact Heq|]. split; [exact Hle|]. split; [exact Hacc|].
    split; [exact Hseq'|]. split; [exact Hstr'|]. split; [exact Hl'|].
    split; [exact Hp|]. intros Hb. rewrite Hp, (Hall Hb). reflexivity.
  - intros single batched Hok. rewrite Hp in Hok. discriminate.
  - intros data' single batched Hok.
    destruct (partition_kwargs_inv _ _ _ _ _ _ Hok) as (Hacc' & Hs & Hb & _).
    split; [|split].
    + intros k w Hk. destruct (Hs k w Hk) as [Hemp|[_ Hw]]; [|exact Hw].
      rewrite lookup_empty in Hemp. discriminate.
    + intros k w Hin Hseqw Hstrw.
      rewrite Forall_forall in Hacc'.
      destruct (Hacc' (k, w) Hin) as [Hw|Hw]; [|exact Hw].
      unfold broadcast in Hw. cbn in Hw. rewrite Hseqw, Hstrw in Hw. discriminate.
    + intros k w Hk. destruct (Hb k w Hk) as [Hemp|(_ & _ & Hl)]; [|exact Hl].
      rewrite lookup_empty in Hemp. discriminate.
Qed.

Lemma wrong_length_is_never_single_witness :
  let data := mixed_dataset ++ ("other"%string, int_array [1; 2; 3]) :: [] in
  (exists (first : dict_items) key' v' (rest : dict_items),
     data = first ++ (key', v') :: rest
     /\ (length first <= length mixed_dataset)%nat
     /\ Forall (fun kv => accepted 10 kv.2) first
     /\ isinstance_Sequence_or_ndarray v' = true /\ isinstance_str v' = false
     /\ py_len v' <> inr 10
     /\ partition_kwargs 10 data ∅ ∅ = inl (rejection 10 key' v')
     /\ (Forall (fun kv => accepted 10 kv.2) mixed_dataset ->
         partition_kwargs 10 data ∅ ∅
         = inl (ValueError_incorrect_length "other" 10 3)))
  /\ (forall single batched, partition_kwargs 10 data ∅ ∅ <> inr (single, batched))
  /\ (forall (data' : dict_items) single batched,
        partition_kwargs 10 data' ∅ ∅ = inr (single, batched) ->
        (forall k w, single !! k = Some w ->
           negb (isinstance_Sequence_or_ndarray w) || isinstance_str w = true)
        /\ (forall k w, (k, w) ∈ data' ->
              isinstance_Sequence_or_ndarray w = true -> isinstance_str w = false ->
              py_len w = inr 10)
        /\ (forall k w, batched !! k = Some w -> py_len w = inr 10)).
Proof.
  apply (wrong_length_is_never_single 10 mixed_dataset [] "other"
           (int_array [1; 2; 3]) 3); first [reflexivity | lia].
Defined.

(** C8, as stated, fails: in scenario 4 the entry [other] is an array of
    length three for ten instances; the partition raises and classifies
    nothing as single. *)
Lemma wrong_length_is_rejected :
  ("other"%string, int_array [1; 2; 3]) ∈ mismatched_dataset
  /\ isinstance_Sequence_or_ndarray (int_array [1; 2; 3]) = true
  /\ isinstance_str (int_array [1; 2; 3]) = false
  /\ py_len (int_array [1; 2; 3]) = inr 3
  /\ partition_kwargs 10 mismatched_dataset ∅ ∅
     = inl (ValueError_incorrect_length "other" 10 3)
  /\ ~ (exists single batched,
          partition_kwargs 10 mismatched_dataset ∅ ∅ = inr (single, batched)
          /\ single !! "other"%string = Some (int_array [1; 2; 3])).
Proof.
  split; [unfold mismatched_dataset, mixed_dataset; cbn [app]; entry|].
  split; [reflexivity|]. split; [reflexivity|]. split; [reflexivity|].
  assert (Hp : partition_kwargs 10 mismatched_dataset ∅ ∅
               = inl (ValueError_incorrect_length "other" 10 3))
    by (vm_compute; reflexivity).
  split; [exact Hp|].
  intros (single & batched & Hs & _). rewrite Hp in Hs. discriminate.
Qed.

(** ** The batch generator *)

Lemma generate_batches_unfold data batch_size flag x n :
  (list_to_map data : dict) !! "x_batch"%string = Some x ->
  py_len x = inr n ->
  generate_batches data batch_size flag =
    match partition_kwargs n data ∅ ∅ with
    | inl e => inl e
    | inr (single, batched) =>
        match get_number_of_batches n batch_size with
        | inl e => inl e
        | inr n_batches =>
            inr (make_batch batch_size n single batched <$> seqZ 0 n_batches)
        end
    end.
Proof. intros Hx Hn. unfold generate_batches. rewrite Hx, Hn. reflexivity. Qed.

(** An exception of the generator leaves the call after [last_results]
    has been replaced by a new empty list. *)
Lemma call_generator_raises m self h args batch_size kw u data e :
  check_kwargs m kw = inr u ->
  general_preprocess m args = inr data ->
  generate_batches data batch_size (display_progressbar self) = inl e ->
  BatchedMetric_call m self h args batch_size kw
  = {| out_self := set_last_results self (fresh (dom h));
       out_store := <[fresh (dom h) := []]> h;
       out_calls := [];
       out_result := inl e |}.
Proof.
  intros Hc Hp Hg. unfold BatchedMetric_call. rewrite Hc, Hp, Hg. reflexivity.
Qed.

(** C3, as amended: a dataset entry that is sequence-like, not a string,
    and whose length differs from the instance count makes the partition
    fail; the exception is not caught: it is the exception of the
    generator and of the call, which invokes no evaluator and adds nothing
    to the history.  It is the exception of the first entry in key order
    that the loop does not accept, which is this entry or one before it:
    the validation error with the key of that entry, the instance count
    and its length, or the [TypeError] of [len] when that entry is
    sequence-like without a length (a zero-dimensional array).  When all
    entries before the given entry are accepted, it is the validation
    error with the key and the length of the given entry. *)
Theorem length_mismatch_raises (m : methods) (self : BatchedMetric) (h : store)
    (args : call_args) (batch_size : Z) (kw : dict_items) (u : unit)
    (x : value) (n_instances : Z)
    (before after : dict_items) (key : string) (v : value) (len : Z) :
  check_kwargs m kw = inr u ->
  general_preprocess m args = inr (before ++ (key, v) :: after) ->
  (list_to_map (before ++ (key, v) :: after) : dict) !! "x_batch"%string = Some x ->
  py_len x = inr n_instances ->
  isinstance_Sequence_or_ndarray v = true -> isinstance_str v = false ->
  py_len v = inr len -> len <> n_instances ->
  let data := before ++ (key, v) :: after in
  let o := BatchedMetric_call m self h args batch_size kw in
  exists (first : dict_items) key' v' (rest : dict_items),
    data = first ++ (key', v') :: rest
    /\ (length first <= length before)%nat
    /\ Forall (fun kv => accepted n_instances kv.2) first
    /\ isinstance_Sequence_or_ndarray v' = true /\ isinstance_str v' = false
    /\ py_len v' <> inr n_instances
    /\ partition_kwargs n_instances data ∅ ∅ = inl (rejection n_instances key' v')
    /\ generate_batches data batch_size (display_progressbar self)
       = inl (rejection n_instances key' v')
    /\ out_result o = inl (rejection n_instances key' v')
    /\ out_calls o = []
    /\ all_results (out_self o) = all_results self
    /\ (Forall (fun kv => accepted n_instances kv.2) before ->
        out_result o = inl (ValueError_incorrect_length key n_instances len)).
Proof.
  intros Hc Hp Hx Hn Hseq Hstr Hlen Hne data o.
  destruct (partition_kwargs_first_rejected n_instances before key v after len ∅ ∅
              Hseq Hstr Hlen Hne)
    as (first & key' & v' & rest & Heq & Hle & Hacc & Hseq' & Hstr' & Hl' & Hpart & Hall).
  fold data in Heq, Hpart, Hp, Hx.
  assert (Hg : generate_batches data batch_size (display_progressbar self)
               = inl (rejection n_instances key' v')).
  { rewrite (generate_batches_unfold _ _ _ x n_instances) by assumption.
    rewrite Hpart. reflexivity. }
  assert (Ho : o = {| out_self := set_last_results self (fresh (dom h));
                      out_store := <[fresh (dom h) := []]> h;
                      out_calls := [];
                      out_result := inl (rejection n_instances key' v') |})
    by (apply (call_generator_raises m self h args batch_size kw u data); assumption).
  exists first, key', v', rest.
  split; [exact Heq|]. split; [exact Hle|]. split; [exact Hacc|].
  split; [exact Hseq'|]. split; [exact Hstr'|]. split; [exact Hl'|].
  split; [exact Hpart|]. split; [exact Hg|].
  rewrite Ho. cbn [out_result out_calls out_self all_results set_last_results].
  split; [reflexivity|]. split; [reflexivity|]. split; [reflexivity|].
  intros Hb. rewrite (Hall Hb). reflexivity.
Qed.

Lemma length_mismatch_raises_witness :
  let before := [("model"%string, VObject 1); ("x_batch"%string, ten)] in
  let after := [("a_batch"%string, ten); ("s_batch"%string, VNone)] in
  let data := before ++ ("y_batch"%string, int_array [1; 2; 3]) :: after in
  let self := (new_metric ones_metric []).1 in
  let o := BatchedMetric_call ones_metric self (new_metric ones_metric []).2
             (call_with ten (int_array [1; 2; 3]) ten) 4 [] in
  exists (first : dict_items) key' v' (rest : dict_items),
    data = first ++ (key', v') :: rest
    /\ (length first <= length before)%nat
    /\ Forall (fun kv => accepted 10 kv.2) first
    /\ isinstance_Sequence_or_ndarray v' = true /\ isinstance_str v' = false
    /\ py_len v' <> inr 10
    /\ partition_kwargs 10 data ∅ ∅ = inl (rejection 10 key' v')
    /\ generate_batches data 4 (display_progressbar self) = inl (rejection 10 key' v')
    /\ out_result o = inl (rejection 10 key' v')
    /\ out_calls o = []
    /\ all_results (out_self o) = all_results self
    /\ (Forall (fun kv => accepted 10 kv.2) before ->
        out_result o = inl (ValueError_incorrect_length "y_batch" 10 3)).
Proof.
  apply (length_mismatch_raises ones_metric (new_metric ones_metric []).1
           (new_metric ones_metric []).2 (call_with ten (int_array [1; 2; 3]) ten)
           4 [] tt ten 10
           [("model"%string, VObject 1); ("x_batch"%string, ten)]
           [("a_batch"%string, ten); ("s_batch"%string, VNone)]
           "y_batch"%string (int_array [1; 2; 3]) 3);
    first [reflexivity | lia].
Defined.

(** C3, as stated, fails: the attribution is an array of three rows for
    ten instances, but the labels before it are a zero-dimensional array,
    on which [len] raises first.  The call raises that [TypeError], not a
    validation error, and no exception names the key [a_batch] or the two
    lengths. *)
Lemma unsized_entry_raises_first :
  let data := returned [] (flat_preprocess unsized_then_short) in
  let o := BatchedMetric_call ones_metric (new_metric ones_metric []).1
             (new_metric ones_metric []).2 unsized_then_short 4 [] in
  ("a_batch"%string, int_array [1; 2; 3]) ∈ data
  /\ isinstance_Sequence_or_ndarray (int_array [1; 2; 3]) = true
  /\ isinstance_str (int_array [1; 2; 3]) = false
  /\ py_len (int_array [1; 2; 3]) = inr 3
  /\ instance_count data = inr 10
  /\ partition_kwargs 10 data ∅ ∅ = inl TypeError_no_len
  /\ out_result o = inl TypeError_no_len
  /\ out_result o <> inl (ValueError_incorrect_length "a_batch" 10 3)
  /\ ~ (exists key' expected actual,
          out_result o = inl (ValueError_incorrect_length key' expected actual)).
Proof.
  cbv zeta.
  assert (Hr : out_result (BatchedMetric_call ones_metric (new_metric ones_metric []).1
                             (new_metric ones_metric []).2 unsized_then_short 4 [])
               = inl TypeError_no_len) by (vm_compute; reflexivity).
  split; [cbn; entry|].
  split; [reflexivity|]. split; [reflexivity|]. split; [reflexivity|].
  split; [vm_compute; reflexivity|]. split; [vm_compute; reflexivity|].
  split; [exact Hr|]. rewrite Hr. split; [discriminate|].
  intros (key' & expected & actual & H). discriminate.
Qed.

(** Scenario 4 of the specification. *)
Example scenario_4 :
  partition_kwargs 10 mismatched_dataset ∅ ∅
  = inl (ValueError_incorrect_length "other" 10 3).
Proof. vm_compute. reflexivity. Qed.

(** C9: without instances the planner returns no batch for any positive
    batch size, and the generator yields nothing. *)
Theorem no_instances_no_batches (batch_size : Z) (data : dict_items)
    (flag : bool) (x : value) :
  0 < batch_size ->
  (list_to_map data : dict) !! "x_batch"%string = Some x ->
  py_len x = inr 0 ->
  get_number_of_batches 0 batch_size = inr 0
  /\ (forall single batched,
        partition_kwargs 0 data ∅ ∅ = inr (single, batched) ->
        generate_batches data batch_size flag = inr [])
  /\ (forall batches,
        generate_batches data batch_size flag = inr batches -> batches = []).
Proof.
  intros Hb Hx Hn.
  pose proof (get_number_of_batches_zero batch_size Hb) as Hz.
  split; [exact Hz|].
  rewrite (generate_batches_unfold _ _ _ x 0) by assumption. rewrite Hz.
  split.
  - intros single batched ->. reflexivity.
  - intros batches. destruct (partition_kwargs 0 data ∅ ∅) as [e|[s b]]; [discriminate|].
    intros [= <-]. reflexivity.
Qed.

Lemma no_instances_no_batches_witness :
  get_number_of_batches 0 64 = inr 0
  /\ (forall single batched,
        partition_kwargs 0 [("x_batch"%string, int_array []); ("s_batch"%string, VNone)] ∅ ∅
        = inr (single, batched) ->
        generate_batches [("x_batch"%string, int_array []); ("s_batch"%string, VNone)] 64 false
        = inr [])
  /\ (forall batches,
        generate_batches [("x_batch"%string, int_array []); ("s_batch"%string, VNone)] 64 false
        = inr batches -> batches = []).
Proof.
  apply (no_instances_no_batches 64 _ false (int_array [])); first [reflexivity | lia].
Defined.

Lemma list_slice_inside {A} (xs : list A) (lo hi : Z) :
  0 <= lo <= hi -> hi <= Z.of_nat (length xs) ->
  list_slice xs lo hi = take (Z.to_nat hi - Z.to_nat lo) (drop (Z.to_nat lo) xs).
Proof.
  intros Hlo Hhi. unfold list_slice, slice_index.
  destruct (Z.ltb_spec lo 0); [lia|]. destruct (Z.ltb_spec hi 0); [lia|].
  rewrite !Z.min_l by lia. f_equal. lia.
Qed.

(** The slices of the first [j] batches, one after the other, are the
    first instances of the sequence. *)
Lemma slices_prefix {A} (xs : list A) (b : Z) (j : nat) :
  0 < b -> b * (Z.of_nat j - 1) < Z.of_nat (length xs) ->
  seqZ 0 (Z.of_nat j) ≫=
    (fun i => list_slice xs (batch_start b i) (batch_end b i (Z.of_nat (length xs))))
  = take (Z.to_nat (Z.min (b * Z.of_nat j) (Z.of_nat (length xs)))) xs.
Proof.
  intros Hb. induction j as [|j IH]; intros Hj.
  - change (Z.of_nat 0) with 0. rewrite seqZ_nil by lia. cbn.
    replace (Z.to_nat (Z.min (b * 0) (Z.of_nat (length xs)))) with 0%nat by lia.
    reflexivity.
  - rewrite seqZ_S, bind_app, IH by lia. cbn [mbind list_bind]. rewrite app_nil_r.
    unfold batch_start, batch_end.
    rewrite list_slice_inside by nia.
    replace (Z.to_nat (Z.min (b * Z.of_nat j) (Z.of_nat (length xs))))
      with (Z.to_nat (b * (0 + Z.of_nat j))) by nia.
    rewrite take_take_drop. f_equal. nia.
Qed.

Lemma x_slices_fmap (f : Z -> dict) (g : Z -> list value) (kind : seq_kind) (l : list Z) :
  (forall i, i ∈ l -> f i !! "x_batch"%string = Some (VSeq kind (g i))) ->
  x_slices (f <$> l) = l ≫= g.
Proof.
  intros Hf. unfold x_slices. induction l as [|i l IH]; [reflexivity|].
  cbn [fmap list_fmap mbind list_bind]. rewrite Hf by left.
  f_equal. apply IH. intros i' Hi'. apply Hf. right. exact Hi'.
Qed.

Lemma make_batch_lookup_batched b n single batched i k v :
  single !! k = None -> batched !! k = Some v ->
  make_batch b n single batched i !! k
  = Some (py_getslice v (batch_start b i) (batch_end b i n)).
Proof.
  intros Hs Hb. unfold make_batch.
  rewrite lookup_union_r by exact Hs. rewrite lookup_fmap, Hb. reflexivity.
Qed.

Lemma make_batch_lookup_single b n single batched i k v :
  single !! k = Some v -> make_batch b n single batched i !! k = Some v.
Proof.
  intros Hs. unfold make_batch. apply lookup_union_Some_l. exact Hs.
Qed.

(** Whatever count the planner returns, as long as it is not beyond the
    ceiling, the slices of the yielded batches are a prefix of the
    instances. *)
Lemma generate_batches_prefix (data : dict_items) (batch_size : Z) (flag : bool)
    (kind : seq_kind) (xs : list value) (batches : list dict) (c : Z) :
  NoDup data.*1 ->
  (list_to_map data : dict) !! "x_batch"%string = Some (VSeq kind xs) ->
  0 < batch_size ->
  get_number_of_batches (Z.of_nat (length xs)) batch_size = inr c ->
  0 <= c -> batch_size * (c - 1) < Z.of_nat (length xs) ->
  generate_batches data batch_size flag = inr batches ->
  x_slices batches
  = take (Z.to_nat (Z.min (batch_size * c) (Z.of_nat (length xs)))) xs
  /\ Forall (fun batch => exists ys, batch !! "x_batch"%string = Some (VSeq kind ys)) batches.
Proof.
  intros Hnd Hx Hb Hc Hc0 Hlt Hg.
  rewrite (generate_batches_unfold _ _ _ (VSeq kind xs) (Z.of_nat (length xs))) in Hg
    by (assumption || reflexivity).
  destruct (partition_kwargs (Z.of_nat (length xs)) data ∅ ∅)
    as [e|[single batched]] eqn:Hp; [discriminate|].
  rewrite Hc in Hg. injection Hg as <-.
  assert (Hin : ("x_batch"%string, VSeq kind xs) ∈ data)
    by (apply (elem_of_list_to_map_2 (M := gmap string)); exact Hx).
  pose proof (partition_kwargs_lookup _ _ _ _ _ _ Hnd Hp Hin) as Hl.
  cbn [broadcast isinstance_Sequence_or_ndarray isinstance_str negb orb] in Hl.
  destruct Hl as (Hbx & Hsx & _).
  assert (Hbatch : forall i,
    make_batch batch_size (Z.of_nat (length xs)) single batched i !! "x_batch"%string
    = Some (VSeq kind (list_slice xs (batch_start batch_size i)
                         (batch_end batch_size i (Z.of_nat (length xs)))))).
  { intros i. rewrite (make_batch_lookup_batched _ _ _ _ _ _ (VSeq kind xs)) by assumption.
    reflexivity. }
  split.
  - rewrite (x_slices_fmap _
               (fun i => list_slice xs (batch_start batch_size i)
                           (batch_end batch_size i (Z.of_nat (length xs)))) kind)
      by (intros i _; apply Hbatch).
    replace c with (Z.of_nat (Z.to_nat c)) at 1 by lia.
    rewrite slices_prefix by lia. do 2 f_equal. lia.
  - apply Forall_fmap, Forall_forall. intros i _. cbn. rewrite Hbatch. eauto.
Qed.


(** With [2 ^ 53 + 1] instances and batches of one instance the planner
    returns [2 ^ 53] batches, and the last instance is in no slice. *)
Lemma generator_drops_last_instance (xs : list value) :
  Z.of_nat (length xs) = 2 ^ 53 + 1 ->
  exists batches,
    generate_batches [("x_batch"%string, VSeq KArray xs)] 1 false = inr batches
    /\ x_slices batches <> xs.
Proof.
  intros Hlen.
  assert (Hc : get_number_of_batches (Z.of_nat (length xs)) 1 = inr (2 ^ 53)).
  { rewrite Hlen. vm_compute. reflexivity. }
  assert (Hx : (list_to_map [("x_batch"%string, VSeq KArray xs)] : dict) !! "x_batch"%string
               = Some (VSeq KArray xs)).
  { cbn [list_to_map foldr]. apply lookup_insert_eq. }
  assert (Hnd : NoDup [("x_batch"%string, VSeq KArray xs)].*1).
  { cbn [fmap list_fmap fst]. apply NoDup_singleton. }
  destruct (generate_batches [("x_batch"%string, VSeq KArray xs)] 1 false)
    as [e|batches] eqn:Hg.
  { exfalso.
    rewrite (generate_batches_unfold _ _ _ (VSeq KArray xs) (Z.of_nat (length xs)))
      in Hg by (exact Hx || reflexivity).
    cbn [partition_kwargs isinstance_Sequence_or_ndarray isinstance_str py_len negb orb]
      in Hg.
    rewrite Z.eqb_refl in Hg. cbn [negb] in Hg. rewrite Hc in Hg. discriminate. }
  exists batches. split; [reflexivity|].
  destruct (generate_batches_prefix _ 1 false KArray xs batches (2 ^ 53) Hnd Hx
              ltac:(lia) Hc ltac:(lia) ltac:(lia) Hg) as [Hs _].
  rewrite Hs. intros Heq. apply (f_equal length) in Heq.
  rewrite length_take in Heq. lia.
Qed.


(** C5: the generator takes its batch count from the planner, and loses
    instances where the float quotient is rounded.  A batch size of
    [2 ^ 1100] makes the quotient [1 / batch_size] round to zero: the
    generator yields no batch and the single instance of the dataset
    occurs in no slice.  For [2 ^ 53 + 1] instances in batches of one the
    slices are only the first [2 ^ 53] instances. *)
Lemma generator_loses_instances :
  (0 < 2 ^ 1100
   /\ partition_kwargs 1 [("x_batch"%string, int_array [7])] ∅ ∅
      = inr (∅, {[ "x_batch"%string := int_array [7] ]})
   /\ generate_batches [("x_batch"%string, int_array [7])] (2 ^ 1100) false = inr []
   /\ x_slices [] <> [VInt 7])
  /\ (exists batches,
        generate_batches [("x_batch"%string, VSeq KArray empty_rows)] 1 false
        = inr batches
        /\ x_slices batches <> empty_rows).
Proof.
  split.
  - split; [apply Z.pow_pos_nonneg; lia|].
    split; [vm_compute; reflexivity|].
    split; [vm_compute; reflexivity|discriminate].
  - apply generator_drops_last_instance.
    unfold empty_rows. rewrite length_replicate. apply Z2Nat.id. lia.
Qed.

(** ** [__init__] *)

Lemma moved_test names key :
  bool_decide (key ∈ names) || bool_decide (re_sub_batch key ∈ names) = true
  <-> moved names key.
Proof.
  unfold moved. rewrite orb_true_iff, !bool_decide_eq_true. reflexivity.
Qed.

Lemma resolve_evaluate_kwargs_lookup names kwargs_items : forall c0 k0 c k,
  NoDup kwargs_items.*1 ->
  resolve_evaluate_kwargs names kwargs_items c0 k0 = (c, k) ->
  forall key,
    (forall value, (key, value) ∈ kwargs_items -> moved names key ->
       c !! key = Some value /\ k !! key = None)
    /\ (key ∉ kwargs_items.*1 \/ ~ moved names key ->
        c !! key = c0 !! key /\ k !! key = k0 !! key).
Proof.
  induction kwargs_items as [|[key0 value0] rest IH]; intros c0 k0 c k Hnd Hr key.
  - cbn in Hr. injection Hr as <- <-. split; [|auto].
    intros value Hin. apply elem_of_nil in Hin as [].
  - cbn [fmap list_fmap fst] in Hnd. apply NoDup_cons in Hnd as [Hfresh Hnd].
    cbn [resolve_evaluate_kwargs] in Hr.
    destruct (bool_decide (key0 ∈ names) || bool_decide (re_sub_batch key0 ∈ names))
      eqn:Htest.
    + apply moved_test in Htest.
      destruct (IH _ _ _ _ Hnd Hr key) as [IH1 IH2].
      split.
      * intros value Hin Hm. apply elem_of_cons in Hin as [Heq|Hin].
        -- injection Heq as -> ->.
           destruct IH2 as [-> ->]; [left; exact Hfresh|].
           rewrite lookup_insert_eq, lookup_delete_eq. auto.
        -- apply IH1; assumption.
      * intros Hno.
        assert (key0 <> key).
        { intros ->. destruct Hno as [Hno|Hno]; [|contradiction].
          apply Hno. cbn. left. }
        destruct IH2 as [-> ->].
        { destruct Hno as [Hno|Hno]; [left|right; exact Hno].
          intros Hin. apply Hno. cbn. right. exact Hin. }
        rewrite lookup_insert_ne, lookup_delete_ne by assumption. auto.
    + assert (Hnm : ~ moved names key0).
      { intros Hm. apply moved_test in Hm. congruence. }
      destruct (IH _ _ _ _ Hnd Hr key) as [IH1 IH2].
      split.
      * intros value Hin Hm. apply elem_of_cons in Hin as [Heq|Hin].
        -- injection Heq as -> ->. contradiction.
        -- apply IH1; assumption.
      * intros Hno. apply IH2.
        destruct Hno as [Hno|Hno]; [left|right; exact Hno].
        intros Hin. apply Hno. cbn. right. exact Hin.
Qed.

Lemma split_init_kwargs_unfold names kwargs_items :
  split_init_kwargs names kwargs_items
  = resolve_evaluate_kwargs names kwargs_items ∅ (list_to_map kwargs_items).
Proof. destruct kwargs_items; reflexivity. Qed.

Lemma BatchedMetric_init_fields m progress kwargs_items h :
  custom_evaluate_kwargs (BatchedMetric_init m progress kwargs_items h).1
  = (split_init_kwargs (evaluate_batch_args m) kwargs_items).1
  /\ general_kwargs (BatchedMetric_init m progress kwargs_items h).1
     = (split_init_kwargs (evaluate_batch_args m) kwargs_items).2.
Proof.
  unfold BatchedMetric_init.
  destruct (split_init_kwargs (evaluate_batch_args m) kwargs_items) as [c k].
  split; reflexivity.
Qed.

(** ** [__call__] *)

Lemma evaluate_batches_calls m custom l batches : forall h,
  Forall (fun kw => forall k v, custom !! k = Some v -> kw !! k = Some v)
    (evaluate_batches m custom l batches h).1.2.
Proof.
  induction batches as [|batch rest IH]; intros h; cbn [evaluate_batches].
  - constructor.
  - destruct (bool_decide (batch ##ₘ custom)) eqn:Hd; [|constructor].
    apply bool_decide_eq_true in Hd.
    assert (Hsub : forall k v, custom !! k = Some v -> (batch ∪ custom) !! k = Some v).
    { intros k v Hk. rewrite lookup_union_r; [exact Hk|].
      eapply map_disjoint_Some_r; eassumption. }
    destruct (evaluate_batch m (batch ∪ custom)) as [e|res];
      [constructor; [exact Hsub|constructor]|].
    destruct (py_iter res) as [e|scores];
      [constructor; [exact Hsub|constructor]|].
    specialize (IH (alter (fun old => old ++ scores) l h)).
    destruct (evaluate_batches m custom l rest (alter (fun old => old ++ scores) l h))
      as [[h' calls] r].
    constructor; [exact Hsub|exact IH].
Qed.

Lemma call_keeps_custom m self h args batch_size kw :
  custom_evaluate_kwargs (out_self (BatchedMetric_call m self h args batch_size kw))
  = custom_evaluate_kwargs self.
Proof.
  unfold BatchedMetric_call.
  destruct (check_kwargs m kw) as [e0|u0]; [reflexivity|].
  destruct (general_preprocess m args) as [e|data]; [reflexivity|].
  destruct (generate_batches data batch_size (display_progressbar self)) as [e|batches];
    [reflexivity|].
  destruct (evaluate_batches _ _ _ _ _) as [[h2 calls] [e1|u1]]; [reflexivity|].
  destruct (custom_postprocess m data); reflexivity.
Qed.

Lemma call_passes_custom m self h args batch_size kw :
  Forall (fun d => forall k v, custom_evaluate_kwargs self !! k = Some v -> d !! k = Some v)
    (out_calls (BatchedMetric_call m self h args batch_size kw)).
Proof.
  unfold BatchedMetric_call.
  destruct (check_kwargs m kw) as [e0|u0]; [constructor|].
  destruct (general_preprocess m args) as [e|data]; [constructor|].
  destruct (generate_batches data batch_size (display_progressbar self)) as [e|batches];
    [constructor|].
  pose proof (evaluate_batches_calls m (custom_evaluate_kwargs self) (fresh (dom h))
                batches (<[fresh (dom h) := []]> h)) as Hc.
  destruct (evaluate_batches _ _ _ _ _) as [[h2 calls] [e1|u1]]; [exact Hc|].
  destruct (custom_postprocess m data); exact Hc.
Qed.

Lemma call_sequence_custom m calls : forall self h,
  Forall (fun o =>
            custom_evaluate_kwargs (out_self o) = custom_evaluate_kwargs self
            /\ Forall (fun d => forall k v,
                         custom_evaluate_kwargs self !! k = Some v -> d !! k = Some v)
                 (out_calls o))
    (call_sequence m self h calls).
Proof.
  induction calls as [|[[args batch_size] kw] rest IH]; intros self h;
    cbn [call_sequence]; constructor.
  - split; [apply call_keeps_custom|apply call_passes_custom].
  - pose proof (call_keeps_custom m self h args batch_size kw) as Hk.
    specialize (IH (out_self (BatchedMetric_call m self h args batch_size kw))
                   (out_store (BatchedMetric_call m self h args batch_size kw))).
    rewrite Hk in IH. exact IH.
Qed.

(** C6, as amended: the constructor moves a keyword argument out of the
    general configuration into [custom_evaluate_kwargs], with its value,
    exactly when its name is a parameter of the evaluator or becomes one
    once every occurrence of [_batch] is deleted from it; every other
    argument stays in the general configuration.  In every later call of
    the object, however many, [custom_evaluate_kwargs] is the dictionary
    the constructor stored, and every invocation of the evaluator
    receives each stored name with its stored value. *)
Theorem evaluator_kwargs_resolved_at_construction (m : methods) (progress : bool)
    (kwargs_items : dict_items) (h : store)
    (later : list (call_args * Z * dict_items)) :
  NoDup kwargs_items.*1 ->
  let self := (BatchedMetric_init m progress kwargs_items h).1 in
  let h0 := (BatchedMetric_init m progress kwargs_items h).2 in
  (forall key value, (key, value) ∈ kwargs_items ->
     (key ∈ evaluate_batch_args m \/ re_sub_batch key ∈ evaluate_batch_args m ->
        custom_evaluate_kwargs self !! key = Some value
        /\ general_kwargs self !! key = None)
     /\ (~ (key ∈ evaluate_batch_args m \/ re_sub_batch key ∈ evaluate_batch_args m) ->
         custom_evaluate_kwargs self !! key = None
         /\ general_kwargs self !! key = Some value))
  /\ Forall (fun o =>
               custom_evaluate_kwargs (out_self o) = custom_evaluate_kwargs self
               /\ Forall (fun d => forall key value,
                            custom_evaluate_kwargs self !! key = Some value ->
                            d !! key = Some value)
                    (out_calls o))
       (call_sequence m self h0 later).
Proof.
  intros Hnd self h0. split; [|apply call_sequence_custom].
  intros key value Hin.
  destruct (BatchedMetric_init_fields m progress kwargs_items h) as [Hc Hg].
  fold self in Hc, Hg. rewrite Hc, Hg, split_init_kwargs_unfold.
  destruct (resolve_evaluate_kwargs (evaluate_batch_args m) kwargs_items ∅
              (list_to_map kwargs_items)) as [c k] eqn:Hr.
  destruct (resolve_evaluate_kwargs_lookup _ _ _ _ _ _ Hnd Hr key) as [H1 H2].
  cbn [fst snd]. split.
  - intros Hm. apply H1; assumption.
  - intros Hm. destruct H2 as [-> ->]; [right; exact Hm|].
    split; [apply lookup_empty|].
    apply (elem_of_list_to_map (M := gmap string)); assumption.
Qed.

(** Scenario 7 and the threshold metric as an instance of C6. *)
Lemma evaluator_kwargs_resolved_at_construction_witness :
  let kwargs_items := [("threshold"%string, one_tenth); ("plot"%string, VNone)] in
  let later := [(five_instances, 2, []); (five_instances, 3, [])] in
  let self := (BatchedMetric_init threshold_metric false kwargs_items ∅).1 in
  let h0 := (BatchedMetric_init threshold_metric false kwargs_items ∅).2 in
  (forall key value, (key, value) ∈ kwargs_items ->
     (key ∈ evaluate_batch_args threshold_metric
      \/ re_sub_batch key ∈ evaluate_batch_args threshold_metric ->
        custom_evaluate_kwargs self !! key = Some value
        /\ general_kwargs self !! key = None)
     /\ (~ (key ∈ evaluate_batch_args threshold_metric
            \/ re_sub_batch key ∈ evaluate_batch_args threshold_metric) ->
         custom_evaluate_kwargs self !! key = None
         /\ general_kwargs self !! key = Some value))
  /\ Forall (fun o =>
               custom_evaluate_kwargs (out_self o) = custom_evaluate_kwargs self
               /\ Forall (fun d => forall key value,
                            custom_evaluate_kwargs self !! key = Some value ->
                            d !! key = Some value)
                    (out_calls o))
       (call_sequence threshold_metric self h0 later).
Proof.
  apply (evaluator_kwargs_resolved_at_construction threshold_metric false
           [("threshold"%string, one_tenth); ("plot"%string, VNone)] ∅
           [(five_instances, 2, []); (five_instances, 3, [])]).
  by_computation.
Defined.

Example scenario_7 :
  let self := (new_metric threshold_metric [("threshold"%string, one_tenth)]).1 in
  let h0 := (new_metric threshold_metric [("threshold"%string, one_tenth)]).2 in
  custom_evaluate_kwargs self !! "threshold"%string = Some one_tenth
  /\ general_kwargs self !! "threshold"%string = None
  /\ (fun o => (fun d => d !! "threshold"%string) <$> out_calls o)
       <$> call_sequence threshold_metric self h0
             [(five_instances, 2, []); (five_instances, 3, [])]
     = [[Some one_tenth; Some one_tenth; Some one_tenth];
        [Some one_tenth; Some one_tenth]].
Proof. vm_compute. repeat split; reflexivity. Qed.

(** A stored name that is also a key of the dataset: the call of the
    evaluator raises before the evaluator is entered. *)
Example stored_name_in_dataset :
  let self := (new_metric ones_metric [("x_batch"%string, VInt 1)]).1 in
  let h := (new_metric ones_metric [("x_batch"%string, VInt 1)]).2 in
  let o := BatchedMetric_call ones_metric self h five_instances 2 [] in
  custom_evaluate_kwargs self !! "x_batch"%string = Some (VInt 1)
  /\ out_result o = inl TypeError_multiple_values
  /\ length (out_calls o) = 0%nat.
Proof. vm_compute. repeat split; reflexivity. Qed.

(** C6, as stated, fails: [x_batch_batch] is the parameter [x_batch]
    followed by the suffix [_batch], yet the constructor leaves it in the
    general configuration, because deleting every [_batch] from it gives
    [x], which is no parameter. *)
Lemma suffix_match_is_not_moved :
  let self := (new_metric ones_metric [("x_batch_batch"%string, VInt 1)]).1 in
  strip_suffix_batch "x_batch_batch" = "x_batch"%string
  /\ "x_batch"%string ∈ evaluate_batch_args ones_metric
  /\ re_sub_batch "x_batch_batch" = "x"%string
  /\ custom_evaluate_kwargs self !! "x_batch_batch"%string = None
  /\ general_kwargs self !! "x_batch_batch"%string = Some (VInt 1).
Proof.
  cbv zeta. split; [reflexivity|].
  split; [cbn [evaluate_batch_args ones_metric]; unfold base_parameters; entry|].
  split; [reflexivity|]. split; vm_compute; reflexivity.
Qed.

(** The loop, batch by batch. *)

Lemma scores_of_batch_inv m custom batch (r : result (list value)) :
  scores_of_batch m custom batch = r ->
  match r with
  | inr scores =>
      bool_decide (batch ##ₘ custom) = true
      /\ exists res, evaluate_batch m (batch ∪ custom) = inr res /\ py_iter res = inr scores
  | inl e =>
      (bool_decide (batch ##ₘ custom) = false /\ e = TypeError_multiple_values)
      \/ (bool_decide (batch ##ₘ custom) = true
          /\ (evaluate_batch m (batch ∪ custom) = inl e
              \/ exists res, evaluate_batch m (batch ∪ custom) = inr res
                             /\ py_iter res = inl e))
  end.
Proof.
  unfold scores_of_batch. intros <-.
  destruct (bool_decide (batch ##ₘ custom)); [|left; auto].
  destruct (evaluate_batch m (batch ∪ custom)) as [e|res]; [right; auto|].
  destruct (py_iter res) as [e|scores] eqn:Hi; [right; eauto|eauto].
Qed.

Lemma evaluate_batches_ok m custom l batches outs : forall h,
  Forall2 (fun batch scores => scores_of_batch m custom batch = inr scores) batches outs ->
  evaluate_batches m custom l batches h
  = (alter (fun old => old ++ concat outs) l h,
     (fun batch => batch ∪ custom) <$> batches, inr tt).
Proof.
  intros h Hall. revert h.
  induction Hall as [|batch scores batches outs Hs Hall IH]; intros h;
    cbn [evaluate_batches].
  - cbn [concat]. rewrite alter_id; [reflexivity|]. intros x _. apply app_nil_r.
  - apply scores_of_batch_inv in Hs as (-> & res & -> & ->).
    rewrite IH, alter_alter_eq. cbn [concat fmap list_fmap].
    f_equal. f_equal. apply alter_ext. intros x _. cbn. symmetry. apply app_assoc.
Qed.

Lemma evaluate_batches_raise m custom l done bad rest outs e : forall h,
  Forall2 (fun batch scores => scores_of_batch m custom batch = inr scores) done outs ->
  scores_of_batch m custom bad = inl e ->
  (evaluate_batches m custom l (done ++ bad :: rest) h).1.1
  = alter (fun old => old ++ concat outs) l h
  /\ (evaluate_batches m custom l (done ++ bad :: rest) h).2 = inl e.
Proof.
  intros h Hall Hbad. revert h.
  induction Hall as [|batch scores batches outs Hs Hall IH]; intros h;
    cbn [app evaluate_batches].
  - cbn [concat]. rewrite alter_id by (intros x _; apply app_nil_r).
    apply scores_of_batch_inv in Hbad as [[-> ->]|[-> [->|(res & -> & ->)]]]; auto.
  - apply scores_of_batch_inv in Hs as (-> & res & -> & ->).
    specialize (IH (alter (fun old => old ++ scores) l h)).
    destruct (evaluate_batches m custom l (batches ++ bad :: rest)
                (alter (fun old => old ++ scores) l h)) as [[h' calls] r].
    cbn [fst snd] in *. destruct IH as [-> ->]. split; [|reflexivity].
    rewrite alter_alter_eq. cbn [concat]. apply alter_ext.
    intros x _. cbn. symmetry. apply app_assoc.
Qed.

Lemma all_scores_Forall2 m custom batches : forall outs,
  all_scores m custom batches = inr outs ->
  Forall2 (fun batch scores => scores_of_batch m custom batch = inr scores) batches outs.
Proof.
  induction batches as [|batch batches IH]; intros outs H; cbn [all_scores] in H.
  - injection H as <-. constructor.
  - destruct (scores_of_batch m custom batch) as [e|scores] eqn:Hs; [discriminate|].
    destruct (all_scores m custom batches) as [e|outs']; [discriminate|].
    injection H as <-. constructor; [exact Hs|apply IH; reflexivity].
Qed.


(** Every run of the loop either completes all batches or stops at the
    first batch that raises. *)
Lemma batches_split m custom (batches : list dict) :
  (exists outs,
     Forall2 (fun batch scores => scores_of_batch m custom batch = inr scores) batches outs)
  \/ (exists done bad rest outs e,
        batches = done ++ bad :: rest
        /\ Forall2 (fun batch scores => scores_of_batch m custom batch = inr scores) done outs
        /\ scores_of_batch m custom bad = inl e).
Proof.
  induction batches as [|batch batches IH].
  - left. exists []. constructor.
  - destruct (scores_of_batch m custom batch) as [e|scores] eqn:Hs.
    + right. exists [], batch, batches, [], e. repeat split; [constructor|exact Hs].
    + destruct IH as [[outs Hall]|(done & bad & rest & outs & e & -> & Hall & Hbad)].
      * left. exists (scores :: outs). constructor; assumption.
      * right. exists (batch :: done), bad, rest, (scores :: outs), e.
        repeat split; [constructor; assumption|exact Hbad].
Qed.

Lemma fresh_store_lookup (h : store) (scores : list value) (l : loc) :
  l ∈ dom h -> <[fresh (dom h) := scores]> h !! l = h !! l.
Proof.
  intros Hl. apply lookup_insert_ne. intros Heq. subst l.
  apply (is_fresh (dom h)). exact Hl.
Qed.

Lemma call_completes m self h args batch_size kw u data batches outs u' :
  check_kwargs m kw = inr u ->
  general_preprocess m args = inr data ->
  generate_batches data batch_size (display_progressbar self) = inr batches ->
  Forall2 (fun batch scores =>
             scores_of_batch m (custom_evaluate_kwargs self) batch = inr scores)
    batches outs ->
  custom_postprocess m data = inr u' ->
  BatchedMetric_call m self h args batch_size kw
  = {| out_self := append_all_results (set_last_results self (fresh (dom h)))
                     (fresh (dom h));
       out_store := <[fresh (dom h) := concat outs]> h;
       out_calls := (fun batch => batch ∪ custom_evaluate_kwargs self) <$> batches;
       out_result := inr (fresh (dom h)) |}.
Proof.
  intros Hc Hp Hg Hall Hpost. unfold BatchedMetric_call.
  rewrite Hc, Hp, Hg, (evaluate_batches_ok _ _ _ _ outs) by exact Hall.
  rewrite Hpost, alter_insert_eq. reflexivity.
Qed.

Lemma call_stops m self h args batch_size kw u data done bad rest outs e :
  check_kwargs m kw = inr u ->
  general_preprocess m args = inr data ->
  generate_batches data batch_size (display_progressbar self)
  = inr (done ++ bad :: rest) ->
  Forall2 (fun batch scores =>
             scores_of_batch m (custom_evaluate_kwargs self) batch = inr scores)
    done outs ->
  scores_of_batch m (custom_evaluate_kwargs self) bad = inl e ->
  let o := BatchedMetric_call m self h args batch_size kw in
  out_self o = set_last_results self (fresh (dom h))
  /\ out_store o = <[fresh (dom h) := concat outs]> h
  /\ out_result o = inl e.
Proof.
  intros Hc Hp Hg Hall Hbad. unfold BatchedMetric_call.
  rewrite Hc, Hp, Hg.
  pose proof (evaluate_batches_raise m (custom_evaluate_kwargs self) (fresh (dom h))
                done bad rest outs e (<[fresh (dom h) := []]> h) Hall Hbad) as [H1 H2].
  destruct (evaluate_batches _ _ _ _ _) as [[h2 calls] r]. cbn [fst snd] in H1, H2.
  subst h2 r. cbv zeta. cbn [out_self out_store out_result].
  rewrite alter_insert_eq. auto.
Qed.

(** The invocations of a loop that stops at a batch: those of the batches
    before it, and that of the batch itself unless the keyword dictionary
    cannot be built. *)
Lemma evaluate_batches_raise_calls m custom l done bad rest outs e : forall h,
  Forall2 (fun batch scores => scores_of_batch m custom batch = inr scores) done outs ->
  scores_of_batch m custom bad = inl e ->
  (evaluate_batches m custom l (done ++ bad :: rest) h).1.2
  = ((fun batch => batch ∪ custom) <$> done)
    ++ (if bool_decide (bad ##ₘ custom) then [bad ∪ custom] else []).
Proof.
  intros h Hall Hbad. revert h.
  induction Hall as [|batch scores batches outs Hs Hall IH]; intros h;
    cbn [app evaluate_batches fmap list_fmap].
  - apply scores_of_batch_inv in Hbad as [[-> ->]|[-> [->|(res & -> & ->)]]];
      reflexivity.
  - apply scores_of_batch_inv in Hs as (-> & res & -> & ->).
    specialize (IH (alter (fun old => old ++ scores) l h)).
    destruct (evaluate_batches m custom l (batches ++ bad :: rest)
                (alter (fun old => old ++ scores) l h)) as [[h' calls] r].
    cbn [fst snd] in *. rewrite IH. reflexivity.
Qed.

Lemma call_stops_calls m self h args batch_size kw u data done bad rest outs e :
  check_kwargs m kw = inr u ->
  general_preprocess m args = inr data ->
  generate_batches data batch_size (display_progressbar self)
  = inr (done ++ bad :: rest) ->
  Forall2 (fun batch scores =>
             scores_of_batch m (custom_evaluate_kwargs self) batch = inr scores)
    done outs ->
  scores_of_batch m (custom_evaluate_kwargs self) bad = inl e ->
  out_calls (BatchedMetric_call m self h args batch_size kw)
  = ((fun batch => batch ∪ custom_evaluate_kwargs self) <$> done)
    ++ (if bool_decide (bad ##ₘ custom_evaluate_kwargs self)
        then [bad ∪ custom_evaluate_kwargs self] else []).
Proof.
  intros Hc Hp Hg Hall Hbad. unfold BatchedMetric_call.
  rewrite Hc, Hp, Hg.
  pose proof (evaluate_batches_raise m (custom_evaluate_kwargs self) (fresh (dom h))
                done bad rest outs e (<[fresh (dom h) := []]> h) Hall Hbad) as [_ H2].
  pose proof (evaluate_batches_raise_calls m (custom_evaluate_kwargs self)
                (fresh (dom h)) done bad rest outs e (<[fresh (dom h) := []]> h)
                Hall Hbad) as H3.
  destruct (evaluate_batches _ _ _ _ _) as [[h2 calls] r]. cbn [fst snd] in H2, H3.
  subst r calls. reflexivity.
Qed.

Lemma x_slices_cons batch batches :
  x_slices (batch :: batches) = x_slices [batch] ++ x_slices batches.
Proof. unfold x_slices. cbn [mbind list_bind]. rewrite app_nil_r. reflexivity. Qed.

Lemma concat_length_x_slices (P : dict -> list value -> Prop) batches outs :
  Forall2 (fun batch scores => P batch scores /\ length scores = length (x_slices [batch]))
    batches outs ->
  length (concat outs) = length (x_slices batches)
  /\ Forall2 P batches outs.
Proof.
  induction 1 as [|batch scores batches outs [HP Hlen] _ [IH1 IH2]].
  - split; [reflexivity|constructor].
  - split; [|constructor; assumption].
    rewrite x_slices_cons. cbn [concat]. rewrite !length_app. congruence.
Qed.



(** Scenario 6 of the specification: two calls on the same object. *)
Example scenario_6 :
  let self := (new_metric ones_metric []).1 in
  let h := (new_metric ones_metric []).2 in
  let o1 := BatchedMetric_call ones_metric self h five_instances 2 [] in
  let o2 := BatchedMetric_call ones_metric (out_self o1) (out_store o1)
              five_instances 2 [] in
  all_results self = []
  /\ out_result o1 = inr 1%nat
  /\ all_results (out_self o1) = [1%nat]
  /\ deref (out_store o1) 1 = [VInt 1; VInt 1; VInt 1; VInt 1; VInt 1]
  /\ out_result o2 = inr 2%nat
  /\ all_results (out_self o2) = [1%nat; 2%nat]
  /\ deref (out_store o2) 1 = [VInt 1; VInt 1; VInt 1; VInt 1; VInt 1]
  /\ deref (out_store o2) 2 = [VInt 1; VInt 1; VInt 1; VInt 1; VInt 1].
Proof. vm_compute. repeat split; reflexivity. Qed.

(** The metric that returns ones, on a batch with an [x_batch] entry. *)
Lemma ones_metric_scores (custom batch : dict) (kind : seq_kind) (ys : list value) :
  custom = ∅ ->
  batch !! "x_batch"%string = Some (VSeq kind ys) ->
  scores_of_batch ones_metric custom batch
  = inr (replicate (length (x_slices [batch])) (VInt 1)).
Proof.
  intros -> Hb. unfold scores_of_batch.
  rewrite (bool_decide_eq_true_2 _ (map_disjoint_empty_r batch)).
  rewrite (right_id_L ∅ (∪) batch).
  cbn [evaluate_batch ones_metric]. unfold ones_evaluate_batch. rewrite Hb.
  cbn [py_iter]. unfold x_slices. cbn [mbind list_bind]. rewrite Hb, app_nil_r.
  reflexivity.
Qed.

(** With [2 ^ 53 + 1] instances and batches of one instance the call
    returns fewer scores than there are instances. *)
Lemma ones_metric_drops_last_score (xs : list value) :
  Z.of_nat (length xs) = 2 ^ 53 + 1 ->
  let arr := VSeq KArray xs in
  let o := BatchedMetric_call ones_metric (new_metric ones_metric []).1
             (new_metric ones_metric []).2 (call_with arr arr arr) 1 [] in
  exists l scores,
    out_result o = inr l /\ out_store o !! l = Some scores
    /\ length scores <> length xs.
Proof.
  intros Hlen arr o.
  set (data := [("model", VObject 1); ("x_batch", arr); ("y_batch", arr);
                ("a_batch", arr); ("s_batch", VNone)]%string).
  set (self := (new_metric ones_metric []).1) in *.
  set (h := (new_metric ones_metric []).2) in *.
  assert (Hc : get_number_of_batches (Z.of_nat (length xs)) 1 = inr (2 ^ 53)).
  { rewrite Hlen. vm_compute. reflexivity. }
  assert (Hx : (list_to_map data : dict) !! "x_batch"%string = Some arr).
  { unfold data. cbn [list_to_map foldr].
    rewrite lookup_insert_ne by discriminate. apply lookup_insert_eq. }
  assert (Hnd : NoDup data.*1).
  { unfold data. cbn [fmap list_fmap fst]. repeat constructor; set_solver. }
  destruct (generate_batches data 1 (display_progressbar self)) as [e|batches] eqn:Hg.
  { exfalso.
    rewrite (generate_batches_unfold _ _ _ arr (Z.of_nat (length xs)))
      in Hg by (exact Hx || reflexivity).
    unfold data, arr in Hg.
    cbn [partition_kwargs isinstance_Sequence_or_ndarray isinstance_str py_len negb orb]
      in Hg.
    rewrite !Z.eqb_refl in Hg.
    cbn [partition_kwargs isinstance_Sequence_or_ndarray isinstance_str py_len negb orb]
      in Hg.
    rewrite Hc in Hg. discriminate. }
  destruct (generate_batches_prefix data 1 (display_progressbar self) KArray xs batches
              (2 ^ 53) Hnd Hx ltac:(lia) Hc ltac:(lia) ltac:(lia) Hg) as [Hs Hxb].
  set (f := fun batch : dict => replicate (length (x_slices [batch])) (VInt 1)).
  assert (Hall : Forall2 (fun batch scores =>
                   scores_of_batch ones_metric (custom_evaluate_kwargs self) batch
                   = inr scores
                   /\ length scores = length (x_slices [batch]))
                   batches (f <$> batches)).
  { apply Forall2_fmap_r, Forall_Forall2_diag.
    eapply Forall_impl; [exact Hxb|]. intros batch [ys Hys]. split.
    - apply (ones_metric_scores _ _ KArray ys); [reflexivity|exact Hys].
    - unfold f. apply length_replicate. }
  apply concat_length_x_slices in Hall as [Hcat Hall].
  exists (fresh (dom h)), (concat (f <$> batches)).
  subst o.
  rewrite (call_completes ones_metric self h (call_with arr arr arr) 1 [] tt data
             batches (f <$> batches) tt) by (reflexivity || assumption).
  cbn [out_result out_store].
  split; [reflexivity|]. split; [apply lookup_insert_eq|].
  rewrite Hcat, Hs, length_take. lia.
Qed.


(** C2: the call evaluates the batches that the planner counts, and
    returns too few scores where the float quotient is rounded.  With a
    batch size of [2 ^ 1100] the call on five instances returns an empty
    result sequence.  With [2 ^ 53 + 1] instances and a batch size of one
    the returned sequence is shorter than the dataset. *)
Lemma call_returns_too_few_scores :
  (let self := (new_metric ones_metric []).1 in
   let h := (new_metric ones_metric []).2 in
   let o := BatchedMetric_call ones_metric self h five_instances (2 ^ 1100) [] in
   0 < 2 ^ 1100
   /\ out_result o = inr 1%nat
   /\ deref (out_store o) 1 = []
   /\ deref (out_store o) 1 <> [VInt 1; VInt 1; VInt 1; VInt 1; VInt 1])
  /\ (let arr := VSeq KArray empty_rows in
      let o := BatchedMetric_call ones_metric (new_metric ones_metric []).1
                 (new_metric ones_metric []).2 (call_with arr arr arr) 1 [] in
      exists l scores,
        out_result o = inr l /\ out_store o !! l = Some scores
        /\ length scores <> length empty_rows).
Proof.
  split.
  - cbv zeta. split; [apply Z.pow_pos_nonneg; lia|].
    split; [vm_compute; reflexivity|].
    assert (E : deref (out_store (BatchedMetric_call ones_metric
                   (new_metric ones_metric []).1 (new_metric ones_metric []).2
                   five_instances (2 ^ 1100) [])) 1 = []) by (vm_compute; reflexivity).
    rewrite E. split; [reflexivity|discriminate].
  - apply (ones_metric_drops_last_score empty_rows).
    unfold empty_rows. rewrite length_replicate. apply Z2Nat.id. lia.
Qed.

(** C7, as amended: whichever step of a call raises first (a check, the
    preprocessing hook, the generator with its length validation, a pass
    of the loop, or the postprocessing hook), the call raises the
    exception of that step unchanged and returns nothing; the evaluator
    has been invoked for the batches before the failure and, when it is
    the evaluator or [extend] that raises, for the failing batch, and for
    no batch after it; [all_results] is as before the call and no list
    that existed before the call is changed.  [last_results] is not
    rolled back: it is unchanged when the failure precedes its reset, and
    otherwise it refers to a new list that holds the scores of the batches
    completed before the failure.  A call raises in no other way. *)
Theorem failed_call_keeps_history (m : methods) (self : BatchedMetric)
    (h : store) (args : call_args) (batch_size : Z) (kw : dict_items) (e : exn)
    (calls : list dict) (partial : option (list value)) :
  raises_at m self args batch_size kw e calls partial ->
  let o := BatchedMetric_call m self h args batch_size kw in
  out_result o = inl e
  /\ out_calls o = calls
  /\ all_results (out_self o) = all_results self
  /\ (forall l', l' ∈ dom h -> out_store o !! l' = h !! l')
  /\ match partial with
     | None => out_self o = self /\ out_store o = h
     | Some scores =>
         out_self o = set_last_results self (fresh (dom h))
         /\ (fresh (dom h) ∉ dom h)
         /\ out_store o = <[fresh (dom h) := scores]> h
     end
  /\ (forall e', out_result o = inl e' ->
        exists calls' partial', raises_at m self args batch_size kw e' calls' partial').
Proof.
  intros Hraise o.
  assert (Hback : forall e', out_result o = inl e' ->
            exists calls' partial', raises_at m self args batch_size kw e' calls' partial').
  { subst o. clear. intros e'. unfold BatchedMetric_call.
    destruct (check_kwargs m kw) as [e0|u0] eqn:Hc.
    { cbn. intros [= ->]. eexists _, _. apply raises_in_check. exact Hc. }
    destruct (general_preprocess m args) as [e0|data] eqn:Hp.
    { cbn. intros [= ->]. eexists _, _. eapply raises_in_preprocess; eassumption. }
    destruct (generate_batches data batch_size (display_progressbar self))
      as [e0|batches] eqn:Hg.
    { cbn. intros [= ->]. eexists _, _. eapply raises_in_generator; eassumption. }
    destruct (batches_split m (custom_evaluate_kwargs self) batches)
      as [[outs Hall]|(done & bad & rest & outs & e0 & -> & Hall & Hbad)].
    - rewrite (evaluate_batches_ok _ _ _ _ outs) by exact Hall.
      destruct (custom_postprocess m data) as [e0|u1] eqn:Hpost; cbn; [|discriminate].
      intros [= ->]. eexists _, _. eapply raises_in_postprocess; eassumption.
    - pose proof (evaluate_batches_raise m (custom_evaluate_kwargs self) (fresh (dom h))
                    done bad rest outs e0 (<[fresh (dom h) := []]> h) Hall Hbad) as [_ H2].
      destruct (evaluate_batches _ _ _ _ _) as [[h2 calls] r]. cbn [snd] in H2.
      subst r. cbn. intros [= ->]. eexists _, _. eapply raises_in_batch; eassumption. }
  destruct Hraise as [e Hc|u e Hc Hp|u data e Hc Hp Hg
                     |u data done bad rest outs e Hc Hp Hg Hall Hbad
                     |u data batches outs e Hc Hp Hg Hall Hpost].
  - assert (Ho : o = Build_outcome self h [] (inl e))
      by (subst o; unfold BatchedMetric_call; rewrite Hc; reflexivity).
    rewrite Ho in Hback |- *. cbn [out_result out_calls out_self out_store].
    repeat split; try reflexivity. exact Hback.
  - assert (Ho : o = Build_outcome self h [] (inl e))
      by (subst o; unfold BatchedMetric_call; rewrite Hc, Hp; reflexivity).
    rewrite Ho in Hback |- *. cbn [out_result out_calls out_self out_store].
    repeat split; try reflexivity. exact Hback.
  - assert (Ho : o = {| out_self := set_last_results self (fresh (dom h));
                        out_store := <[fresh (dom h) := []]> h;
                        out_calls := [];
                        out_result := inl e |})
      by (apply (call_generator_raises m self h args batch_size kw u data); assumption).
    rewrite Ho in Hback |- *.
    cbn [out_result out_calls out_self out_store all_results set_last_results].
    split; [reflexivity|]. split; [reflexivity|]. split; [reflexivity|].
    split; [intros l' Hl'; apply fresh_store_lookup; exact Hl'|].
    split; [|exact Hback].
    split; [reflexivity|]. split; [apply is_fresh|reflexivity].
  - destruct (call_stops m self h args batch_size kw u data done bad rest outs e
                Hc Hp Hg Hall Hbad) as (Hs & Hh & Hr).
    pose proof (call_stops_calls m self h args batch_size kw u data done bad rest outs e
                  Hc Hp Hg Hall Hbad) as Hcalls.
    fold o in Hs, Hh, Hr, Hcalls. rewrite Hs, Hh, Hr, Hcalls.
    cbn [all_results set_last_results].
    split; [reflexivity|]. split; [reflexivity|]. split; [reflexivity|].
    split; [intros l' Hl'; apply fresh_store_lookup; exact Hl'|].
    split; [|rewrite <- Hr; exact Hback].
    split; [reflexivity|]. split; [apply is_fresh|reflexivity].
  - assert (Ho : o = {| out_self := set_last_results self (fresh (dom h));
                        out_store := <[fresh (dom h) := concat outs]> h;
                        out_calls := (fun batch => batch ∪ custom_evaluate_kwargs self)
                                       <$> batches;
                        out_result := inl e |}).
    { subst o. unfold BatchedMetric_call.
      rewrite Hc, Hp, Hg, (evaluate_batches_ok _ _ _ _ outs) by exact Hall.
      rewrite Hpost, alter_insert_eq. reflexivity. }
    rewrite Ho in Hback |- *.
    cbn [out_result out_calls out_self out_store all_results set_last_results].
    split; [reflexivity|]. split; [reflexivity|]. split; [reflexivity|].
    split; [intros l' Hl'; apply fresh_store_lookup; exact Hl'|].
    split; [|exact Hback].
    split; [reflexivity|]. split; [apply is_fresh|reflexivity].
Qed.

Lemma failed_call_keeps_history_witness :
  let self := (new_metric picky_metric []).1 in
  let h := (new_metric picky_metric []).2 in
  let batches := returned [] (generate_batches five_dataset 2 false) in
  let custom := custom_evaluate_kwargs self in
  let o := BatchedMetric_call picky_metric self h five_instances 2 [] in
  out_result o = inl (Raised 7)
  /\ out_calls o
     = ((fun batch => batch ∪ custom) <$> take 1 batches)
       ++ (if bool_decide (batches !!! 1%nat ##ₘ custom)
           then [batches !!! 1%nat ∪ custom] else [])
  /\ all_results (out_self o) = all_results self
  /\ (forall l', l' ∈ dom h -> out_store o !! l' = h !! l')
  /\ (out_self o = set_last_results self (fresh (dom h))
      /\ (fresh (dom h) ∉ dom h)
      /\ out_store o = <[fresh (dom h) := concat [[VInt 1; VInt 1]]]> h)
  /\ (forall e', out_result o = inl e' ->
        exists calls' partial',
          raises_at picky_metric self five_instances 2 [] e' calls' partial').
Proof.
  apply (failed_call_keeps_history picky_metric (new_metric picky_metric []).1
           (new_metric picky_metric []).2 five_instances 2 [] (Raised 7) _
           (Some (concat [[VInt 1; VInt 1]]))).
  apply (raises_in_batch picky_metric (new_metric picky_metric []).1 five_instances
           2 [] tt five_dataset
           (take 1 (returned [] (generate_batches five_dataset 2 false)))
           (returned [] (generate_batches five_dataset 2 false) !!! 1%nat)
           (drop 2 (returned [] (generate_batches five_dataset 2 false)))
           [[VInt 1; VInt 1]] (Raised 7)).
  - reflexivity.
  - reflexivity.
  - rewrite take_drop_middle.
    + apply returned_ok. vm_compute. reflexivity.
    + apply list_lookup_lookup_total_lt. vm_compute. lia.
  - apply all_scores_Forall2. vm_compute. reflexivity.
  - vm_compute. reflexivity.
Defined.

(** C7, as stated, fails: the evaluator raises on the second of three
    batches; after the call [last_results] is not what it was before the
    call and is not empty: it refers to a new list with the two scores of
    the first batch. *)
Lemma failed_call_leaves_partial_results :
  let self := (new_metric picky_metric []).1 in
  let h := (new_metric picky_metric []).2 in
  let o := BatchedMetric_call picky_metric self h five_instances 2 [] in
  out_result o = inl (Raised 7)
  /\ last_results (out_self o) <> last_results self
  /\ out_store o !! last_results (out_self o) = Some [VInt 1; VInt 1]
  /\ out_store o !! last_results (out_self o) <> Some []
  /\ out_store o !! last_results (out_self o) <> None.
Proof.
  cbv zeta. split; [vm_compute; reflexivity|].
  split; [vm_compute; discriminate|].
  assert (E : out_store (BatchedMetric_call picky_metric (new_metric picky_metric []).1
                           (new_metric picky_metric []).2 five_instances 2 [])
              !! last_results (out_self (BatchedMetric_call picky_metric
                                           (new_metric picky_metric []).1
                                           (new_metric picky_metric []).2
                                           five_instances 2 []))
              = Some [VInt 1; VInt 1]) by (vm_compute; reflexivity).
  rewrite E. repeat split; discriminate || reflexivity.
Qed.

(** C10: when the evaluator raises on the batch of index [k], after the
    batches before it have been evaluated, the call raises that
    exception; [last_results] then refers to a list created by this call
    (it is not a list of the store before the call, so the result
    sequence of the previous call is no longer [last_results]) that holds
    exactly the scores of the [k] completed batches, one after the other;
    [all_results] is as before the call and no earlier list is changed. *)
Theorem evaluator_failure_leaves_partial_results (m : methods)
    (self : BatchedMetric) (h : store) (args : call_args) (batch_size : Z)
    (kw data : dict_items) (u : unit) (batches : list dict) (k : nat)
    (bad : dict) (outs : list (list value)) (e : exn) :
  check_kwargs m kw = inr u ->
  general_preprocess m args = inr data ->
  generate_batches data batch_size (display_progressbar self) = inr batches ->
  batches !! k = Some bad ->
  Forall2 (fun batch scores =>
             scores_of_batch m (custom_evaluate_kwargs self) batch = inr scores)
    (take k batches) outs ->
  bad ##ₘ custom_evaluate_kwargs self ->
  evaluate_batch m (bad ∪ custom_evaluate_kwargs self) = inl e ->
  let o := BatchedMetric_call m self h args batch_size kw in
  out_result o = inl e
  /\ (last_results (out_self o) ∉ dom h)
  /\ out_store o !! last_results (out_self o) = Some (concat outs)
  /\ length outs = k
  /\ all_results (out_self o) = all_results self
  /\ (forall l', l' ∈ dom h -> out_store o !! l' = h !! l').
Proof.
  intros Hc Hp Hg Hk Hall Hdisj Heval o.
  assert (Hbad : scores_of_batch m (custom_evaluate_kwargs self) bad = inl e).
  { unfold scores_of_batch. rewrite (bool_decide_eq_true_2 _ Hdisj), Heval.
    reflexivity. }
  rewrite <- (take_drop_middle batches k bad Hk) in Hg.
  destruct (call_stops m self h args batch_size kw u data (take k batches) bad
              (drop (S k) batches) outs e Hc Hp Hg Hall Hbad) as (Hs & Hh & Hr).
  fold o in Hs, Hh, Hr. rewrite Hs, Hh, Hr.
  cbn [last_results all_results set_last_results].
  split; [reflexivity|]. split; [apply is_fresh|].
  split; [apply lookup_insert_eq|]. split.
  - apply Forall2_length in Hall. rewrite <- Hall, length_take.
    apply lookup_lt_Some in Hk. lia.
  - split; [reflexivity|]. intros l' Hl'. apply fresh_store_lookup. exact Hl'.
Qed.

Lemma evaluator_failure_leaves_partial_results_witness :
  let self := (new_metric picky_metric []).1 in
  let h := (new_metric picky_metric []).2 in
  let o := BatchedMetric_call picky_metric self h five_instances 2 [] in
  out_result o = inl (Raised 7)
  /\ (last_results (out_self o) ∉ dom h)
  /\ out_store o !! last_results (out_self o) = Some (concat [[VInt 1; VInt 1]])
  /\ length [[VInt 1; VInt 1]] = 1%nat
  /\ all_results (out_self o) = all_results self
  /\ (forall l', l' ∈ dom h -> out_store o !! l' = h !! l').
Proof.
  apply (evaluator_failure_leaves_partial_results picky_metric
           (new_metric picky_metric []).1 (new_metric picky_metric []).2
           five_instances 2 [] five_dataset tt
           (returned [] (generate_batches five_dataset 2 false)) 1
           (returned [] (generate_batches five_dataset 2 false) !!! 1%nat)
           [[VInt 1; VInt 1]] (Raised 7)).
  - reflexivity.
  - reflexivity.
  - apply returned_ok. vm_compute. reflexivity.
  - apply list_lookup_lookup_total_lt. vm_compute. lia.
  - apply all_scores_Forall2. vm_compute. reflexivity.
  - apply map_disjoint_empty_r.
  - vm_compute. reflexivity.
Defined.

(** * Further properties of the code *)

(** ** Reading the items of a result *)

Lemma returned_nonempty {A} (d : A) (r : result (list A)) :
  (0 < length (returned [] r))%nat ->
  r = inr (hd d (returned [] r) :: tail (returned [] r)).
Proof. destruct r as [e|[|a l]]; cbn; intros Hl; [lia|lia|reflexivity]. Qed.

Lemma lookup_or_default {A} (d : A) (l : list A) (i : nat) :
  (i < length l)%nat -> l !! i = Some (default d (l !! i)).
Proof.
  intros Hi. destruct (lookup_lt_is_Some_2 l i Hi) as [a ->]. reflexivity.
Qed.

(** ** Batch sizes that are not positive, and datasets without instances *)

Lemma get_number_of_batches_by_zero n :
  get_number_of_batches n 0 = inl ZeroDivisionError.
Proof. reflexivity. Qed.

Lemma get_number_of_batches_empty b :
  b <> 0 -> get_number_of_batches 0 b = inr 0.
Proof. intros Hb. destruct b as [|q|q]; [lia| |]; reflexivity. Qed.

(** The sign of the operands only sets the sign of the rounded result. *)
Lemma binary_round_aux_sign sx mx ex lx :
  binary_round_aux 53 1024 sx mx ex lx
  = with_sign sx (binary_round_aux 53 1024 false mx ex lx).
Proof.
  unfold binary_round_aux.
  destruct (shr_fexp 53 1024 mx ex lx) as [mrs e'].
  destruct (shr_fexp 53 1024 _ e' loc_Exact) as [mrs' e''].
  destruct (shr_m mrs') as [|m|m]; [reflexivity| |reflexivity].
  destruct (e'' <=? 1024 - 53); reflexivity.
Qed.

Lemma SFdiv_negative_divisor p q :
  SFdiv 53 1024 (S754_finite false p 0) (S754_finite true q 0)
  = with_sign true (SFdiv 53 1024 (S754_finite false p 0) (S754_finite false q 0)).
Proof.
  unfold SFdiv.
  destruct (SFdiv_core_binary 53 1024 (Zpos p) 0 (Zpos q) 0) as [[mz ez] lz].
  cbn [xorb]. apply binary_round_aux_sign.
Qed.

(** For a negative batch size the quotient is not positive, and so is its
    ceiling. *)
Lemma get_number_of_batches_negative n b :
  0 <= n < 2 ^ 53 -> - 2 ^ 53 < b < 0 ->
  exists c, get_number_of_batches n b = inr c /\ c <= 0.
Proof.
  intros Hn Hb.
  destruct b as [|q|q]; try lia.
  destruct n as [|p|p]; try lia.
  - exists 0. split; [reflexivity|lia].
  - unfold get_number_of_batches, int_true_divide.
    change (Z.neg q =? 0) with false. cbn [float_operand].
    rewrite SFdiv_negative_divisor.
    destruct (Binary64.SFdiv_nearest p q) as (m & e & M & t & Heq & _); [lia|lia|].
    rewrite Heq. cbn [with_sign math_ceil].
    exists (ceil_scaled (Z.neg m) e). split; [reflexivity|].
    unfold ceil_scaled. destruct (Z.ltb_spec e 0).
    + assert (0 < 2 ^ (- e)) by (apply Z.pow_pos_nonneg; lia).
      assert (0 <= (- Z.neg m) / 2 ^ (- e)) by (apply Z.div_pos; lia).
      lia.
    + assert (0 <= 2 ^ e) by (apply Z.pow_nonneg; lia). nia.
Qed.

Lemma seqZ_nonpositive c : c <= 0 -> seqZ 0 c = [].
Proof. intros Hc. apply seqZ_nil. exact Hc. Qed.

(** A dataset all of whose entries are accepted is partitioned. *)
Lemma partition_kwargs_succeeds n data s0 b0 :
  Forall (fun kv => accepted n kv.2) data ->
  exists s b, partition_kwargs n data s0 b0 = inr (s, b).
Proof.
  intros Hall.
  destruct (partition_kwargs_app_accepted n data [] s0 b0 Hall) as (s & b & Heq).
  rewrite app_nil_r in Heq. exists s, b. exact Heq.
Qed.

(** A call whose generator yields nothing returns a new empty list. *)
Lemma call_no_batches m self h args batch_size kw u data u' :
  check_kwargs m kw = inr u ->
  general_preprocess m args = inr data ->
  generate_batches data batch_size (display_progressbar self) = inr [] ->
  custom_postprocess m data = inr u' ->
  BatchedMetric_call m self h args batch_size kw
  = {| out_self := append_all_results (set_last_results self (fresh (dom h)))
                     (fresh (dom h));
       out_store := <[fresh (dom h) := []]> h;
       out_calls := [];
       out_result := inr (fresh (dom h)) |}.
Proof.
  intros Hc Hp Hg Hpost.
  apply (call_completes m self h args batch_size kw u data [] [] u'); try assumption.
  constructor.
Qed.

(** X1: a batch size of zero.  The planner raises [ZeroDivisionError] for
    every instance count, also for none.  The generator validates the
    entries first: on a dataset all of whose entries are accepted it
    raises this error, and so does the call, after [last_results] has been
    replaced by a new empty list; the evaluator is not invoked and the
    history is as before. *)
Theorem zero_batch_size_raises (m : methods) (self : BatchedMetric) (h : store)
    (args : call_args) (kw data : dict_items) (u : unit) (x : value)
    (n_instances : Z) :
  check_kwargs m kw = inr u ->
  general_preprocess m args = inr data ->
  (list_to_map data : dict) !! "x_batch"%string = Some x ->
  py_len x = inr n_instances ->
  Forall (fun kv => accepted n_instances kv.2) data ->
  let o := BatchedMetric_call m self h args 0 kw in
  get_number_of_batches n_instances 0 = inl ZeroDivisionError
  /\ generate_batches data 0 (display_progressbar self) = inl ZeroDivisionError
  /\ out_result o = inl ZeroDivisionError
  /\ out_calls o = []
  /\ (last_results (out_self o) ∉ dom h)
  /\ out_store o !! last_results (out_self o) = Some []
  /\ all_results (out_self o) = all_results self.
Proof.
  intros Hc Hp Hx Hn Hall o.
  assert (Hg : generate_batches data 0 (display_progressbar self) = inl ZeroDivisionError).
  { rewrite (generate_batches_unfold _ _ _ x n_instances) by assumption.
    destruct (partition_kwargs_succeeds n_instances data ∅ ∅ Hall) as (s & b & ->).
    reflexivity. }
  subst o. rewrite (call_generator_raises _ _ _ _ _ _ u data ZeroDivisionError) by assumption.
  cbn [out_result out_calls out_self out_store last_results set_last_results all_results].
  repeat split; try assumption; try reflexivity.
  - apply is_fresh.
  - apply lookup_insert_eq.
Qed.

Lemma zero_batch_size_raises_witness :
  let self := (new_metric ones_metric []).1 in
  let h := (new_metric ones_metric []).2 in
  let o := BatchedMetric_call ones_metric self h five_instances 0 [] in
  get_number_of_batches 5 0 = inl ZeroDivisionError
  /\ generate_batches five_dataset 0 (display_progressbar self) = inl ZeroDivisionError
  /\ out_result o = inl ZeroDivisionError
  /\ out_calls o = []
  /\ (last_results (out_self o) ∉ dom h)
  /\ out_store o !! last_results (out_self o) = Some []
  /\ all_results (out_self o) = all_results self.
Proof.
  apply (zero_batch_size_raises ones_metric _ _ five_instances [] five_dataset tt
           (int_array [10; 20; 30; 40; 50]) 5); try reflexivity.
  repeat constructor; first [left; reflexivity | right; reflexivity].
Defined.

Lemma py_len_nonneg v n : py_len v = inr n -> 0 <= n.
Proof. destruct v; intros [= <-]; lia. Qed.

Lemma py_len_error v e : py_len v = inl e -> e = TypeError_no_len.
Proof. destruct v; intros [= <-]; reflexivity. Qed.

Lemma instance_count_error data e :
  instance_count data = inl e ->
  forall batch_size flag, generate_batches data batch_size flag = inl e.
Proof.
  unfold instance_count, generate_batches. intros He batch_size flag.
  destruct (_ !! _) as [x|]; [|injection He as <-; reflexivity].
  rewrite He. reflexivity.
Qed.

(** X2: a dataset without a sized [x_batch].  When the entry [x_batch] is
    missing the generator raises [KeyError], and when it has no length
    (None, a number, a zero-dimensional array, an arbitrary object) it
    raises the [TypeError] of [len]; no other entry is looked at.  The
    call raises the same exception after [last_results] has been replaced
    by a new empty list, without invoking the evaluator and without adding
    to the history. *)
Theorem dataset_without_sized_x_batch (m : methods) (self : BatchedMetric)
    (h : store) (args : call_args) (batch_size : Z) (kw data : dict_items)
    (u : unit) (e : exn) :
  check_kwargs m kw = inr u ->
  general_preprocess m args = inr data ->
  instance_count data = inl e ->
  let o := BatchedMetric_call m self h args batch_size kw in
  (if bool_decide ("x_batch"%string ∈ data.*1)
   then e = TypeError_no_len else e = KeyError "x_batch")
  /\ generate_batches data batch_size (display_progressbar self) = inl e
  /\ out_result o = inl e
  /\ out_calls o = []
  /\ (last_results (out_self o) ∉ dom h)
  /\ out_store o !! last_results (out_self o) = Some []
  /\ all_results (out_self o) = all_results self.
Proof.
  intros Hc Hp He o.
  pose proof (instance_count_error data e He batch_size (display_progressbar self)) as Hg.
  split.
  { unfold instance_count in He.
    destruct (_ !! _) as [x|] eqn:Hx.
    - rewrite bool_decide_eq_true_2.
      + exact (py_len_error _ _ He).
      + apply (elem_of_list_to_map_2 (M := gmap string)) in Hx.
        apply list_elem_of_fmap. exists ("x_batch"%string, x). split; [reflexivity|exact Hx].
    - rewrite bool_decide_eq_false_2.
      + injection He as <-. reflexivity.
      + apply (not_elem_of_list_to_map_2 (M := gmap string)). exact Hx. }
  subst o. rewrite (call_generator_raises _ _ _ _ _ _ u data e) by assumption.
  cbn [out_result out_calls out_self out_store last_results set_last_results all_results].
  repeat split; try assumption; try reflexivity.
  - apply is_fresh.
  - apply lookup_insert_eq.
Qed.

Lemma dataset_without_sized_x_batch_witness :
  let self := (new_metric ones_metric []).1 in
  let h := (new_metric ones_metric []).2 in
  let o := BatchedMetric_call ones_metric self h
             (call_with VNone (int_array [0; 1]) (int_array [1; 2])) 2 [] in
  let data := returned [] (flat_preprocess
                (call_with VNone (int_array [0; 1]) (int_array [1; 2]))) in
  (if bool_decide ("x_batch"%string ∈ data.*1)
   then TypeError_no_len = TypeError_no_len
   else TypeError_no_len = KeyError "x_batch")
  /\ generate_batches data 2 (display_progressbar self) = inl TypeError_no_len
  /\ out_result o = inl TypeError_no_len
  /\ out_calls o = []
  /\ (last_results (out_self o) ∉ dom h)
  /\ out_store o !! last_results (out_self o) = Some []
  /\ all_results (out_self o) = all_results self.
Proof.
  apply (dataset_without_sized_x_batch ones_metric _ _
           (call_with VNone (int_array [0; 1]) (int_array [1; 2])) 2 [] _ tt
           TypeError_no_len); reflexivity.
Defined.

(** X3: a negative batch size.  For an instance count and a batch size
    below [2 ^ 53] in absolute value the planner returns a count that is
    not positive, so that [range(0, n_batches)] is empty: the generator
    yields no batch, and the call (with the progress bar disabled, so that
    the negative total is never displayed) returns a new empty list and
    appends it to the history without invoking the evaluator and without
    raising. *)
Theorem negative_batch_size_yields_nothing (m : methods) (self : BatchedMetric)
    (h : store) (args : call_args) (batch_size : Z) (kw data : dict_items)
    (u u' : unit) (x : value) (n_instances : Z) :
  check_kwargs m kw = inr u ->
  general_preprocess m args = inr data ->
  (list_to_map data : dict) !! "x_batch"%string = Some x ->
  py_len x = inr n_instances ->
  n_instances < 2 ^ 53 ->
  - 2 ^ 53 < batch_size < 0 ->
  display_progressbar self = false ->
  Forall (fun kv => accepted n_instances kv.2) data ->
  custom_postprocess m data = inr u' ->
  let o := BatchedMetric_call m self h args batch_size kw in
  (exists n_batches,
     get_number_of_batches n_instances batch_size = inr n_batches /\ n_batches <= 0)
  /\ generate_batches data batch_size (display_progressbar self) = inr []
  /\ out_result o = inr (last_results (out_self o))
  /\ out_calls o = []
  /\ (last_results (out_self o) ∉ dom h)
  /\ out_store o !! last_results (out_self o) = Some []
  /\ all_results (out_self o) = all_results self ++ [last_results (out_self o)].
Proof.
  intros Hc Hp Hx Hn Hlt Hb _ Hall Hpost o.
  pose proof (py_len_nonneg _ _ Hn) as Hn0.
  destruct (get_number_of_batches_negative n_instances batch_size) as (c & Hgc & Hc0);
    [lia|lia|].
  assert (Hg : generate_batches data batch_size (display_progressbar self) = inr []).
  { rewrite (generate_batches_unfold _ _ _ x n_instances) by assumption.
    destruct (partition_kwargs_succeeds n_instances data ∅ ∅ Hall) as (s & b & ->).
    rewrite Hgc, seqZ_nonpositive by exact Hc0. reflexivity. }
  split; [exists c; split; assumption|].
  subst o. rewrite (call_no_batches _ _ _ _ _ _ u data u') by assumption.
  cbn [out_result out_calls out_self out_store last_results set_last_results
       append_all_results all_results].
  repeat split; try assumption; try reflexivity.
  - apply is_fresh.
  - apply lookup_insert_eq.
Qed.

Lemma negative_batch_size_yields_nothing_witness :
  let self := (new_metric ones_metric []).1 in
  let h := (new_metric ones_metric []).2 in
  let o := BatchedMetric_call ones_metric self h five_instances (-2) [] in
  (exists n_batches, get_number_of_batches 5 (-2) = inr n_batches /\ n_batches <= 0)
  /\ generate_batches five_dataset (-2) (display_progressbar self) = inr []
  /\ out_result o = inr (last_results (out_self o))
  /\ out_calls o = []
  /\ (last_results (out_self o) ∉ dom h)
  /\ out_store o !! last_results (out_self o) = Some []
  /\ all_results (out_self o) = all_results self ++ [last_results (out_self o)].
Proof.
  apply (negative_batch_size_yields_nothing ones_metric _ _ five_instances (-2) []
           five_dataset tt tt (int_array [10; 20; 30; 40; 50]) 5);
    try reflexivity; try lia.
  repeat constructor; first [left; reflexivity | right; reflexivity].
Defined.

(** X4: a dataset without instances.  For every batch size other than
    zero, of either sign and of any magnitude, the planner returns zero
    batches; the call returns a new empty list and appends it to the
    history, and the evaluator is not invoked, whatever it is. *)
Theorem empty_dataset_returns_empty (m : methods) (self : BatchedMetric)
    (h : store) (args : call_args) (batch_size : Z) (kw data : dict_items)
    (u u' : unit) (x : value) :
  check_kwargs m kw = inr u ->
  general_preprocess m args = inr data ->
  (list_to_map data : dict) !! "x_batch"%string = Some x ->
  py_len x = inr 0 ->
  batch_size <> 0 ->
  Forall (fun kv => accepted 0 kv.2) data ->
  custom_postprocess m data = inr u' ->
  let o := BatchedMetric_call m self h args batch_size kw in
  get_number_of_batches 0 batch_size = inr 0
  /\ generate_batches data batch_size (display_progressbar self) = inr []
  /\ out_result o = inr (last_results (out_self o))
  /\ out_calls o = []
  /\ (last_results (out_self o) ∉ dom h)
  /\ out_store o !! last_results (out_self o) = Some []
  /\ all_results (out_self o) = all_results self ++ [last_results (out_self o)].
Proof.
  intros Hc Hp Hx Hn Hb Hall Hpost o.
  pose proof (get_number_of_batches_empty batch_size Hb) as Hgc.
  assert (Hg : generate_batches data batch_size (display_progressbar self) = inr []).
  { rewrite (generate_batches_unfold _ _ _ x 0) by assumption.
    destruct (partition_kwargs_succeeds 0 data ∅ ∅ Hall) as (s & b & ->).
    rewrite Hgc. reflexivity. }
  split; [exact Hgc|].
  subst o. rewrite (call_no_batches _ _ _ _ _ _ u data u') by assumption.
  cbn [out_result out_calls out_self out_store last_results set_last_results
       append_all_results all_results].
  repeat split; try assumption; try reflexivity.
  - apply is_fresh.
  - apply lookup_insert_eq.
Qed.

Lemma empty_dataset_returns_empty_witness :
  let self := (new_metric picky_metric []).1 in
  let h := (new_metric picky_metric []).2 in
  let none := call_with (int_array []) (int_array []) (int_array []) in
  let o := BatchedMetric_call picky_metric self h none (-64) [] in
  get_number_of_batches 0 (-64) = inr 0
  /\ generate_batches (returned [] (flat_preprocess none)) (-64)
       (display_progressbar self) = inr []
  /\ out_result o = inr (last_results (out_self o))
  /\ out_calls o = []
  /\ (last_results (out_self o) ∉ dom h)
  /\ out_store o !! last_results (out_self o) = Some []
  /\ all_results (out_self o) = all_results self ++ [last_results (out_self o)].
Proof.
  apply (empty_dataset_returns_empty picky_metric _ _
           (call_with (int_array []) (int_array []) (int_array [])) (-64) [] _
           tt tt (int_array [])); try reflexivity; try lia.
  repeat constructor; first [left; reflexivity | right; reflexivity].
Defined.

(** ** The entries of a batch *)

Lemma generate_batches_inv data batch_size flag x n batches :
  (list_to_map data : dict) !! "x_batch"%string = Some x ->
  py_len x = inr n ->
  generate_batches data batch_size flag = inr batches ->
  exists single batched n_batches,
    partition_kwargs n data ∅ ∅ = inr (single, batched)
    /\ get_number_of_batches n batch_size = inr n_batches
    /\ batches = make_batch batch_size n single batched <$> seqZ 0 n_batches.
Proof.
  intros Hx Hn Hg.
  rewrite (generate_batches_unfold _ _ _ x n) in Hg by assumption.
  destruct (partition_kwargs n data ∅ ∅) as [e|[single batched]]; [discriminate|].
  destruct (get_number_of_batches n batch_size) as [e|c]; [discriminate|].
  injection Hg as <-. exists single, batched, c. repeat split; reflexivity.
Qed.

(** What a batch holds: the keys of the dataset, the single values as
    they are, and of every batched value the segment of the batch. *)
Lemma make_batch_entries data n single batched batch_size i :
  NoDup data.*1 ->
  partition_kwargs n data ∅ ∅ = inr (single, batched) ->
  dom (make_batch batch_size n single batched i) =@{gset string} list_to_set data.*1
  /\ (forall k v, (k, v) ∈ data -> broadcast v = true ->
        make_batch batch_size n single batched i !! k = Some v)
  /\ (forall k v, (k, v) ∈ data -> broadcast v = false ->
        exists kind ys,
          v = VSeq kind ys /\ Z.of_nat (length ys) = n
          /\ make_batch batch_size n single batched i !! k
             = Some (VSeq kind (list_slice ys (batch_start batch_size i)
                                  (batch_end batch_size i n)))).
Proof.
  intros Hnd Hp. split; [|split].
  - destruct (partition_kwargs_inv _ _ _ _ _ _ Hp) as (_ & _ & _ & Hdom).
    unfold make_batch. rewrite dom_union_L, dom_fmap_L.
    rewrite !dom_empty_L in Hdom. set_solver.
  - intros k v Hin Hb.
    pose proof (partition_kwargs_lookup _ _ _ _ _ _ Hnd Hp Hin) as Hl.
    rewrite Hb in Hl. destruct Hl as [Hs _].
    apply make_batch_lookup_single. exact Hs.
  - intros k v Hin Hb.
    pose proof (partition_kwargs_lookup _ _ _ _ _ _ Hnd Hp Hin) as Hl.
    rewrite Hb in Hl. destruct Hl as (Hbk & Hsk & _).
    destruct (partition_kwargs_batched _ _ _ _ _ _ Hp Hbk) as (kind & ys & -> & Hlen).
    exists kind, ys. split; [reflexivity|]. split; [exact Hlen|].
    rewrite (make_batch_lookup_batched _ _ _ _ _ _ (VSeq kind ys)) by assumption.
    reflexivity.
Qed.

Lemma key_slices_fmap key (f : Z -> dict) (g : Z -> list value) (kind : seq_kind)
    (l : list Z) :
  (forall i, i ∈ l -> f i !! key = Some (VSeq kind (g i))) ->
  key_slices key (f <$> l) = l ≫= g.
Proof.
  intros Hf. unfold key_slices. induction l as [|i l IH]; [reflexivity|].
  cbn [fmap list_fmap mbind list_bind]. rewrite Hf by left.
  f_equal. apply IH. intros i' Hi'. apply Hf. right. exact Hi'.
Qed.

(** X5: the entries of a batch are aligned.  Whatever the batch size and
    the count that the planner returns, the batch of index [i] has exactly
    the keys of the dataset; an entry that is not a sequence, or is a
    string, is in it unchanged; every other entry is a sequence of
    [n_instances] items of which the batch holds the slice from
    [batch_size * i] to [min(batch_size * (i + 1), n_instances)], the same
    range for all keys. *)
Theorem batches_are_aligned (data : dict_items) (batch_size : Z) (flag : bool)
    (x : value) (n_instances : Z) (batches : list dict) :
  NoDup data.*1 ->
  (list_to_map data : dict) !! "x_batch"%string = Some x ->
  py_len x = inr n_instances ->
  generate_batches data batch_size flag = inr batches ->
  forall (i : nat) (batch : dict), batches !! i = Some batch ->
    dom batch =@{gset string} list_to_set data.*1
    /\ (forall k v, (k, v) ∈ data -> broadcast v = true -> batch !! k = Some v)
    /\ (forall k v, (k, v) ∈ data -> broadcast v = false ->
          exists kind ys,
            v = VSeq kind ys /\ Z.of_nat (length ys) = n_instances
            /\ batch !! k
               = Some (VSeq kind
                         (list_slice ys (batch_start batch_size (Z.of_nat i))
                            (batch_end batch_size (Z.of_nat i) n_instances)))).
Proof.
  intros Hnd Hx Hn Hg i batch Hi.
  destruct (generate_batches_inv _ _ _ _ _ _ Hx Hn Hg) as (s & b & c & Hp & _ & ->).
  rewrite list_lookup_fmap in Hi.
  destruct (seqZ 0 c !! i) as [z|] eqn:Hz; [|discriminate].
  apply lookup_seqZ in Hz as [-> _]. injection Hi as <-.
  rewrite Z.add_0_l. apply (make_batch_entries data); assumption.
Qed.

Lemma batches_are_aligned_witness :
  let batches := returned [] (generate_batches five_dataset 2 false) in
  let batch := default ∅ (batches !! 1%nat) in
  dom batch =@{gset string} list_to_set five_dataset.*1
  /\ (forall k v, (k, v) ∈ five_dataset -> broadcast v = true -> batch !! k = Some v)
  /\ (forall k v, (k, v) ∈ five_dataset -> broadcast v = false ->
        exists kind ys,
          v = VSeq kind ys /\ Z.of_nat (length ys) = 5
          /\ batch !! k
             = Some (VSeq kind
                       (list_slice ys (batch_start 2 (Z.of_nat 1))
                          (batch_end 2 (Z.of_nat 1) 5)))).
Proof.
  apply (batches_are_aligned five_dataset 2 false (int_array [10; 20; 30; 40; 50]) 5
           (returned [] (generate_batches five_dataset 2 false))).
  - by_computation.
  - reflexivity.
  - reflexivity.
  - apply returned_ok. vm_compute. reflexivity.
  - apply lookup_or_default. by_computation.
Defined.

(** ** Every batched entry, and the sizes of the batches *)

Lemma broadcast_sequence kind ys : broadcast (VSeq kind ys) = false.
Proof. reflexivity. Qed.

(** Inside the bounds, the generator yields the batches of the indices
    below the exact ceiling. *)
Lemma generate_batches_small data batch_size flag x n batches :
  (list_to_map data : dict) !! "x_batch"%string = Some x ->
  py_len x = inr n ->
  n < 2 ^ 53 -> 0 < batch_size < 2 ^ 53 ->
  generate_batches data batch_size flag = inr batches ->
  let n_batches := (n + batch_size - 1) / batch_size in
  exists single batched,
    partition_kwargs n data ∅ ∅ = inr (single, batched)
    /\ batches = make_batch batch_size n single batched <$> seqZ 0 n_batches
    /\ 0 <= n_batches
    /\ batch_size * (n_batches - 1) < n <= batch_size * n_batches.
Proof.
  intros Hx Hn Hlt Hb Hg n_batches.
  pose proof (py_len_nonneg _ _ Hn) as Hn0.
  destruct (generate_batches_inv _ _ _ _ _ _ Hx Hn Hg) as (s & b & c & Hp & Hc & ->).
  rewrite get_number_of_batches_small in Hc by lia. injection Hc as <-.
  fold n_batches.
  pose proof (ceil_quotient_bounds n batch_size ltac:(lia)) as Hq. fold n_batches in Hq.
  exists s, b. repeat split; solve [assumption | reflexivity | lia | nia].
Qed.

(** The slices under one key of the batches of all indices below the
    ceiling are the whole sequence. *)
Lemma key_slices_indexed key (f : Z -> dict) (kind : seq_kind) (ys : list value)
    (b c : Z) :
  0 < b -> 0 <= c ->
  b * (c - 1) < Z.of_nat (length ys) <= b * c ->
  (forall i, f i !! key
             = Some (VSeq kind (list_slice ys (batch_start b i)
                                  (batch_end b i (Z.of_nat (length ys)))))) ->
  key_slices key (f <$> seqZ 0 c) = ys.
Proof.
  intros Hb Hc0 Hc Hf.
  rewrite (key_slices_fmap key _
             (fun i => list_slice ys (batch_start b i)
                         (batch_end b i (Z.of_nat (length ys)))) kind)
    by (intros i _; apply Hf).
  replace c with (Z.of_nat (Z.to_nat c)) by lia.
  rewrite slices_prefix by lia.
  rewrite Z.min_r by lia. rewrite Nat2Z.id. apply firstn_all.
Qed.

(** X6: the round trip of every batched entry.  For a dataset of fewer
    than [2 ^ 53] instances and a batch size below [2 ^ 53], the slices of
    any sequence entry of the dataset (labels, attributions, ...), taken
    from the batches in the order in which they are yielded, are the entry
    itself: no item is lost, repeated or moved, under any key. *)
Theorem batches_reconstruct_every_key (data : dict_items) (batch_size : Z)
    (flag : bool) (x : value) (n_instances : Z) (batches : list dict)
    (key : string) (kind : seq_kind) (ys : list value) :
  NoDup data.*1 ->
  (list_to_map data : dict) !! "x_batch"%string = Some x ->
  py_len x = inr n_instances ->
  n_instances < 2 ^ 53 ->
  0 < batch_size < 2 ^ 53 ->
  generate_batches data batch_size flag = inr batches ->
  (key, VSeq kind ys) ∈ data ->
  key_slices key batches = ys
  /\ Z.of_nat (length ys) = n_instances.
Proof.
  intros Hnd Hx Hn Hlt Hb Hg Hin.
  destruct (generate_batches_small _ _ _ _ _ _ Hx Hn Hlt Hb Hg)
    as (s & b & Hp & -> & Hc0 & Hc).
  set (c := (n_instances + batch_size - 1) / batch_size) in *.
  assert (Hlen : Z.of_nat (length ys) = n_instances).
  { destruct (make_batch_entries data n_instances s b batch_size 0 Hnd Hp)
      as (_ & _ & Hseq).
    destruct (Hseq _ _ Hin (broadcast_sequence kind ys)) as (kind' & ys' & Heq & Hl & _).
    injection Heq as -> ->. exact Hl. }
  split; [|exact Hlen].
  subst n_instances.
  apply (key_slices_indexed key _ kind ys batch_size c); try lia.
  intros i.
  destruct (make_batch_entries data _ s b batch_size i Hnd Hp) as (_ & _ & Hseq).
  destruct (Hseq _ _ Hin (broadcast_sequence kind ys)) as (kind' & ys' & Heq & _ & Hl).
  injection Heq as <- <-. exact Hl.
Qed.

Lemma batches_reconstruct_every_key_witness :
  let batches := returned [] (generate_batches five_dataset 2 false) in
  key_slices "a_batch" batches = VInt <$> [1; 2; 3; 4; 5]
  /\ Z.of_nat (length (VInt <$> [1; 2; 3; 4; 5])) = 5.
Proof.
  apply (batches_reconstruct_every_key five_dataset 2 false
           (int_array [10; 20; 30; 40; 50]) 5 _ "a_batch" KArray).
  - by_computation.
  - reflexivity.
  - reflexivity.
  - reflexivity.
  - lia.
  - apply returned_ok. vm_compute. reflexivity.
  - unfold five_dataset. entry.
Defined.

(** X7: the sizes of the batches.  Inside the same bounds there are
    [ceil(n_instances / batch_size)] batches; in the batch of index [i]
    every sequence entry has [min(batch_size, n_instances - batch_size * i)]
    items: at least one and at most [batch_size], and exactly [batch_size]
    in every batch but the last. *)
Theorem batches_have_batch_size (data : dict_items) (batch_size : Z)
    (flag : bool) (x : value) (n_instances : Z) (batches : list dict) :
  NoDup data.*1 ->
  (list_to_map data : dict) !! "x_batch"%string = Some x ->
  py_len x = inr n_instances ->
  n_instances < 2 ^ 53 ->
  0 < batch_size < 2 ^ 53 ->
  generate_batches data batch_size flag = inr batches ->
  let n_batches := (n_instances + batch_size - 1) / batch_size in
  Z.of_nat (length batches) = n_batches
  /\ forall (i : nat) (batch : dict), batches !! i = Some batch ->
     forall key kind ys, (key, VSeq kind ys) ∈ data ->
     exists zs,
       batch !! key = Some (VSeq kind zs)
       /\ Z.of_nat (length zs) = Z.min batch_size (n_instances - batch_size * Z.of_nat i)
       /\ 1 <= Z.of_nat (length zs) <= batch_size
       /\ (Z.of_nat i + 1 < n_batches -> Z.of_nat (length zs) = batch_size).
Proof.
  intros Hnd Hx Hn Hlt Hb Hg n_batches.
  destruct (generate_batches_small _ _ _ _ _ _ Hx Hn Hlt Hb Hg)
    as (s & b & Hp & -> & Hc0 & Hc).
  fold n_batches in Hc0, Hc |- *.
  split; [rewrite length_fmap, length_seqZ; lia|].
  intros i batch Hi key kind ys Hin.
  rewrite list_lookup_fmap in Hi.
  destruct (seqZ 0 n_batches !! i) as [z|] eqn:Hz; [|discriminate].
  apply lookup_seqZ in Hz as [-> Hz]. injection Hi as <-. rewrite Z.add_0_l.
  destruct (make_batch_entries data n_instances s b batch_size (Z.of_nat i) Hnd Hp)
    as (_ & _ & Hseq).
  destruct (Hseq _ _ Hin (broadcast_sequence kind ys)) as (kind' & ys' & Heq & Hlen & Hl).
  injection Heq as <- <-.
  eexists. split; [exact Hl|].
  unfold batch_start, batch_end.
  rewrite list_slice_inside by nia.
  rewrite length_take, length_drop.
  assert (HP0 : 0 <= batch_size * Z.of_nat i) by nia.
  assert (HPn : batch_size * Z.of_nat i < n_instances) by nia.
  assert (Hfull : Z.of_nat i + 1 < n_batches ->
                  batch_size * Z.of_nat i + batch_size <= n_instances) by (intros; nia).
  replace (batch_size * (Z.of_nat i + 1))
    with (batch_size * Z.of_nat i + batch_size) by lia.
  set (P := batch_size * Z.of_nat i) in *. clearbody P.
  split; [lia|]. split; [lia|]. intros Hlast. specialize (Hfull Hlast). lia.
Qed.

Lemma batches_have_batch_size_witness :
  let batches := returned [] (generate_batches five_dataset 2 false) in
  Z.of_nat (length batches) = (5 + 2 - 1) / 2
  /\ forall (i : nat) (batch : dict), batches !! i = Some batch ->
     forall key kind ys, (key, VSeq kind ys) ∈ five_dataset ->
     exists zs,
       batch !! key = Some (VSeq kind zs)
       /\ Z.of_nat (length zs) = Z.min 2 (5 - 2 * Z.of_nat i)
       /\ 1 <= Z.of_nat (length zs) <= 2
       /\ (Z.of_nat i + 1 < (5 + 2 - 1) / 2 -> Z.of_nat (length zs) = 2).
Proof.
  apply (batches_have_batch_size five_dataset 2 false
           (int_array [10; 20; 30; 40; 50]) 5).
  - by_computation.
  - reflexivity.
  - reflexivity.
  - reflexivity.
  - lia.
  - apply returned_ok. vm_compute. reflexivity.
Defined.

(** X8: a batch size that is not below the instance count.  A dataset
    that is not empty is handed out in one batch, which is the dataset
    itself: every entry under its key, the sequences whole. *)
Theorem whole_dataset_in_one_batch (data : dict_items) (batch_size : Z)
    (flag : bool) (x : value) (n_instances : Z) (batches : list dict) :
  NoDup data.*1 ->
  (list_to_map data : dict) !! "x_batch"%string = Some x ->
  py_len x = inr n_instances ->
  0 < n_instances <= batch_size ->
  batch_size < 2 ^ 53 ->
  generate_batches data batch_size flag = inr batches ->
  batches = [list_to_map data].
Proof.
  intros Hnd Hx Hn Hle Hb Hg.
  destruct (generate_batches_small data batch_size flag x n_instances batches
              Hx Hn ltac:(lia) ltac:(lia) Hg)
    as (s & b & Hp & -> & Hc0 & Hc).
  replace ((n_instances + batch_size - 1) / batch_size) with 1 in *
    by (apply (Z.div_unique _ _ 1 (n_instances - 1)); lia).
  change (seqZ 0 1) with [0]. cbn [fmap list_fmap]. f_equal.
  destruct (make_batch_entries data n_instances s b batch_size 0 Hnd Hp)
    as (Hdom & Hsingle & Hseq).
  apply map_eq. intros k.
  destruct ((list_to_map data : dict) !! k) as [v|] eqn:Hk.
  - apply (elem_of_list_to_map_2 (M := gmap string)) in Hk.
    destruct (broadcast v) eqn:Hbr.
    + apply Hsingle; assumption.
    + destruct (Hseq _ _ Hk Hbr) as (kind & ys & -> & Hlen & ->).
      do 2 f_equal. unfold batch_start, batch_end. rewrite Z.mul_0_r.
      rewrite list_slice_inside by lia.
      change (Z.to_nat 0) with 0%nat. rewrite drop_0. apply take_ge. lia.
  - apply (not_elem_of_list_to_map_2 (M := gmap string)) in Hk.
    apply not_elem_of_dom. rewrite Hdom. set_solver.
Qed.

Lemma whole_dataset_in_one_batch_witness :
  returned [] (generate_batches five_dataset 64 false) = [list_to_map five_dataset].
Proof.
  apply (whole_dataset_in_one_batch five_dataset 64 false
           (int_array [10; 20; 30; 40; 50]) 5).
  - by_computation.
  - reflexivity.
  - reflexivity.
  - lia.
  - reflexivity.
  - apply returned_ok. vm_compute. reflexivity.
Defined.

(** ** What the evaluator is invoked with *)

(** A call that returns has run every step. *)
Lemma call_returns m self h args batch_size kw l :
  out_result (BatchedMetric_call m self h args batch_size kw) = inr l ->
  exists u data batches outs u',
    check_kwargs m kw = inr u
    /\ general_preprocess m args = inr data
    /\ generate_batches data batch_size (display_progressbar self) = inr batches
    /\ Forall2 (fun batch scores =>
                  scores_of_batch m (custom_evaluate_kwargs self) batch = inr scores)
         batches outs
    /\ custom_postprocess m data = inr u'.
Proof.
  unfold BatchedMetric_call.
  destruct (check_kwargs m kw) as [e0|u] eqn:Hc; [discriminate|].
  destruct (general_preprocess m args) as [e0|data] eqn:Hp; [discriminate|].
  destruct (generate_batches data batch_size (display_progressbar self))
    as [e0|batches] eqn:Hg; [discriminate|].
  destruct (batches_split m (custom_evaluate_kwargs self) batches)
    as [[outs Hall]|(done & bad & rest & outs & e0 & -> & Hall & Hbad)].
  - rewrite (evaluate_batches_ok _ _ _ _ outs) by exact Hall.
    destruct (custom_postprocess m data) as [e0|u'] eqn:Hpost; [discriminate|].
    intros _. exists u, data, batches, outs, u'. auto.
  - pose proof (evaluate_batches_raise m (custom_evaluate_kwargs self) (fresh (dom h))
                  done bad rest outs e0 (<[fresh (dom h) := []]> h) Hall Hbad) as [_ H2].
    destruct (evaluate_batches _ _ _ _ _) as [[h2 calls] r]. cbn [snd] in H2.
    subst r. discriminate.
Qed.

(** X18: a call that returns, whatever the dataset and the batch size.
    Every step has run: the preprocessing, the generator, the evaluator on
    every batch that the generator yields, in order, and the
    postprocessing.  The returned reference is new, it is [last_results]
    and the last entry of the history at once (one list object, not
    copies), the list behind it is the concatenation of the scores of the
    batches in order, however many scores the evaluator gives for a
    batch, and no list that existed before the call has changed. *)
Theorem returning_call_is_complete (m : methods) (self : BatchedMetric)
    (h : store) (args : call_args) (batch_size : Z) (kw : dict_items) (l : loc) :
  out_result (BatchedMetric_call m self h args batch_size kw) = inr l ->
  let o := BatchedMetric_call m self h args batch_size kw in
  exists data batches outs,
    general_preprocess m args = inr data
    /\ generate_batches data batch_size (display_progressbar self) = inr batches
    /\ Forall2 (fun batch scores =>
                  scores_of_batch m (custom_evaluate_kwargs self) batch = inr scores)
         batches outs
    /\ is_ok (custom_postprocess m data) = true
    /\ out_calls o = (fun batch => batch ∪ custom_evaluate_kwargs self) <$> batches
    /\ out_store o !! l = Some (concat outs)
    /\ (l ∉ dom h)
    /\ last_results (out_self o) = l
    /\ all_results (out_self o) = all_results self ++ [l]
    /\ (forall l', l' ∈ dom h -> out_store o !! l' = h !! l').
Proof.
  intros Hr o.
  destruct (call_returns _ _ _ _ _ _ _ Hr)
    as (u & data & batches & outs & u' & Hc & Hp & Hg & Hall & Hpost).
  exists data, batches, outs.
  subst o. rewrite (call_completes _ _ _ _ _ _ u data batches outs u') in Hr |- *
    by assumption.
  cbn [out_result out_calls out_store out_self last_results all_results
       set_last_results append_all_results] in Hr |- *.
  injection Hr as <-. rewrite Hpost.
  repeat split; try assumption; try reflexivity.
  - apply lookup_insert_eq.
  - apply is_fresh.
  - intros l' Hl'. apply fresh_store_lookup. exact Hl'.
Qed.

Lemma returning_call_is_complete_witness :
  let self := (new_metric ones_metric []).1 in
  let h := (new_metric ones_metric []).2 in
  let o := BatchedMetric_call ones_metric self h five_instances 2 [] in
  exists data batches outs,
    general_preprocess ones_metric five_instances = inr data
    /\ generate_batches data 2 (display_progressbar self) = inr batches
    /\ Forall2 (fun batch scores =>
                  scores_of_batch ones_metric (custom_evaluate_kwargs self) batch
                  = inr scores)
         batches outs
    /\ is_ok (custom_postprocess ones_metric data) = true
    /\ out_calls o = (fun batch => batch ∪ custom_evaluate_kwargs self) <$> batches
    /\ out_store o !! 1%nat = Some (concat outs)
    /\ (1%nat ∉ dom h)
    /\ last_results (out_self o) = 1%nat
    /\ all_results (out_self o) = all_results self ++ [1%nat]
    /\ (forall l', l' ∈ dom h -> out_store o !! l' = h !! l').
Proof.
  apply (returning_call_is_complete ones_metric _ _ five_instances 2 [] 1%nat).
  vm_compute. reflexivity.
Defined.

(** The invocations of a call that returns, inside the bounds: one for
    each batch, with the slices of every sequence entry in order. *)
Lemma call_invocations (m : methods) (self : BatchedMetric)
    (h : store) (args : call_args) (batch_size : Z) (kw data : dict_items)
    (x : value) (n_instances : Z) (l : loc) :
  general_preprocess m args = inr data ->
  NoDup data.*1 ->
  (list_to_map data : dict) !! "x_batch"%string = Some x ->
  py_len x = inr n_instances ->
  n_instances < 2 ^ 53 ->
  0 < batch_size < 2 ^ 53 ->
  out_result (BatchedMetric_call m self h args batch_size kw) = inr l ->
  let o := BatchedMetric_call m self h args batch_size kw in
  Z.of_nat (length (out_calls o)) = (n_instances + batch_size - 1) / batch_size
  /\ (forall key kind ys, (key, VSeq kind ys) ∈ data ->
        key_slices key (out_calls o) = ys).
Proof.
  intros Hp Hnd Hx Hn Hlt Hb Hr o.
  destruct (call_returns _ _ _ _ _ _ _ Hr)
    as (u & data' & batches & outs & u' & Hc & Hp' & Hg & Hall & Hpost).
  rewrite Hp in Hp'. injection Hp' as <-.
  subst o. rewrite (call_completes _ _ _ _ _ _ u data batches outs u') by assumption.
  cbn [out_calls].
  destruct (generate_batches_small _ _ _ _ _ _ Hx Hn Hlt Hb Hg)
    as (s & b & Hpart & -> & Hc0 & Hcb).
  set (c := (n_instances + batch_size - 1) / batch_size) in *.
  split; [rewrite !length_fmap, length_seqZ; lia|].
  intros key kind ys Hin.
  rewrite <- list_fmap_compose.
  destruct (make_batch_entries data n_instances s b batch_size 0 Hnd Hpart)
    as (_ & _ & Hseq0).
  destruct (Hseq0 _ _ Hin (broadcast_sequence kind ys)) as (kind' & ys' & Heq & Hlen & _).
  injection Heq as <- <-. subst n_instances.
  apply (key_slices_indexed key _ kind ys batch_size c); try lia.
  intros i. cbn [compose].
  destruct (make_batch_entries data _ s b batch_size i Hnd Hpart) as (_ & _ & Hseq).
  destruct (Hseq _ _ Hin (broadcast_sequence kind ys)) as (kind' & ys' & Heq & _ & Hl).
  injection Heq as <- <-.
  apply lookup_union_Some_l. exact Hl.
Qed.

(** X9: what the evaluator sees in a call that returns.  For a dataset of
    fewer than [2 ^ 53] instances and a batch size below [2 ^ 53] the
    evaluator has been invoked [ceil(n_instances / batch_size)] times, and
    under every key of a sequence entry of the dataset the values that
    these invocations received, one after the other, are the entry: every
    instance is evaluated exactly once, in the order of the dataset,
    together with its own label and attribution. *)
Theorem evaluator_sees_every_instance_once (m : methods) (self : BatchedMetric)
    (h : store) (args : call_args) (batch_size : Z) (kw data : dict_items)
    (x : value) (n_instances : Z) (l : loc) :
  general_preprocess m args = inr data ->
  NoDup data.*1 ->
  (list_to_map data : dict) !! "x_batch"%string = Some x ->
  py_len x = inr n_instances ->
  n_instances < 2 ^ 53 ->
  0 < batch_size < 2 ^ 53 ->
  out_result (BatchedMetric_call m self h args batch_size kw) = inr l ->
  let o := BatchedMetric_call m self h args batch_size kw in
  Z.of_nat (length (out_calls o)) = (n_instances + batch_size - 1) / batch_size
  /\ (forall key kind ys, (key, VSeq kind ys) ∈ data ->
        key_slices key (out_calls o) = ys).
Proof. apply call_invocations. Qed.

Lemma evaluator_sees_every_instance_once_witness :
  let self := (new_metric ones_metric []).1 in
  let h := (new_metric ones_metric []).2 in
  let o := BatchedMetric_call ones_metric self h five_instances 2 [] in
  Z.of_nat (length (out_calls o)) = (5 + 2 - 1) / 2
  /\ (forall key kind ys, (key, VSeq kind ys) ∈ five_dataset ->
        key_slices key (out_calls o) = ys).
Proof.
  apply (evaluator_sees_every_instance_once ones_metric _ _ five_instances 2 []
           five_dataset (int_array [10; 20; 30; 40; 50]) 5 1%nat).
  - reflexivity.
  - by_computation.
  - reflexivity.
  - reflexivity.
  - reflexivity.
  - lia.
  - vm_compute. reflexivity.
Defined.

(** ** Keyword arguments that collide, and scores that are not iterable *)

Lemma generate_batches_ok_inv data batch_size flag batches :
  generate_batches data batch_size flag = inr batches ->
  exists x n single batched n_batches,
    (list_to_map data : dict) !! "x_batch"%string = Some x
    /\ py_len x = inr n
    /\ partition_kwargs n data ∅ ∅ = inr (single, batched)
    /\ get_number_of_batches n batch_size = inr n_batches
    /\ batches = make_batch batch_size n single batched <$> seqZ 0 n_batches.
Proof.
  intros Hg.
  destruct ((list_to_map data : dict) !! "x_batch"%string) as [x|] eqn:Hx;
    [|unfold generate_batches in Hg; rewrite Hx in Hg; discriminate].
  destruct (py_len x) as [e|n] eqn:Hn;
    [unfold generate_batches in Hg; rewrite Hx, Hn in Hg; discriminate|].
  destruct (generate_batches_inv _ _ _ _ _ _ Hx Hn Hg) as (s & b & c & H).
  exists x, n, s, b, c. auto.
Qed.

(** Every batch has the keys of the dataset. *)
Lemma generate_batches_keys data batch_size flag batches :
  NoDup data.*1 ->
  generate_batches data batch_size flag = inr batches ->
  Forall (fun batch => dom batch =@{gset string} list_to_set data.*1) batches.
Proof.
  intros Hnd Hg.
  destruct (generate_batches_ok_inv _ _ _ _ Hg) as (x & n & s & b & c & _ & _ & Hp & _ & ->).
  apply Forall_fmap, Forall_forall. intros i _. cbn.
  apply (make_batch_entries data n s b batch_size i Hnd Hp).
Qed.

(** X10: a construction keyword that is also a key of the dataset.  A
    keyword that [__init__] moves to [custom_evaluate_kwargs] (it names a
    parameter of the evaluator, with or without [_batch]) and whose name
    is a key of the preprocessed dataset, as [x_batch] is, makes every
    call that reaches a first batch raise [TypeError]: the name would be
    passed twice.  The evaluator is not entered, [last_results] is a new
    empty list and the history is as before. *)
Theorem stored_dataset_name_breaks_calls (m : methods) (progress : bool)
    (kwargs_items : dict_items) (h0 h : store) (args : call_args)
    (batch_size : Z) (kw data : dict_items) (u : unit)
    (first : dict) (rest : list dict) (key : string) (v w : value) :
  NoDup kwargs_items.*1 ->
  (key, w) ∈ kwargs_items ->
  key ∈ evaluate_batch_args m \/ re_sub_batch key ∈ evaluate_batch_args m ->
  check_kwargs m kw = inr u ->
  general_preprocess m args = inr data ->
  NoDup data.*1 ->
  (key, v) ∈ data ->
  generate_batches data batch_size progress = inr (first :: rest) ->
  let self := (BatchedMetric_init m progress kwargs_items h0).1 in
  let o := BatchedMetric_call m self h args batch_size kw in
  custom_evaluate_kwargs self !! key = Some w
  /\ out_result o = inl TypeError_multiple_values
  /\ out_calls o = []
  /\ (last_results (out_self o) ∉ dom h)
  /\ out_store o !! last_results (out_self o) = Some []
  /\ all_results (out_self o) = all_results self.
Proof.
  intros Hndk Hink Hmoved Hc Hp Hnd Hin Hg self o.
  assert (Hcustom : custom_evaluate_kwargs self !! key = Some w).
  { subst self.
    destruct (BatchedMetric_init_fields m progress kwargs_items h0) as [-> _].
    rewrite split_init_kwargs_unfold.
    destruct (resolve_evaluate_kwargs (evaluate_batch_args m) kwargs_items ∅
                (list_to_map kwargs_items)) as [c k] eqn:Hres.
    destruct (resolve_evaluate_kwargs_lookup _ _ _ _ _ _ Hndk Hres key) as [Hm _].
    apply (Hm w Hink Hmoved). }
  assert (Hflag : display_progressbar self = progress).
  { subst self. unfold BatchedMetric_init, Metric_init.
    destruct (split_init_kwargs _ _) as [c k]. reflexivity. }
  assert (Hfirst : is_Some (first !! key)).
  { pose proof (generate_batches_keys _ _ _ _ Hnd Hg) as Hkeys.
    apply Forall_cons in Hkeys as [Hdom _].
    apply elem_of_dom. rewrite Hdom. apply elem_of_list_to_set.
    apply list_elem_of_fmap. exists (key, v). split; [reflexivity|exact Hin]. }
  assert (Hbad : scores_of_batch m (custom_evaluate_kwargs self) first
                 = inl TypeError_multiple_values).
  { unfold scores_of_batch. rewrite bool_decide_eq_false_2; [reflexivity|].
    intros Hdisj. destruct Hfirst as [v' Hv'].
    exact (proj1 (map_disjoint_spec first (custom_evaluate_kwargs self))
             Hdisj key v' w Hv' Hcustom). }
  rewrite <- Hflag in Hg.
  split; [exact Hcustom|].
  destruct (call_stops m self h args batch_size kw u data [] first rest []
              TypeError_multiple_values Hc Hp Hg ltac:(constructor) Hbad)
    as (Hs & Hh & Hr).
  pose proof (call_stops_calls m self h args batch_size kw u data [] first rest []
                TypeError_multiple_values Hc Hp Hg ltac:(constructor) Hbad) as Hcalls.
  fold o in Hs, Hh, Hr, Hcalls. rewrite Hs, Hh, Hr, Hcalls.
  cbn [last_results all_results set_last_results fmap list_fmap app concat].
  split; [reflexivity|]. split.
  { unfold scores_of_batch in Hbad.
    destruct (bool_decide (first ##ₘ custom_evaluate_kwargs self)) eqn:Hd; [|reflexivity].
    exfalso. apply bool_decide_eq_true_1 in Hd. destruct Hfirst as [v' Hv'].
    exact (proj1 (map_disjoint_spec first (custom_evaluate_kwargs self))
             Hd key v' w Hv' Hcustom). }
  split; [apply is_fresh|]. split; [apply lookup_insert_eq|reflexivity].
Qed.

Lemma stored_dataset_name_breaks_calls_witness :
  let self := (BatchedMetric_init ones_metric false [("x_batch"%string, VInt 1)] ∅).1 in
  let h := (BatchedMetric_init ones_metric false [("x_batch"%string, VInt 1)] ∅).2 in
  let o := BatchedMetric_call ones_metric self h five_instances 2 [] in
  custom_evaluate_kwargs self !! "x_batch"%string = Some (VInt 1)
  /\ out_result o = inl TypeError_multiple_values
  /\ out_calls o = []
  /\ (last_results (out_self o) ∉ dom h)
  /\ out_store o !! last_results (out_self o) = Some []
  /\ all_results (out_self o) = all_results self.
Proof.
  apply (stored_dataset_name_breaks_calls ones_metric false
           [("x_batch"%string, VInt 1)] ∅ _ five_instances 2 [] five_dataset tt
           (hd ∅ (returned [] (generate_batches five_dataset 2 false)))
           (tail (returned [] (generate_batches five_dataset 2 false)))
           "x_batch" (int_array [10; 20; 30; 40; 50]) (VInt 1)).
  - by_computation.
  - entry.
  - left. unfold ones_metric, evaluate_batch_args, base_parameters. entry.
  - reflexivity.
  - reflexivity.
  - by_computation.
  - unfold five_dataset. entry.
  - apply returned_nonempty. by_computation.
Defined.

Lemma py_iter_error v e : py_iter v = inl e -> e = TypeError_not_iterable.
Proof. destruct v; intros [= <-]; reflexivity. Qed.

(** X11: an evaluator whose result is not iterable.  When the evaluator
    returns for a batch a value over which [extend] cannot iterate (None,
    a number, a zero-dimensional array), the call raises [TypeError] after
    the evaluator has returned: it has been invoked for this batch and for
    all batches before it, [last_results] holds the scores of the batches
    before it only, and nothing is appended to the history. *)
Theorem non_iterable_scores_raise (m : methods) (self : BatchedMetric)
    (h : store) (args : call_args) (batch_size : Z) (kw data : dict_items)
    (u : unit) (batches : list dict) (k : nat) (bad : dict)
    (outs : list (list value)) (res : value) (e : exn) :
  check_kwargs m kw = inr u ->
  general_preprocess m args = inr data ->
  generate_batches data batch_size (display_progressbar self) = inr batches ->
  batches !! k = Some bad ->
  Forall2 (fun batch scores =>
             scores_of_batch m (custom_evaluate_kwargs self) batch = inr scores)
    (take k batches) outs ->
  bad ##ₘ custom_evaluate_kwargs self ->
  evaluate_batch m (bad ∪ custom_evaluate_kwargs self) = inr res ->
  py_iter res = inl e ->
  let o := BatchedMetric_call m self h args batch_size kw in
  out_result o = inl TypeError_not_iterable
  /\ out_calls o
     = (fun batch => batch ∪ custom_evaluate_kwargs self) <$> take (S k) batches
  /\ (last_results (out_self o) ∉ dom h)
  /\ out_store o !! last_results (out_self o) = Some (concat outs)
  /\ all_results (out_self o) = all_results self.
Proof.
  intros Hc Hp Hg Hk Hall Hdisj Heval Hiter o.
  pose proof (py_iter_error _ _ Hiter) as ->.
  assert (Hbad : scores_of_batch m (custom_evaluate_kwargs self) bad
                 = inl TypeError_not_iterable).
  { unfold scores_of_batch. rewrite (bool_decide_eq_true_2 _ Hdisj), Heval.
    exact Hiter. }
  assert (Htake : take (S k) batches = take k batches ++ [bad])
    by (apply take_S_r; exact Hk).
  rewrite <- (take_drop_middle batches k bad Hk) in Hg.
  destruct (call_stops m self h args batch_size kw u data (take k batches) bad
              (drop (S k) batches) outs _ Hc Hp Hg Hall Hbad) as (Hs & Hh & Hr).
  pose proof (call_stops_calls m self h args batch_size kw u data (take k batches) bad
                (drop (S k) batches) outs _ Hc Hp Hg Hall Hbad) as Hcalls.
  fold o in Hs, Hh, Hr, Hcalls. rewrite Hs, Hh, Hr, Hcalls.
  rewrite (bool_decide_eq_true_2 _ Hdisj), Htake, fmap_app.
  cbn [last_results all_results set_last_results].
  split; [reflexivity|]. split; [reflexivity|].
  split; [apply is_fresh|]. split; [apply lookup_insert_eq|reflexivity].
Qed.

Lemma non_iterable_scores_raise_witness :
  let self := (new_metric scalar_metric []).1 in
  let h := (new_metric scalar_metric []).2 in
  let batches := returned [] (generate_batches five_dataset 2 false) in
  let o := BatchedMetric_call scalar_metric self h five_instances 2 [] in
  out_result o = inl TypeError_not_iterable
  /\ out_calls o
     = (fun batch => batch ∪ custom_evaluate_kwargs self) <$> take 1 batches
  /\ (last_results (out_self o) ∉ dom h)
  /\ out_store o !! last_results (out_self o) = Some (concat [])
  /\ all_results (out_self o) = all_results self.
Proof.
  apply (non_iterable_scores_raise scalar_metric _ _ five_instances 2 [] five_dataset
           tt _ 0
           (default ∅ (returned [] (generate_batches five_dataset 2 false) !! 0%nat))
           [] (VInt 1) TypeError_not_iterable).
  - reflexivity.
  - reflexivity.
  - apply returned_ok. vm_compute. reflexivity.
  - apply lookup_or_default. by_computation.
  - constructor.
  - apply map_disjoint_empty_r.
  - reflexivity.
  - reflexivity.
Defined.

(** ** The history over several calls *)

(** The three ways in which a call ends: before [last_results] is
    replaced; with an exception after that; with the new list returned
    and appended to the history. *)
Lemma call_cases m self h args batch_size kw :
  let o := BatchedMetric_call m self h args batch_size kw in
  let l := fresh (dom h) in
  (exists e, out_result o = inl e /\ out_self o = self /\ out_store o = h)
  \/ (exists e scores,
        out_result o = inl e
        /\ out_self o = set_last_results self l
        /\ out_store o = <[l := scores]> h)
  \/ (exists scores,
        out_result o = inr l
        /\ out_self o = append_all_results (set_last_results self l) l
        /\ out_store o = <[l := scores]> h).
Proof.
  cbv zeta. unfold BatchedMetric_call.
  destruct (check_kwargs m kw) as [e0|u0] eqn:Hc; [left; eauto|].
  destruct (general_preprocess m args) as [e0|data] eqn:Hp; [left; eauto|].
  destruct (generate_batches data batch_size (display_progressbar self))
    as [e0|batches] eqn:Hg; [right; left; eauto|].
  destruct (batches_split m (custom_evaluate_kwargs self) batches)
    as [[outs Hall]|(done & bad & rest & outs & e0 & -> & Hall & Hbad)].
  - rewrite (evaluate_batches_ok _ _ _ _ outs) by exact Hall.
    rewrite alter_insert_eq.
    destruct (custom_postprocess m data) as [e0|u1]; [right; left; eauto|].
    right. right. eauto.
  - pose proof (evaluate_batches_raise m (custom_evaluate_kwargs self) (fresh (dom h))
                  done bad rest outs e0 (<[fresh (dom h) := []]> h) Hall Hbad) as [H1 H2].
    destruct (evaluate_batches _ _ _ _ _) as [[h2 calls] r]. cbn [fst snd] in H1, H2.
    subst h2 r. rewrite alter_insert_eq. right. left. eauto.
Qed.

(** What one call does to the store and to the history. *)
Lemma call_frame m self h args batch_size kw :
  let o := BatchedMetric_call m self h args batch_size kw in
  (forall l, l ∈ dom h -> out_store o !! l = h !! l)
  /\ dom h ⊆ dom (out_store o)
  /\ all_results (out_self o) = all_results self ++ returned_refs [o]
  /\ Forall (fun l => (l ∉ dom h) /\ l ∈ dom (out_store o)) (returned_refs [o]).
Proof.
  cbv zeta.
  destruct (call_cases m self h args batch_size kw)
    as [(e & Hr & Hs & Hh)|[(e & scores & Hr & Hs & Hh)|(scores & Hr & Hs & Hh)]];
    unfold returned_refs; cbn [mbind list_bind]; rewrite Hr, Hs, Hh;
    cbn [all_results set_last_results append_all_results app].
  - rewrite app_nil_r. repeat split; auto.
  - rewrite app_nil_r. repeat split; auto.
    + intros l Hl. apply fresh_store_lookup. exact Hl.
    + rewrite dom_insert. set_solver.
  - repeat split.
    + intros l Hl. apply fresh_store_lookup. exact Hl.
    + rewrite dom_insert. set_solver.
    + repeat constructor; [apply is_fresh|].
      rewrite dom_insert. set_solver.
Qed.

Lemma returned_refs_cons o os :
  returned_refs (o :: os) = returned_refs [o] ++ returned_refs os.
Proof. unfold returned_refs. cbn [mbind list_bind]. rewrite app_nil_r. reflexivity. Qed.

(** The same over a sequence of calls. *)
Lemma call_sequence_frame m calls : forall self h,
  let os := call_sequence m self h calls in
  (forall (i : nat) o l, os !! i = Some o -> l ∈ dom h ->
     l ∈ dom (out_store o) /\ out_store o !! l = h !! l)
  /\ (forall (i : nat) o, os !! i = Some o ->
        all_results (out_self o) = all_results self ++ returned_refs (take (S i) os))
  /\ (forall (i j : nat) oi oj l, (j <= i)%nat ->
        os !! i = Some oi -> os !! j = Some oj -> out_result oj = inr l ->
        out_store oi !! l = out_store oj !! l)
  /\ Forall (fun l => l ∉ dom h) (returned_refs os)
  /\ NoDup (returned_refs os).
Proof.
  induction calls as [|[[args batch_size] kw] calls IH]; intros self h; cbv zeta.
  { cbn [call_sequence]. split; [|split; [|split; [|split]]].
    - intros i o l Hi. rewrite lookup_nil in Hi. discriminate.
    - intros i o Hi. rewrite lookup_nil in Hi. discriminate.
    - intros i j oi oj l _ Hi. rewrite lookup_nil in Hi. discriminate.
    - constructor.
    - constructor. }
  cbn [call_sequence].
  set (o := BatchedMetric_call m self h args batch_size kw).
  destruct (call_frame m self h args batch_size kw) as (Hkeep & Hdom & Hhist & Hnew).
  fold o in Hkeep, Hdom, Hhist, Hnew.
  specialize (IH (out_self o) (out_store o)). cbv zeta in IH.
  set (os := call_sequence m (out_self o) (out_store o) calls) in *.
  destruct IH as (IHkeep & IHhist & IHlater & IHfresh & IHnd).
  split; [|split; [|split; [|split]]].
  - intros [|i] oi l Hi Hl.
    + injection Hi as <-. split; [apply Hdom; exact Hl|apply Hkeep; exact Hl].
    + cbn in Hi. destruct (IHkeep i oi l Hi (Hdom l Hl)) as [Hd Heq].
      split; [exact Hd|]. rewrite Heq. apply Hkeep. exact Hl.
  - intros [|i] oi Hi.
    + injection Hi as <-. cbn [take]. exact Hhist.
    + cbn in Hi. rewrite (IHhist i oi Hi), Hhist.
      change (take (S (S i)) (o :: os)) with (o :: take (S i) os).
      rewrite (returned_refs_cons o (take (S i) os)), app_assoc. reflexivity.
  - intros [|i] [|j] oi oj l Hji Hi Hj Hr; try lia.
    + injection Hi as <-. injection Hj as <-. reflexivity.
    + cbn in Hi. injection Hj as <-.
      assert (Hl : l ∈ dom (out_store o)).
      { unfold returned_refs in Hnew. cbn [mbind list_bind] in Hnew. rewrite Hr in Hnew.
        apply Forall_cons in Hnew as [[_ Hl] _]. exact Hl. }
      apply (IHkeep i oi l Hi Hl).
    + cbn in Hi, Hj. apply (IHlater i j oi oj l); [lia|assumption..].
  - rewrite returned_refs_cons. apply Forall_app. split.
    + eapply Forall_impl; [exact Hnew|]. intros l [Hl _]. exact Hl.
    + eapply Forall_impl; [exact IHfresh|]. intros l Hl Hin. apply Hl, Hdom, Hin.
  - rewrite returned_refs_cons. apply NoDup_app. split; [|split; [|exact IHnd]].
    + unfold returned_refs. cbn [mbind list_bind]. rewrite app_nil_r.
      destruct (out_result o); [constructor|apply NoDup_singleton].
    + intros l Hl Hl'.
      rewrite Forall_forall in Hnew. rewrite Forall_forall in IHfresh.
      apply (IHfresh l Hl'). apply (Hnew l Hl).
Qed.

(** X12: the history over any sequence of calls on one object, whether
    they return or raise.  After each call the history is the history at
    the start followed by the references that the calls so far have
    returned, in the order of the calls: a call that raises adds nothing,
    and nothing is ever removed or replaced.  The returned references are
    distinct and new, the list behind a reference returned by one call has
    the same items after every later call, and so has every list that
    existed before the first call. *)
Theorem history_is_append_only (m : methods) (self : BatchedMetric) (h : store)
    (calls : list (call_args * Z * dict_items)) (i : nat) (o : outcome) :
  call_sequence m self h calls !! i = Some o ->
  let os := call_sequence m self h calls in
  all_results (out_self o) = all_results self ++ returned_refs (take (S i) os)
  /\ NoDup (returned_refs os)
  /\ Forall (fun l => l ∉ dom h) (returned_refs os)
  /\ (forall l, l ∈ dom h -> out_store o !! l = h !! l)
  /\ (forall (j : nat) oj l, (j <= i)%nat -> os !! j = Some oj ->
        out_result oj = inr l -> out_store o !! l = out_store oj !! l).
Proof.
  intros Hi os.
  destruct (call_sequence_frame m calls self h) as (Hkeep & Hhist & Hlater & Hfresh & Hnd).
  fold os in Hkeep, Hhist, Hlater, Hfresh, Hnd.
  split; [apply Hhist; exact Hi|]. split; [exact Hnd|]. split; [exact Hfresh|]. split.
  - intros l Hl. apply (Hkeep i o l Hi Hl).
  - intros j oj l Hji Hj Hr. apply (Hlater i j o oj l Hji Hi Hj Hr).
Qed.

Lemma history_is_append_only_witness :
  let self := (new_metric picky_metric []).1 in
  let h := (new_metric picky_metric []).2 in
  let calls := [(five_instances, 5, []); (five_instances, 2, []);
                (five_instances, 5, [])] in
  let o0 := BatchedMetric_call picky_metric self h five_instances 5 [] in
  let o1 := BatchedMetric_call picky_metric (out_self o0) (out_store o0)
              five_instances 2 [] in
  let o2 := BatchedMetric_call picky_metric (out_self o1) (out_store o1)
              five_instances 5 [] in
  let os := call_sequence picky_metric self h calls in
  all_results (out_self o2) = all_results self ++ returned_refs (take 3 os)
  /\ NoDup (returned_refs os)
  /\ Forall (fun l => l ∉ dom h) (returned_refs os)
  /\ (forall l, l ∈ dom h -> out_store o2 !! l = h !! l)
  /\ (forall (j : nat) oj l, (j <= 2)%nat -> os !! j = Some oj ->
        out_result oj = inr l -> out_store o2 !! l = out_store oj !! l).
Proof.
  intros self h calls o0 o1 o2.
  apply (history_is_append_only picky_metric self h calls 2 o2).
  reflexivity.
Defined.

(** A call that returns, one that raises on its second batch, and one
    that returns: the history holds the two returned lists. *)
Example history_of_three_calls :
  let self := (new_metric picky_metric []).1 in
  let h := (new_metric picky_metric []).2 in
  let os := call_sequence picky_metric self h
              [(five_instances, 5, []); (five_instances, 2, []);
               (five_instances, 5, [])] in
  out_result <$> os = [inr 1%nat; inl (Raised 7); inr 3%nat]
  /\ (fun o => all_results (out_self o)) <$> os = [[1%nat]; [1%nat]; [1%nat; 3%nat]]
  /\ returned_refs os = [1%nat; 3%nat].
Proof. vm_compute. repeat split; reflexivity. Qed.

(** ** The two dictionaries of [__init__] *)

Lemma moved_dec names key : moved names key \/ ~ moved names key.
Proof.
  destruct (bool_decide (key ∈ names) || bool_decide (re_sub_batch key ∈ names))
    eqn:Htest.
  - left. apply moved_test. exact Htest.
  - right. intros Hm. apply moved_test in Hm. congruence.
Qed.

(** The entries of [custom_evaluate_kwargs] and of the keyword arguments
    that are left for the base class. *)
Lemma split_init_kwargs_spec names kwargs_items key value :
  NoDup kwargs_items.*1 ->
  ((split_init_kwargs names kwargs_items).1 !! key = Some value
   <-> (key, value) ∈ kwargs_items /\ moved names key)
  /\ ((split_init_kwargs names kwargs_items).2 !! key = Some value
      <-> (key, value) ∈ kwargs_items /\ ~ moved names key).
Proof.
  intros Hnd. rewrite split_init_kwargs_unfold.
  destruct (resolve_evaluate_kwargs names kwargs_items ∅ (list_to_map kwargs_items))
    as [c k] eqn:Hres. cbn [fst snd].
  destruct (resolve_evaluate_kwargs_lookup _ _ _ _ _ _ Hnd Hres key) as [Hyes Hno].
  destruct (decide (key ∈ kwargs_items.*1)) as [Hin|Hnot].
  - apply list_elem_of_fmap in Hin as ([key' value'] & Hk & Hin). cbn in Hk. subst key'.
    assert (Huniq : forall v, (key, v) ∈ kwargs_items -> v = value')
      by (intros v Hv; exact (unique_value _ _ _ _ Hnd Hv Hin)).
    destruct (moved_dec names key) as [Hm|Hm].
    + destruct (Hyes value' Hin Hm) as [-> ->]. split; split.
      * intros [= <-]. auto.
      * intros [Hv _]. rewrite (Huniq _ Hv). reflexivity.
      * discriminate.
      * intros [_ Hn]. contradiction.
    + destruct Hno as [-> ->]; [right; exact Hm|].
      rewrite lookup_empty.
      rewrite (elem_of_list_to_map_1 (M := gmap string) kwargs_items key value' Hnd Hin).
      split; split.
      * discriminate.
      * intros [_ Hn]. contradiction.
      * intros [= <-]. auto.
      * intros [Hv _]. rewrite (Huniq _ Hv). reflexivity.
  - destruct Hno as [-> ->]; [left; exact Hnot|].
    rewrite lookup_empty.
    rewrite (not_elem_of_list_to_map_1 (M := gmap string) kwargs_items key Hnot).
    assert (Hout : forall v, ~ (key, v) ∈ kwargs_items).
    { intros v Hv. apply Hnot. apply list_elem_of_fmap. exists (key, v). auto. }
    split; split; try discriminate; intros [Hv _]; destruct (Hout _ Hv).
Qed.

(** X13: the construction keyword arguments are split, not copied and not
    lost.  [custom_evaluate_kwargs] holds exactly the keyword arguments
    whose name is a parameter of the evaluator, or is one once every
    [_batch] is deleted from it, and the base class receives exactly the
    others, all with their values: the two dictionaries have no name in
    common and together they are the keyword arguments of the
    construction. *)
Theorem init_kwargs_are_split (m : methods) (progress : bool)
    (kwargs_items : dict_items) (h : store) :
  NoDup kwargs_items.*1 ->
  let self := (BatchedMetric_init m progress kwargs_items h).1 in
  (forall key value,
     custom_evaluate_kwargs self !! key = Some value
     <-> (key, value) ∈ kwargs_items
         /\ (key ∈ evaluate_batch_args m \/ re_sub_batch key ∈ evaluate_batch_args m))
  /\ (forall key value,
        general_kwargs self !! key = Some value
        <-> (key, value) ∈ kwargs_items
            /\ ~ (key ∈ evaluate_batch_args m \/ re_sub_batch key ∈ evaluate_batch_args m))
  /\ custom_evaluate_kwargs self ##ₘ general_kwargs self
  /\ custom_evaluate_kwargs self ∪ general_kwargs self = list_to_map kwargs_items.
Proof.
  intros Hnd self.
  destruct (BatchedMetric_init_fields m progress kwargs_items h) as [Hc Hk].
  fold self in Hc, Hk. rewrite Hc, Hk.
  set (names := evaluate_batch_args m).
  assert (H1 : forall key value,
    (split_init_kwargs names kwargs_items).1 !! key = Some value
    <-> (key, value) ∈ kwargs_items /\ moved names key)
    by (intros key value; apply split_init_kwargs_spec; exact Hnd).
  assert (H2 : forall key value,
    (split_init_kwargs names kwargs_items).2 !! key = Some value
    <-> (key, value) ∈ kwargs_items /\ ~ moved names key)
    by (intros key value; apply split_init_kwargs_spec; exact Hnd).
  assert (Hdisj : (split_init_kwargs names kwargs_items).1
                    ##ₘ (split_init_kwargs names kwargs_items).2).
  { apply map_disjoint_spec. intros key v1 v2 Hv1 Hv2.
    apply H1 in Hv1 as [_ Hm]. apply H2 in Hv2 as [_ Hn]. contradiction. }
  split; [exact H1|]. split; [exact H2|]. split; [exact Hdisj|].
  apply map_eq. intros key. apply option_eq. intros value.
  rewrite (lookup_union_Some _ _ _ _ Hdisj), H1, H2.
  rewrite <- (elem_of_list_to_map (M := gmap string)) by exact Hnd.
  destruct (moved_dec names key); tauto.
Qed.

Lemma init_kwargs_are_split_witness :
  let kwargs_items := [("threshold"%string, one_tenth); ("plot"%string, VNone);
                       ("y_batch_batch"%string, VInt 3)] in
  let self := (BatchedMetric_init threshold_metric false kwargs_items ∅).1 in
  (forall key value,
     custom_evaluate_kwargs self !! key = Some value
     <-> (key, value) ∈ kwargs_items
         /\ (key ∈ evaluate_batch_args threshold_metric
             \/ re_sub_batch key ∈ evaluate_batch_args threshold_metric))
  /\ (forall key value,
        general_kwargs self !! key = Some value
        <-> (key, value) ∈ kwargs_items
            /\ ~ (key ∈ evaluate_batch_args threshold_metric
                  \/ re_sub_batch key ∈ evaluate_batch_args threshold_metric))
  /\ custom_evaluate_kwargs self ##ₘ general_kwargs self
  /\ custom_evaluate_kwargs self ∪ general_kwargs self = list_to_map kwargs_items.
Proof.
  apply (init_kwargs_are_split threshold_metric false
           [("threshold"%string, one_tenth); ("plot"%string, VNone);
            ("y_batch_batch"%string, VInt 3)] ∅).
  by_computation.
Defined.

(** ** [BatchedPerturbationMetric] *)

(** X14: the perturbation options.  When the evaluator declares the
    parameters [perturb_func] and [perturb_func_kwargs], as the abstract
    method of the class does, the construction stores both options in
    [custom_evaluate_kwargs] and hands neither to the base class; a
    [perturb_func_kwargs] that is None is stored as the empty dictionary,
    never as None; and every invocation of the evaluator, in every later
    call, receives the two stored values. *)
Theorem perturbation_options_reach_evaluator (m : methods) (progress : bool)
    (perturb_func perturb_func_kwargs : value) (kwargs_items : dict_items)
    (h : store) (later : list (call_args * Z * dict_items)) :
  "perturb_func"%string ∈ evaluate_batch_args m ->
  "perturb_func_kwargs"%string ∈ evaluate_batch_args m ->
  NoDup kwargs_items.*1 ->
  "perturb_func"%string ∉ kwargs_items.*1 ->
  "perturb_func_kwargs"%string ∉ kwargs_items.*1 ->
  let self := (BatchedPerturbationMetric_init m progress perturb_func
                 perturb_func_kwargs kwargs_items h).1 in
  let h0 := (BatchedPerturbationMetric_init m progress perturb_func
               perturb_func_kwargs kwargs_items h).2 in
  let stored := match perturb_func_kwargs with
                | VNone => VSet []
                | _ => perturb_func_kwargs
                end in
  custom_evaluate_kwargs self !! "perturb_func"%string = Some perturb_func
  /\ custom_evaluate_kwargs self !! "perturb_func_kwargs"%string = Some stored
  /\ stored <> VNone
  /\ general_kwargs self !! "perturb_func"%string = None
  /\ general_kwargs self !! "perturb_func_kwargs"%string = None
  /\ Forall (fun o =>
               Forall (fun d =>
                         d !! "perturb_func"%string = Some perturb_func
                         /\ d !! "perturb_func_kwargs"%string = Some stored)
                 (out_calls o))
       (call_sequence m self h0 later).
Proof.
  intros Hpf Hpfk Hnd Hn1 Hn2 self h0 stored.
  set (items := ("perturb_func"%string, perturb_func)
                  :: ("perturb_func_kwargs"%string, stored) :: kwargs_items).
  assert (Hself : self = (BatchedMetric_init m progress items h).1) by reflexivity.
  assert (Hh0 : h0 = (BatchedMetric_init m progress items h).2) by reflexivity.
  assert (Hndi : NoDup items.*1).
  { cbn [fmap list_fmap fst items]. apply NoDup_cons. split.
    - intros Hin. apply elem_of_cons in Hin as [Heq|Hin]; [discriminate|contradiction].
    - apply NoDup_cons. split; assumption. }
  destruct (BatchedMetric_init_fields m progress items h) as [Hc Hk].
  rewrite <- Hself in Hc, Hk.
  pose proof (fun key value => proj1 (split_init_kwargs_spec (evaluate_batch_args m)
                                        items key value Hndi)) as Hcustom.
  pose proof (fun key value => proj2 (split_init_kwargs_spec (evaluate_batch_args m)
                                        items key value Hndi)) as Hgeneral.
  rewrite <- Hc in Hcustom. rewrite <- Hk in Hgeneral.
  assert (H1 : custom_evaluate_kwargs self !! "perturb_func"%string = Some perturb_func).
  { apply Hcustom. split; [subst items; entry|left; exact Hpf]. }
  assert (H2 : custom_evaluate_kwargs self !! "perturb_func_kwargs"%string = Some stored).
  { apply Hcustom. split; [subst items; entry|left; exact Hpfk]. }
  split; [exact H1|]. split; [exact H2|].
  split; [subst stored; destruct perturb_func_kwargs; discriminate|].
  split; [|split].
  - destruct (general_kwargs self !! "perturb_func"%string) as [v|] eqn:Hv; [|reflexivity].
    apply Hgeneral in Hv as [_ Hn]. exfalso. apply Hn. left. exact Hpf.
  - destruct (general_kwargs self !! "perturb_func_kwargs"%string) as [v|] eqn:Hv;
      [|reflexivity].
    apply Hgeneral in Hv as [_ Hn]. exfalso. apply Hn. left. exact Hpfk.
  - eapply Forall_impl; [apply call_sequence_custom|].
    intros o [_ Hcalls]. eapply Forall_impl; [exact Hcalls|].
    intros d Hd. split; apply Hd; assumption.
Qed.

Lemma perturbation_options_reach_evaluator_witness :
  let later := [(five_instances, 2, []); (five_instances, 3, [])] in
  let self := (BatchedPerturbationMetric_init perturbation_metric false
                 (VObject 2) VNone [("plot"%string, VNone)] ∅).1 in
  let h0 := (BatchedPerturbationMetric_init perturbation_metric false
               (VObject 2) VNone [("plot"%string, VNone)] ∅).2 in
  let stored := VSet [] in
  custom_evaluate_kwargs self !! "perturb_func"%string = Some (VObject 2)
  /\ custom_evaluate_kwargs self !! "perturb_func_kwargs"%string = Some stored
  /\ stored <> VNone
  /\ general_kwargs self !! "perturb_func"%string = None
  /\ general_kwargs self !! "perturb_func_kwargs"%string = None
  /\ Forall (fun o =>
               Forall (fun d =>
                         d !! "perturb_func"%string = Some (VObject 2)
                         /\ d !! "perturb_func_kwargs"%string = Some stored)
                 (out_calls o))
       (call_sequence perturbation_metric self h0 later).
Proof.
  apply (perturbation_options_reach_evaluator perturbation_metric false
           (VObject 2) VNone [("plot"%string, VNone)] ∅
           [(five_instances, 2, []); (five_instances, 3, [])]).
  - unfold perturbation_metric, evaluate_batch_args, perturbation_parameters,
      base_parameters. cbn [app]. entry.
  - unfold perturbation_metric, evaluate_batch_args, perturbation_parameters,
      base_parameters. cbn [app]. entry.
  - by_computation.
  - by_computation.
  - by_computation.
Defined.

(** X15: the batch size of a perturbation metric.  Its [__call__] accepts
    [batch_size] and does not hand it on: whatever value is given, also
    zero or a negative one, a call that returns on a dataset of fewer
    than [2 ^ 53] instances has invoked the evaluator
    [ceil(n_instances / 64)] times, on the slices of 64 instances of
    every sequence entry in order, and any other value of [batch_size]
    gives the same outcome. *)
Theorem perturbation_call_ignores_batch_size (m : methods) (self : BatchedMetric)
    (h : store) (args : call_args) (batch_size : Z) (kw data : dict_items)
    (x : value) (n_instances : Z) (l : loc) :
  general_preprocess m (forwarded_args args kw) = inr data ->
  NoDup data.*1 ->
  (list_to_map data : dict) !! "x_batch"%string = Some x ->
  py_len x = inr n_instances ->
  n_instances < 2 ^ 53 ->
  out_result (BatchedPerturbationMetric_call m self h args batch_size kw) = inr l ->
  let o := BatchedPerturbationMetric_call m self h args batch_size kw in
  Z.of_nat (length (out_calls o)) = (n_instances + 64 - 1) / 64
  /\ (forall key kind ys, (key, VSeq kind ys) ∈ data ->
        key_slices key (out_calls o) = ys)
  /\ (forall batch_size',
        BatchedPerturbationMetric_call m self h args batch_size' kw = o).
Proof.
  intros Hp Hnd Hx Hn Hlt Hr o.
  destruct (call_invocations m self h (forwarded_args args kw) 64
              (filter (fun kv => kv.1 ≠ "custom_batch"%string) kw)
              data x n_instances l Hp Hnd Hx Hn Hlt ltac:(lia) Hr) as [Hlen Hslices].
  split; [exact Hlen|]. split; [exact Hslices|]. reflexivity.
Qed.

Lemma perturbation_call_ignores_batch_size_witness :
  let self := (BatchedPerturbationMetric_init perturbation_metric false
                 (VObject 2) VNone [] ∅).1 in
  let h := (BatchedPerturbationMetric_init perturbation_metric false
              (VObject 2) VNone [] ∅).2 in
  let o := BatchedPerturbationMetric_call perturbation_metric self h
             five_instances 1 [] in
  Z.of_nat (length (out_calls o)) = (5 + 64 - 1) / 64
  /\ (forall key kind ys, (key, VSeq kind ys) ∈ five_dataset ->
        key_slices key (out_calls o) = ys)
  /\ (forall batch_size',
        BatchedPerturbationMetric_call perturbation_metric self h
          five_instances batch_size' [] = o).
Proof.
  apply (perturbation_call_ignores_batch_size perturbation_metric _ _
           five_instances 1 [] five_dataset (int_array [10; 20; 30; 40; 50]) 5 1%nat).
  - reflexivity.
  - by_computation.
  - reflexivity.
  - reflexivity.
  - reflexivity.
  - vm_compute. reflexivity.
Defined.

(** ** Names that end in [_batch] *)

(** A name that does not start with [_batch] keeps its first character. *)
Lemma re_sub_batch_skip_1 c r :
  c <> "_"%char -> re_sub_batch (String c r) = String c (re_sub_batch r).
Proof.
  intros Hc.
  destruct c as [[] [] [] [] [] [] [] []]; first [reflexivity | congruence].
Qed.

Lemma re_sub_batch_skip_2 c r :
  c <> "b"%char ->
  re_sub_batch (String "_" (String c r)) = String "_" (re_sub_batch (String c r)).
Proof.
  intros Hc.
  destruct c as [[] [] [] [] [] [] [] []]; first [reflexivity | congruence].
Qed.

Lemma re_sub_batch_skip_3 c r :
  c <> "a"%char ->
  re_sub_batch (String "_" (String "b" (String c r)))
  = String "_" (re_sub_batch (String "b" (String c r))).
Proof.
  intros Hc.
  destruct c as [[] [] [] [] [] [] [] []]; first [reflexivity | congruence].
Qed.

Lemma re_sub_batch_skip_4 c r :
  c <> "t"%char ->
  re_sub_batch (String "_" (String "b" (String "a" (String c r))))
  = String "_" (re_sub_batch (String "b" (String "a" (String c r)))).
Proof.
  intros Hc.
  destruct c as [[] [] [] [] [] [] [] []]; first [reflexivity | congruence].
Qed.

Lemma re_sub_batch_skip_5 c r :
  c <> "c"%char ->
  re_sub_batch (String "_" (String "b" (String "a" (String "t" (String c r)))))
  = String "_" (re_sub_batch (String "b" (String "a" (String "t" (String c r))))).
Proof.
  intros Hc.
  destruct c as [[] [] [] [] [] [] [] []]; first [reflexivity | congruence].
Qed.

Lemma re_sub_batch_skip_6 c r :
  c <> "h"%char ->
  re_sub_batch
    (String "_" (String "b" (String "a" (String "t" (String "c" (String c r))))))
  = String "_"
      (re_sub_batch (String "b" (String "a" (String "t" (String "c" (String c r)))))).
Proof.
  intros Hc.
  destruct c as [[] [] [] [] [] [] [] []]; first [reflexivity | congruence].
Qed.

Lemma append_cons c r t :
  String.append (String c r) t = String c (String.append r t).
Proof. reflexivity. Qed.

(** Deleting every [_batch] from a name with one more [_batch] at its end
    gives what it gives for the name. *)
Lemma re_sub_batch_suffix_bounded (n : nat) : forall s,
  (String.length s <= n)%nat ->
  re_sub_batch (String.append s "_batch") = re_sub_batch s.
Proof.
  induction n as [|n IH]; intros s Hlen.
  { destruct s; [reflexivity|cbn in Hlen; lia]. }
  destruct s as [|c1 r1]; [reflexivity|]. cbn [String.length] in Hlen.
  destruct (ascii_dec c1 "_") as [->|H1].
  2: { rewrite !append_cons. rewrite !(re_sub_batch_skip_1 c1) by exact H1.
       f_equal. apply IH. lia. }
  destruct r1 as [|c2 r2]; [reflexivity|]. cbn [String.length] in Hlen.
  destruct (ascii_dec c2 "b") as [->|H2].
  2: { rewrite !append_cons. rewrite !(re_sub_batch_skip_2 c2) by exact H2.
       f_equal. apply (IH (String c2 r2)). cbn [String.length]. lia. }
  destruct r2 as [|c3 r3]; [reflexivity|]. cbn [String.length] in Hlen.
  destruct (ascii_dec c3 "a") as [->|H3].
  2: { rewrite !append_cons. rewrite !(re_sub_batch_skip_3 c3) by exact H3.
       f_equal. apply (IH (String "b" (String c3 r3))). cbn [String.length]. lia. }
  destruct r3 as [|c4 r4]; [reflexivity|]. cbn [String.length] in Hlen.
  destruct (ascii_dec c4 "t") as [->|H4].
  2: { rewrite !append_cons. rewrite !(re_sub_batch_skip_4 c4) by exact H4.
       f_equal. apply (IH (String "b" (String "a" (String c4 r4)))).
       cbn [String.length]. lia. }
  destruct r4 as [|c5 r5]; [reflexivity|]. cbn [String.length] in Hlen.
  destruct (ascii_dec c5 "c") as [->|H5].
  2: { rewrite !append_cons. rewrite !(re_sub_batch_skip_5 c5) by exact H5.
       f_equal. apply (IH (String "b" (String "a" (String "t" (String c5 r5))))).
       cbn [String.length]. lia. }
  destruct r5 as [|c6 r6]; [reflexivity|]. cbn [String.length] in Hlen.
  destruct (ascii_dec c6 "h") as [->|H6].
  2: { rewrite !append_cons. rewrite !(re_sub_batch_skip_6 c6) by exact H6.
       f_equal.
       apply (IH (String "b" (String "a" (String "t" (String "c" (String c6 r6)))))).
       cbn [String.length]. lia. }
  rewrite !append_cons.
  change (re_sub_batch (String.append r6 "_batch") = re_sub_batch r6).
  apply IH. lia.
Qed.

Lemma re_sub_batch_suffix s :
  re_sub_batch (String.append s "_batch") = re_sub_batch s.
Proof. apply (re_sub_batch_suffix_bounded (String.length s)). lia. Qed.

Lemma length_append s t :
  String.length (String.append s t) = (String.length s + String.length t)%nat.
Proof.
  induction s as [|c s IH]; [reflexivity|].
  rewrite append_cons. cbn [String.length]. rewrite IH. reflexivity.
Qed.

(** Stripping the suffix, as the specification reads the code, gives the
    name back. *)
Lemma strip_suffix_batch_suffix s :
  strip_suffix_batch (String.append s "_batch") = s.
Proof.
  induction s as [|c s IH]; [reflexivity|].
  rewrite append_cons. cbn [strip_suffix_batch].
  destruct (String.eqb (String c (String.append s "_batch")) "_batch") eqn:Heq.
  - apply String.eqb_eq in Heq. apply (f_equal String.length) in Heq.
    cbn [String.length] in Heq. rewrite length_append in Heq. cbn in Heq. lia.
  - rewrite IH. reflexivity.
Qed.

(** X16: a keyword argument named after a parameter, with [_batch] at its
    end.  When [p] is a parameter of the evaluator and has no [_batch] in
    it, [re.sub] turns the keyword [p_batch] into [p], as stripping the
    suffix does, and the construction moves the keyword to
    [custom_evaluate_kwargs].  It is stored, and passed to every
    invocation of the evaluator, under the name [p_batch] that it was
    given with: nothing is stored under the name [p] of the parameter
    unless [p] is a keyword argument itself. *)
Theorem batch_suffix_keyword_is_moved (m : methods) (progress : bool)
    (kwargs_items : dict_items) (h : store)
    (later : list (call_args * Z * dict_items)) (param : string) (v : value) :
  NoDup kwargs_items.*1 ->
  param ∈ evaluate_batch_args m ->
  re_sub_batch param = param ->
  (String.append param "_batch", v) ∈ kwargs_items ->
  let key := String.append param "_batch" in
  let self := (BatchedMetric_init m progress kwargs_items h).1 in
  let h0 := (BatchedMetric_init m progress kwargs_items h).2 in
  re_sub_batch key = param
  /\ strip_suffix_batch key = param
  /\ custom_evaluate_kwargs self !! key = Some v
  /\ general_kwargs self !! key = None
  /\ (param ∉ kwargs_items.*1 -> custom_evaluate_kwargs self !! param = None)
  /\ Forall (fun o => Forall (fun d => d !! key = Some v) (out_calls o))
       (call_sequence m self h0 later).
Proof.
  intros Hnd Hparam Hfree Hin key self h0.
  assert (Hsub : re_sub_batch key = param)
    by (subst key; rewrite re_sub_batch_suffix; exact Hfree).
  destruct (BatchedMetric_init_fields m progress kwargs_items h) as [Hc Hk].
  fold self in Hc, Hk.
  pose proof (fun k x => proj1 (split_init_kwargs_spec (evaluate_batch_args m)
                                  kwargs_items k x Hnd)) as Hcustom.
  pose proof (fun k x => proj2 (split_init_kwargs_spec (evaluate_batch_args m)
                                  kwargs_items k x Hnd)) as Hgeneral.
  rewrite <- Hc in Hcustom. rewrite <- Hk in Hgeneral.
  assert (Hmoved : moved (evaluate_batch_args m) key)
    by (right; rewrite Hsub; exact Hparam).
  assert (Hstored : custom_evaluate_kwargs self !! key = Some v)
    by (apply Hcustom; split; assumption).
  split; [exact Hsub|]. split; [apply strip_suffix_batch_suffix|].
  split; [exact Hstored|]. split; [|split].
  - destruct (general_kwargs self !! key) as [x|] eqn:Hx; [|reflexivity].
    apply Hgeneral in Hx as [_ Hn]. contradiction.
  - intros Hnot.
    destruct (custom_evaluate_kwargs self !! param) as [x|] eqn:Hx; [|reflexivity].
    apply Hcustom in Hx as [Hx _]. exfalso. apply Hnot.
    apply list_elem_of_fmap. exists (param, x). split; [reflexivity|exact Hx].
  - eapply Forall_impl; [apply call_sequence_custom|].
    intros o [_ Hcalls]. eapply Forall_impl; [exact Hcalls|].
    intros d Hd. apply Hd. exact Hstored.
Qed.

Lemma batch_suffix_keyword_is_moved_witness :
  let kwargs_items := [("threshold_batch"%string, one_tenth)] in
  let later := [(five_instances, 2, [])] in
  let key := String.append "threshold" "_batch" in
  let self := (BatchedMetric_init threshold_metric false kwargs_items ∅).1 in
  let h0 := (BatchedMetric_init threshold_metric false kwargs_items ∅).2 in
  re_sub_batch key = "threshold"%string
  /\ strip_suffix_batch key = "threshold"%string
  /\ custom_evaluate_kwargs self !! key = Some one_tenth
  /\ general_kwargs self !! key = None
  /\ ("threshold"%string ∉ kwargs_items.*1 ->
      custom_evaluate_kwargs self !! "threshold"%string = None)
  /\ Forall (fun o => Forall (fun d => d !! key = Some one_tenth) (out_calls o))
       (call_sequence threshold_metric self h0 later).
Proof.
  apply (batch_suffix_keyword_is_moved threshold_metric false
           [("threshold_batch"%string, one_tenth)] ∅ [(five_instances, 2, [])]
           "threshold" one_tenth).
  - by_computation.
  - unfold threshold_metric, evaluate_batch_args, base_parameters. cbn [app]. entry.
  - reflexivity.
  - entry.
Defined.

(** ** The order of the entries of the dataset *)

Lemma partition_kwargs_permutation n data data' s b :
  NoDup data.*1 -> data ≡ₚ data' ->
  partition_kwargs n data ∅ ∅ = inr (s, b) ->
  partition_kwargs n data' ∅ ∅ = inr (s, b).
Proof.
  intros Hnd Hperm Hp.
  assert (Hnd' : NoDup data'.*1) by (rewrite <- Hperm; exact Hnd).
  destruct (partition_kwargs_inv _ _ _ _ _ _ Hp) as (Hall & Hs & Hb & _).
  assert (Hall' : Forall (fun kv => accepted n kv.2) data') by (rewrite <- Hperm; exact Hall).
  destruct (partition_kwargs_succeeds n data' ∅ ∅ Hall') as (s' & b' & Hp').
  destruct (partition_kwargs_inv _ _ _ _ _ _ Hp') as (_ & Hs' & Hb' & _).
  assert (Hlook : forall (d1 d2 : dict_items) (s1 b1 s2 b2 : dict),
    NoDup d2.*1 -> d1 ≡ₚ d2 ->
    (forall k v, s1 !! k = Some v ->
       (∅ : dict) !! k = Some v \/ ((k, v) ∈ d1 /\ broadcast v = true)) ->
    (forall k v, b1 !! k = Some v ->
       (∅ : dict) !! k = Some v
       \/ ((k, v) ∈ d1 /\ broadcast v = false /\ py_len v = inr n)) ->
    partition_kwargs n d2 ∅ ∅ = inr (s2, b2) ->
    (forall k v, s1 !! k = Some v -> s2 !! k = Some v)
    /\ (forall k v, b1 !! k = Some v -> b2 !! k = Some v)).
  { intros d1 d2 s1 b1 s2 b2 Hn2 Hpm H1 H2 Hp2. split; intros k v Hv.
    - destruct (H1 k v Hv) as [He|[Hin Hbr]]; [rewrite lookup_empty in He; discriminate|].
      rewrite Hpm in Hin.
      pose proof (partition_kwargs_lookup _ _ _ _ _ _ Hn2 Hp2 Hin) as Hl.
      rewrite Hbr in Hl. apply Hl.
    - destruct (H2 k v Hv) as [He|(Hin & Hbr & _)]; [rewrite lookup_empty in He; discriminate|].
      rewrite Hpm in Hin.
      pose proof (partition_kwargs_lookup _ _ _ _ _ _ Hn2 Hp2 Hin) as Hl.
      rewrite Hbr in Hl. apply Hl. }
  destruct (Hlook data data' s b s' b' Hnd' Hperm Hs Hb Hp') as [Hs1 Hb1].
  destruct (Hlook data' data s' b' s b Hnd (symmetry Hperm) Hs' Hb' Hp) as [Hs2 Hb2].
  rewrite Hp'. do 2 f_equal.
  - apply map_eq. intros k. apply option_eq. intros v. split; auto.
  - apply map_eq. intros k. apply option_eq. intros v. split; auto.
Qed.

(** X17: the batches do not depend on the order of the entries of the
    dataset.  When the generator yields batches for a dataset, it yields
    the same batches, in the same order, for the same entries in any other
    order. *)
Theorem batches_ignore_entry_order (data data' : dict_items) (batch_size : Z)
    (flag : bool) (batches : list dict) :
  NoDup data.*1 ->
  data ≡ₚ data' ->
  generate_batches data batch_size flag = inr batches ->
  generate_batches data' batch_size flag = inr batches.
Proof.
  intros Hnd Hperm Hg.
  destruct (generate_batches_ok_inv _ _ _ _ Hg)
    as (x & n & s & b & c & Hx & Hn & Hp & Hc & ->).
  rewrite (list_to_map_proper (M := gmap string) data data' Hnd Hperm) in Hx.
  rewrite (generate_batches_unfold _ _ _ x n) by assumption.
  rewrite (partition_kwargs_permutation n data data' s b Hnd Hperm Hp), Hc.
  reflexivity.
Qed.

Lemma batches_ignore_entry_order_witness :
  generate_batches (reverse five_dataset) 2 false
  = inr (returned [] (generate_batches five_dataset 2 false)).
Proof.
  apply (batches_ignore_entry_order five_dataset (reverse five_dataset) 2 false).
  - by_computation.
  - symmetry. apply reverse_Permutation.
  - apply returned_ok. vm_compute. reflexivity.
Defined.
